(* ===== verification/_CoqProject ===== *)
-Q . S2P
Prelude.v
JsObject.v
Json.v
JsNumber.v
JsonValue.v
Generator.v
Double.v
Week.v
Cells.v
Lifts.v
Row.v
Display.v
Storage.v
Effects.v
App.v
