(* ===== verification/Prelude.v ===== *)
(** * A verification library for the 8-6-4-3 strength-training planner

    The program is one React module, [src/src/App.tsx].  It keeps a
    registry of one-repetition maxima ("lifts", a JS object from lift
    name to number) in a React context, persists it to [localStorage]
    under the key ['lifts'], lets the user add, edit, rename and delete
    lifts through a table, and derives a four-week percentage programme
    from every lift.  Its parts and how they interact:

    - [defaultLifts] (lines 7-21): the seed registry, a JS object
      literal.
    - [LiftsContextProvider] (lines 30-47): owns the [lifts] state; one
      effect loads it from storage (or seeds the defaults), another
      writes [JSON.stringify(lifts)] back on every change.
    - [LiftTableRow] (lines 51-142): one editable row, with local state
      [name], [max], [isEditing] and the buttons Edit/Save/Cancel/Delete.
    - [LiftsTable] (lines 144-225): the registry's mutation handlers:
      the edit/rename handler ([onSave] of an existing row: [delete
      s[name]; s[lift.name] = lift.max]), the delete handler
      ([delete s[lift.name]]), and the add handler (empty-name and
      truthiness duplicate checks, then [s[lift.name] = lift.max]);
      plus the [isAddingNewLift] flag.
    - [ProgramTableRow] (lines 227-248): the programme generator:
      [schemeByWeek[week]], [weight = 2.5 * Math.ceil(max * p / 2.5)],
      [total = (sets * reps * weight).toFixed(0)].
    - [ProgramTable] (lines 250-300): the [week] state and its [<<] and
      [>>] buttons, disabled at 0 and 3.

    ** Files, in dependency order

    - [Prelude] (this file): the development's notation scope, a small
      error type [result] with its bind notation, the tactics and the
      hint database [lifts] shared by every file, and generic lemmas on
      strings (with the transitivity of [String.compare]), filters,
      traversals, sorted lists and lists with distinct keys.
    - [JsObject]: the semantics of the JS plain objects the code
      manipulates, as the ECMAScript specification fixes it: own
      properties kept in [[OwnPropertyKeys]] order (array-index keys
      first in ascending numeric order, then the other string keys in
      creation order), [[Get]] falling back on the members of
      [Object.prototype], assignment (which for ['__proto__'] with a
      number value changes nothing), [delete], object spread and
      [Object.entries].  The well-formedness invariant (no duplicate
      key, enumeration order) is preserved by every operation; the
      abstraction [to_map] into stdpp's [gmap] is a refinement: every
      operation acts on the abstraction as the corresponding map
      operation ([JsObject.set_refines], [JsObject.delete_refines]).
    - [Json]: [JSON.stringify] on registries (objects whose values are
      numbers) and [Json.parse], the fragment of [JSON.parse] on such
      objects: the string escapes of QuoteJSONString, the member syntax,
      whitespace, and the object built by CreateDataProperty.  The number printer and parser are
      an interface, the typeclass [Json.NumberCodec], whose laws are all
      the object codec uses; the object round trip
      [Json.parse_stringify_gen] is proved against it.  The member loop
      of [Json.parse] is a [Fixpoint] with fuel, the length of the text
      after the opening brace; since every member consumes input (the
      codec's law [num_parse_suffix]), that fuel is never exhausted:
      any larger fuel gives the same result ([Json.parse_fuel_adequate]).
    - [JsNumber]: [Number::toString] on the decimals with at most six
      fractional digits and magnitude below [10^9], and the JSON number
      grammar read exactly; the instance [js_number_codec] discharges
      the laws of [Json.NumberCodec].
    - [JsonValue]: [JSON.parse] on every JSON value, as the first effect
      calls it: the value type [json], three mutually recursive readers
      (value, object members by CreateDataProperty, array elements) with
      fuel, and [registry_of], the registry an object of numbers
      denotes.  Lemmas: every value read is well formed at every depth
      (a typing judgement [json_wf] on nested objects), so the registry
      the load effect reads is; the fuel [parse] gives, twice the length
      of the text plus one, is never exhausted (the readers each consume
      input), so a [None] is a [SyntaxError]; and the registry fragment
      [Json.parse] agrees with it, which carries the round trip of
      [Json] over to [JSON.parse].
    - [Generator]: [ProgramTableRow] over exact rationals [Q]: the week
      scheme, the weight (the least multiple of 2.5 not below
      [max * percentage]), the volume string produced by [toFixed(0)]
      and the percentage string of [toFixed(1)], with [toFixed] itself
      modelled from the ECMAScript algorithm.  Theorems: the weight is
      characterised as the least multiple of 2.5 above the raw load,
      bounds, monotonicity in the 1RM and across weeks, the volume is
      always [24 * weight], a multiple of 60, printed exactly, the two
      examples of the specification, and the [TypeError] raised for a
      week outside [0..3].
    - [Double]: [ProgramTableRow] on IEEE doubles: [Double.round], the
      binary64 rounding to nearest with ties to even (normal range),
      after every operation of the weight, the volume and the
      percentage text.  Theorems: [round] is within half an ulp of its
      argument with a 53-bit significand; on every 1RM that is a
      multiple of 0.5 up to 1000 the double computation shows the same
      cells as the rational model of [Generator], checked by evaluation
      ([vm_compute] over the 2001 values and 4 weeks).
    - [Week]: [ProgramTable]'s week selector as a state machine (step
      function and its reachability relation); the range invariant
      [0 <= week <= 3] by rule induction, reachability of every week,
      and that the programme rows of every reachable week are computed
      without error.
    - [Cells]: what [ProgramTable] displays (lines 238-300): the six
      cells of each row (number children through [Number::toString]),
      the header, the label [Week {week + 1}] and the disabled state of
      the week buttons.  Theorems: for a 1RM up to [10^8] the weight
      cell is an integer or an integer followed by [.5], in the domain
      where [JsNumber.to_string] is exact.
    - [Lifts]: [LiftsTable]'s handlers on the registry: the seed object,
      the add handler with its two validations, the edit/rename handler
      and the delete handler, and the table's [isAddingNewLift] flag
      as a step function.  Theorems: the invariant of [JsObject] is
      preserved, the functional behaviour of each handler on every
      branch (errors included), idempotence of delete, the refinement
      of the abstract registry of the specification (a [Module Type]
      with a [gmap] implementation), and the behaviours where the code
      and the specification part ways.
    - [Row]: [LiftTableRow] as a state machine with its callbacks, and
      the lifts section of the page: the table's handlers composed with
      the rows, whose local state React keeps by key ([Row.reconcile]).
      Theorems: rows stay keyed by the registry, Edit/Save and Cancel,
      disabled inputs, and two departures from the specification (Delete
      after renaming the field removes the other lift; a row keeps a
      stale 1RM after an add overwrites its lift).
    - [Display]: the display order of both tables,
      [Object.entries(lifts).sort(([n1], [n2]) => n1.localeCompare(n2))],
      with [localeCompare] a section variable obeying the laws of a
      consistent comparator.  Theorems: both tables list every lift
      once, by name in [localeCompare] order and in the same order; the
      rows depend only on the registry's entries, not on the order its
      keys enumerate (array-index names first).
    - [Storage]: [LiftsContextProvider]: [localStorage] as a [gmap] of
      strings, the load effect, the persist effect, the mount (both
      effects in declaration order, with the texts written), and the
      sessions of a page (mount, then user events of the table, each
      followed by the persist effect when the handler called
      [setLifts]).  The load effect seeds [defaultLifts] for a missing
      or empty text, fails with [SyntaxError] on a text that is not
      JSON and with [NotARegistry v] on a JSON value that is not an
      object of numbers.  Theorems: storage always holds the text of
      the registry and a reload restores the registry; an add is
      persisted at once and a rejected add writes nothing.
    - [Effects]: React's scheduling of the provider's two effects: the
      dependency arrays [[]] and [[lifts]] compared with [Object.is] on
      object identities ([Effects.ref]) at every commit, effects run in
      declaration order, and the render/commit loop ([Effects.settle],
      with fuel) that a [setLifts] with a different object starts.
      Theorems: the mount settles after two commits and writes ["{}"]
      and then the loaded registry, as [Storage.mount] says; after a
      handler that called [setLifts] one commit runs the persist effect
      and not the load effect, as [Storage.session_step] says.  Without
      the array [[]] the load effect would read back the text just
      written, allocate a new object and loop; without [[lifts]] in the
      second array no change would be persisted.
    - [App]: the whole page: the provider's mount, the lifts section
      ([Row]) with the callbacks of its rows wired to the handlers
      ([App.table_event_of]), the persist effect after each handler
      that called [setLifts], and the week buttons.  Theorems: the
      invariant of every reachable page (storage mirrors the registry,
      rows keyed, registry well formed, week in range) and the reload
      of any such page; a concrete session replayed and reloaded; and
      liveness: from any reachable page the user can still give any
      ordinary name any 1RM, persisted, by events the proof exhibits
      (the row of that name, or the add row, opened if needed; the
      moves are lemmas of [Row]).

    ** Numbers

    JS numbers are IEEE doubles; the model uses exact rationals [Q].
    The source's percentages 0.575, 0.65, 0.725 and 0.8 are read as the
    decimals they denote.  [Double] justifies this for the generator:
    with the doubles nearest to those literals and a rounding after
    every operation, the rows are the same for every 1RM that is a
    multiple of 0.5 up to 1000 (the bound keeps the evaluation within
    seconds; it covers the 1RMs of lifters).  Registry values are
    stored and returned, never computed on, so [Q] with Leibniz equality
    is exact for them.  NaN and the infinities (not produced by a
    [type="number"] input, whose empty value converts to 0) are not
    modelled.

    Persisted values go through [Number::toString] and [JSON.parse];
    [JsNumber] models both on the decimals with at most six fractional
    digits and magnitude below [10^9], where the double nearest to the
    decimal prints as the decimal itself; the reload theorem assumes the
    registry's values lie there (every value the seed holds does).

    ** Not modelled (yet), in the order planned

    - the page after loading a stored JSON value that is not an object
      of numbers: the model reads the value ([JsonValue.parse]) and
      stops with [Storage.NotARegistry v]; in the browser it becomes the
      state, [Object.entries(null)] throws a [TypeError] and other
      values render through [ToNumber] of their entries;
    - [Number::toString] outside the decimal domain above, and the
      double computation of the generator beyond the checked range;
    - React's StrictMode, which runs effects and state updaters twice
      in development builds.
    The markup, CSS classes and [alert] texts are presentation only.
    The context's default value (lines 23-28) and [useLiftsContext]
    (line 49) are not modelled: both consumers render inside
    [LiftsContextProvider], so [useContext] always returns the
    provider's [lifts] and [setLifts], which the model passes directly. *)

From Stdlib Require Import String Ascii NArith List Sorted Bool Lia.
Import ListNotations.

Declare Scope lifts_scope.
Delimit Scope lifts_scope with lifts.

(** ** Results of fallible handlers *)

(** A handler that can refuse its input returns [Err e] (the [alert]
    path of the source, where the state is left alone) or [Ok a]. *)
Inductive result (E A : Type) : Type :=
| Ok (a : A)
| Err (e : E).
Arguments Ok {E A} a.
Arguments Err {E A} e.

Definition result_bind {E A B} (r : result E A) (k : A -> result E B)
  : result E B :=
  match r with
  | Ok a => k a
  | Err e => Err e
  end.

Notation "'let?' x := r 'in' k" := (result_bind r (fun x => k))
  (at level 10, x name, r at level 100, k at level 200) : lifts_scope.

Definition is_ok {E A} (r : result E A) : bool :=
  match r with Ok _ => true | Err _ => false end.

Open Scope lifts_scope.

Definition result_map {E A B} (f : A -> B) (r : result E A) : result E B :=
  match r with Ok a => Ok (f a) | Err e => Err e end.

(** Rendering a list of components: the first one that throws makes
    the whole render throw. *)
Fixpoint result_traverse {E A B} (f : A -> result E B) (l : list A)
  : result E (list B) :=
  match l with
  | [] => Ok []
  | x :: l' =>
      let? y := f x in
      let? ys := result_traverse f l' in
      Ok (y :: ys)
  end.

Lemma result_traverse_ok {E A B} (f : A -> result E B) (l : list A) :
  (forall x, In x l -> exists y, f x = Ok y) ->
  exists ys, result_traverse f l = Ok ys /\ length ys = length l.
Proof.
  induction l as [|x l IH]; simpl; intros H; [now exists []|].
  destruct (H x (or_introl eq_refl)) as [y ->]. simpl.
  destruct IH as [ys [-> Hlen]]; [intros; apply H; now right|].
  exists (y :: ys). simpl. now rewrite Hlen.
Qed.

(** A traversal whose every result carries a key computed from its
    input keeps the keys, in order. *)
Lemma result_traverse_keys {E A K B} (f : A -> result E (K * B)) (g : A -> K) (l : list A) ys :
  (forall x y, f x = Ok y -> fst y = g x) ->
  result_traverse f l = Ok ys -> map fst ys = map g l.
Proof.
  intros Hf. revert ys. induction l as [|x l IH]; simpl; intros ys; [now intros [= <-]|].
  destruct (f x) as [y|e] eqn:Hx; simpl; [|discriminate].
  destruct (result_traverse f l) as [ys'|e] eqn:Hl; simpl; [|discriminate].
  intros [= <-]. simpl. rewrite (Hf x y Hx), (IH ys' eq_refl). reflexivity.
Qed.

Lemma Sorted_map {A B} (R : B -> B -> Prop) (f : A -> B) (l : list A) :
  Sorted (fun a b => R (f a) (f b)) l -> Sorted R (map f l).
Proof.
  induction 1 as [|a l _ IH Hhd]; simpl; constructor; [exact IH|].
  destruct Hhd; simpl; now constructor.
Qed.

(** In a list with distinct keys, the key determines the entry. *)
Lemma NoDup_map_fst_eq {K V} (l : list (K * V)) (x y : K * V) :
  List.NoDup (map fst l) -> In x l -> In y l -> fst x = fst y -> x = y.
Proof.
  induction l as [|a l IH]; simpl; [tauto|].
  intros Hnd Hx Hy Hxy. inversion Hnd as [|? ? Hnotin Hnd']; subst.
  destruct Hx as [<-|Hx], Hy as [<-|Hy]; auto.
  - exfalso. apply Hnotin. rewrite Hxy. now apply in_map.
  - exfalso. apply Hnotin. rewrite <- Hxy. now apply in_map.
Qed.

(** ** Strings *)

Create HintDb lifts.
Create Rewrite HintDb lifts.

Lemma str_eqb_refl (s : string) : String.eqb s s = true.
Proof. apply String.eqb_refl. Qed.

Lemma str_eqb_neq (s t : string) : s <> t -> String.eqb s t = false.
Proof. apply String.eqb_neq. Qed.

Lemma str_append_assoc (a b c : string) : ((a ++ b) ++ c = a ++ (b ++ c))%string.
Proof. induction a as [|x a IH]; simpl; [reflexivity|now rewrite IH]. Qed.

Lemma str_append_nil_r (a : string) : (a ++ "")%string = a.
Proof. induction a as [|x a IH]; simpl; [reflexivity|now rewrite IH]. Qed.

Lemma str_append_cons (c : Ascii.ascii) (a b : string) :
  (String c a ++ b)%string = String c (a ++ b).
Proof. reflexivity. Qed.

Lemma str_length_app (a b : string) :
  String.length (a ++ b) = (String.length a + String.length b)%nat.
Proof. induction a as [|c a IH]; simpl; congruence. Qed.

#[export] Hint Rewrite str_eqb_refl str_append_assoc str_append_nil_r str_length_app : lifts.

(** [case_str] splits on the first string comparison in the goal. *)
Ltac case_str :=
  match goal with
  | |- context [String.eqb ?a ?b] =>
      destruct (String.eqb_spec a b); subst
  end.

(** ** Filters and sorted lists *)

(** ** Comparison of strings by code units *)

(** [String.compare] is a total preorder: the comparator [a < b ? -1 :
    a > b ? 1 : 0] of JS strings, which the display sort may be given. *)
Lemma string_compare_le_trans (a b c : string) :
  String.compare a b <> Gt -> String.compare b c <> Gt -> String.compare a c <> Gt.
Proof.
  revert b c. induction a as [|x a IH]; intros [|y b] [|z c]; simpl; try congruence.
  unfold Ascii.compare.
  destruct (N.compare_spec (N_of_ascii x) (N_of_ascii y)) as [Hxy|Hxy|Hxy]; [|intros _|congruence];
  destruct (N.compare_spec (N_of_ascii y) (N_of_ascii z)) as [Hyz|Hyz|Hyz]; try congruence;
  destruct (N.compare_spec (N_of_ascii x) (N_of_ascii z)) as [Hxz|Hxz|Hxz]; try congruence;
  try (exfalso; lia); [apply IH|..]; congruence.
Qed.

Section Filters.
Context {A : Type}.

Lemma filter_idem (f : A -> bool) (l : list A) :
  filter f (filter f l) = filter f l.
Proof.
  induction l as [|a l IH]; simpl; [reflexivity|].
  destruct (f a) eqn:E; simpl; [rewrite E, IH|]; easy.
Qed.

Lemma filter_all_true (f : A -> bool) (l : list A) :
  Forall (fun a => f a = true) l -> filter f l = l.
Proof.
  induction 1 as [|a l Ha _ IH]; simpl; [reflexivity|].
  now rewrite Ha, IH.
Qed.

Lemma StronglySorted_filter (R : A -> A -> Prop) (f : A -> bool) (l : list A) :
  StronglySorted R l -> StronglySorted R (filter f l).
Proof.
  induction 1 as [|a l _ IH Hall]; simpl; [constructor|].
  destruct (f a); [|exact IH].
  constructor; [exact IH|].
  apply Forall_forall. intros x Hx.
  apply filter_In in Hx as [Hx _].
  exact (proj1 (Forall_forall _ _) Hall x Hx).
Qed.

Lemma StronglySorted_app_l (R : A -> A -> Prop) (l1 l2 : list A) :
  StronglySorted R (l1 ++ l2) -> StronglySorted R l1.
Proof.
  induction l1 as [|a l1 IH]; simpl; intros H; [constructor|].
  apply StronglySorted_inv in H as [H Hall]. constructor; [now apply IH|].
  apply Forall_forall. intros x Hx.
  exact (proj1 (Forall_forall _ _) Hall x (in_or_app _ _ _ (or_introl Hx))).
Qed.

Lemma NoDup_map_filter {B} (g : A -> B) (f : A -> bool) (l : list A) :
  NoDup (map g l) -> NoDup (map g (filter f l)).
Proof.
  induction l as [|a l IH]; simpl; intros Hn; [constructor|].
  inversion Hn as [|? ? Hnot Hn']; subst.
  destruct (f a); simpl; [|auto].
  constructor; [|auto].
  intros Hin. apply Hnot.
  apply in_map_iff in Hin as (x & Hx & Hin).
  apply filter_In in Hin as [Hin _].
  apply in_map_iff. eauto.
Qed.

Lemma map_filter_comp {B} (g : A -> B) (h : B -> bool) (l : list A) :
  map g (filter (fun x => h (g x)) l) = filter h (map g l).
Proof.
  induction l as [|a l IH]; simpl; [reflexivity|].
  destruct (h (g a)); simpl; congruence.
Qed.
End Filters.
