(* ===== verification/JsObject.v ===== *)
(** * JS plain objects: the semantics of the registry's container

    The registry of [App.tsx] is a plain JS object ([Record<string,
    number>]) that the handlers read with [lifts[name]], write with
    [s[name] = max], shrink with [delete s[name]], copy with
    [{ ...s }] and enumerate with [Object.entries].  This file models
    those operations as ECMAScript fixes them for ordinary objects with
    [Object.prototype] as prototype:

    - own properties are an association list in [[OwnPropertyKeys]]
      order: array-index keys ("0" .. "4294967294" in canonical decimal)
      first, ascending, then the other keys in creation order
      ([Object.entries], [JSON.stringify] and spread follow it);
    - [[Get]] of a key without own property finds the members of
      [Object.prototype] ("toString", "constructor", "__proto__", ...);
    - assignment updates an own property in place, creates a missing
      one at its enumeration position, except ['__proto__'], whose
      inherited setter ignores a number;
    - [delete] removes the own property, if any.

    - CreateDataProperty ([define]), as [JSON.parse] and spread define
      properties, for which ['__proto__'] is an ordinary key;
    - [Array.prototype.sort] as a stable insertion sort ([sort_by]).

    The invariant [wf] (keys distinct, enumeration order) is preserved
    by assignment, definition and [delete]; [to_map] abstracts an object
    to a stdpp [gmap], and assignment and deletion refine [insert] and
    [delete].  For a consistent comparator the sort yields the ordered
    permutation of its input, the unique one when the comparator tells
    distinct elements apart. *)

From Stdlib Require Import String Ascii NArith Sorted Permutation.
From stdpp Require Import base gmap strings list sorting.
From S2P Require Import Prelude.

Module JsObject.

(** ** Array indices *)

Definition digit_of (c : ascii) : option N :=
  let n := N_of_ascii c in
  if (48 <=? n)%N && (n <=? 57)%N then Some (n - 48)%N else None.

Fixpoint digits_value (acc : N) (s : string) : option N :=
  match s with
  | EmptyString => Some acc
  | String c s' =>
      match digit_of c with
      | Some d => digits_value (acc * 10 + d)%N s'
      | None => None
      end
  end.

(** A key is an array index when it is the canonical decimal form
    ([ToString(ToUint32(P)) === P]) of a number below [2^32 - 1]. *)
Definition array_index (s : string) : option N :=
  match s with
  | EmptyString => None
  | String c rest =>
      match digit_of c with
      | None => None
      | Some N0 => match rest with EmptyString => Some 0%N | _ => None end
      | Some d =>
          match digits_value d rest with
          | Some n => if (n <? 4294967295)%N then Some n else None
          | None => None
          end
      end
  end.

(** The enumeration order on keys: array indices ascending, before
    every other key; other keys keep their creation order. *)
Definition idx_le (a b : option N) : Prop :=
  match a, b with
  | Some x, Some y => (x <= y)%N
  | Some _, None => True
  | None, None => True
  | None, Some _ => False
  end.

Definition key_le (k1 k2 : string) : Prop :=
  idx_le (array_index k1) (array_index k2).

#[export] Instance key_le_dec : RelDecision key_le.
Proof.
  intros k1 k2. unfold key_le, idx_le.
  destruct (array_index k1), (array_index k2); apply _.
Defined.

(** The members of [Object.prototype]: [[Get]] of one of these names on
    an object without such an own property yields a function (or, for
    ['__proto__'], [Object.prototype] itself), a truthy value. *)
Definition proto_members : list string :=
  ["constructor"; "__defineGetter__"; "__defineSetter__"; "hasOwnProperty";
   "__lookupGetter__"; "__lookupSetter__"; "isPrototypeOf";
   "propertyIsEnumerable"; "toString"; "valueOf"; "__proto__";
   "toLocaleString"]%string.

Definition is_proto_member (k : string) : bool :=
  existsb (String.eqb k) proto_members.

Section WithValue.
Context {V : Type}.

Abbreviation obj := (list (string * V)).

(** ** Operations *)

Fixpoint get (k : string) (o : obj) : option V :=
  match o with
  | [] => None
  | (k', v) :: o' => if String.eqb k k' then Some v else get k o'
  end.

Definition has_own (k : string) (o : obj) : bool :=
  match get k o with Some _ => true | None => false end.

(** The result of [o[k]]: an own value, an inherited member, or
    [undefined]. *)
Inductive prop_read :=
| Own (v : V)
| Inherited
| Absent.

Definition read (k : string) (o : obj) : prop_read :=
  match get k o with
  | Some v => Own v
  | None => if is_proto_member k then Inherited else Absent
  end.

(** Assignment to an existing own property: value replaced in place. *)
Fixpoint update (k : string) (v : V) (o : obj) : obj :=
  match o with
  | [] => []
  | (k', v') :: o' =>
      if String.eqb k k' then (k', v) :: o' else (k', v') :: update k v o'
  end.

(** A new array-index key goes before the first key that is not an
    array index or is a larger one. *)
Fixpoint insert_index (n : N) (k : string) (v : V) (o : obj) : obj :=
  match o with
  | [] => [(k, v)]
  | (k', v') :: o' =>
      match array_index k' with
      | Some n' =>
          if (n <? n')%N then (k, v) :: o
          else (k', v') :: insert_index n k v o'
      | None => (k, v) :: o
      end
  end.

Definition insert_new (k : string) (v : V) (o : obj) : obj :=
  match array_index k with
  | Some n => insert_index n k v o
  | None => o ++ [(k, v)]
  end.

(** [o[k] = v] for a number [v]. *)
Definition set (k : string) (v : V) (o : obj) : obj :=
  if has_own k o then update k v o
  else if String.eqb k "__proto__" then o
  else insert_new k v o.

(** CreateDataProperty(o, k, v), as [JSON.parse] and object spread
    define properties: no setter is involved, so ['__proto__'] becomes
    an own property like any other key. *)
Definition define (k : string) (v : V) (o : obj) : obj :=
  if has_own k o then update k v o else insert_new k v o.

(** [delete o[k]]. *)
Definition delete (k : string) (o : obj) : obj :=
  List.filter (fun p => negb (String.eqb (fst p) k)) o.

(** An object literal [{ k1: v1, ..., kn: vn }] defines its
    properties in order. *)
Definition of_literal (l : list (string * V)) : obj :=
  fold_left (fun o p => set (fst p) (snd p) o) l [].

(** [Object.entries(o)]: the own enumerable string-keyed properties
    as [[key, value]] pairs, in [[OwnPropertyKeys]] order, which is
    the order of the representation. *)
Definition entries (o : obj) : list (string * V) := o.

(** The invariant: distinct keys, in enumeration order. *)
Definition wf (o : obj) : Prop :=
  List.NoDup (map fst o) /\ StronglySorted key_le (map fst o).

(** The abstraction into a finite map; the first binding of a key
    wins, as [get] does. *)
Fixpoint to_map (o : obj) : gmap string V :=
  match o with
  | [] => ∅
  | (k, v) :: o' => <[k := v]> (to_map o')
  end.
End WithValue.

Arguments prop_read : clear implicits.

(** ** [Array.prototype.sort] with a comparator *)

(** The sort is stable (ECMAScript 2019): each element is inserted
    after the elements already placed that it does not precede. *)
Section ArraySort.
Context {A : Type} (cmp : A -> A -> comparison).

Fixpoint insert_sorted (x : A) (l : list A) : list A :=
  match l with
  | [] => [x]
  | y :: l' =>
      match cmp x y with
      | Lt => x :: l
      | _ => y :: insert_sorted x l'
      end
  end.

Definition sort_by (l : list A) : list A :=
  fold_left (fun acc x => insert_sorted x acc) l [].

Lemma insert_sorted_perm x l : Permutation (insert_sorted x l) (x :: l).
Proof.
  induction l as [|y l IH]; simpl; [reflexivity|].
  destruct (cmp x y); try reflexivity; rewrite IH; apply perm_swap.
Qed.

Lemma sort_by_perm l : Permutation (sort_by l) l.
Proof.
  unfold sort_by. rewrite <- (app_nil_r l) at 2.
  generalize (@nil A) as acc.
  induction l as [|x l IH]; intros acc; simpl; [reflexivity|].
  rewrite IH, insert_sorted_perm. symmetry. apply Permutation_middle.
Qed.

(** The order the comparator describes: [a] may come before [b]. *)
Definition cmp_le (a b : A) : Prop := cmp a b <> Gt.

(** A consistent comparator, as [Array.prototype.sort] requires for a
    defined result: swapping its arguments swaps the outcome. *)
Hypothesis cmp_antisym : forall a b, cmp a b = CompOpp (cmp b a).

Lemma insert_sorted_head x y l :
  cmp_le y x -> Sorted cmp_le (y :: l) -> HdRel cmp_le y (insert_sorted x l).
Proof.
  intros Hyx Hs. destruct l as [|z l]; simpl; [now constructor|].
  assert (Hyz : cmp_le y z) by (inversion Hs as [|? ? _ Hhd]; now inversion Hhd).
  destruct (cmp x z); constructor; assumption.
Qed.

Lemma insert_sorted_sorted x l : Sorted cmp_le l -> Sorted cmp_le (insert_sorted x l).
Proof.
  induction l as [|y l IH]; intros Hs; simpl; [repeat constructor|].
  destruct (cmp x y) eqn:Hxy.
  - constructor; [exact (IH (proj1 (Sorted_inv Hs)))|]. apply insert_sorted_head; [|exact Hs].
    unfold cmp_le. rewrite cmp_antisym, Hxy. discriminate.
  - constructor; [exact Hs|]. constructor. unfold cmp_le. now rewrite Hxy.
  - constructor; [exact (IH (proj1 (Sorted_inv Hs)))|]. apply insert_sorted_head; [|exact Hs].
    unfold cmp_le. rewrite cmp_antisym, Hxy. discriminate.
Qed.

(** The sort yields an ordered permutation. *)
Lemma sort_by_sorted l : Sorted cmp_le (sort_by l).
Proof.
  unfold sort_by. assert (Hnil : Sorted cmp_le (@nil A)) by constructor.
  revert Hnil. generalize (@nil A) as acc.
  induction l as [|x l IH]; intros acc Hacc; simpl; [exact Hacc|].
  apply IH, insert_sorted_sorted, Hacc.
Qed.

Hypothesis cmp_le_trans : forall a b c, cmp_le a b -> cmp_le b c -> cmp_le a c.

(** With a total preorder, the sorted permutation is unique as soon as
    elements the comparator finds equal are equal: the result of the
    sort does not depend on the order of its input. *)
Lemma sort_by_perm_eq l1 l2 :
  Permutation l1 l2 ->
  (forall x y, In x l1 -> In y l1 -> cmp x y = Eq -> x = y) ->
  sort_by l1 = sort_by l2.
Proof.
  intros Hp Heq. assert (Htr : Transitive cmp_le) by (intros a b c; apply cmp_le_trans).
  apply (Sorted_unique_strong cmp_le); [|apply sort_by_sorted|apply sort_by_sorted|].
  - intros x1 x2 H1 H2 H12 H21. apply list_elem_of_In in H1, H2.
    apply Heq.
    + exact (Permutation_in _ (sort_by_perm l1) H1).
    + apply (Permutation_in _ (sort_by_perm l2)) in H2. now apply (Permutation_in _ (Permutation_sym Hp)).
    + unfold cmp_le in *. rewrite cmp_antisym in H21. destruct (cmp x1 x2); simpl in *; congruence.
  - rewrite (sort_by_perm l1), (sort_by_perm l2). exact Hp.
Qed.
End ArraySort.

(** ** Decidability of the invariant *)

#[export] Instance StronglySorted_dec {A} (R : A -> A -> Prop)
  `{!RelDecision R} : forall l, Decision (StronglySorted R l).
Proof.
  induction l as [|a l IH].
  - left. constructor.
  - destruct IH as [Hl|Hl]; [|right; intros H; apply Hl, (StronglySorted_inv H)].
    destruct (decide (Forall (R a) l)) as [Ha|Ha].
    + left. now constructor.
    + right. intros H. apply Ha, (StronglySorted_inv H).
Defined.

#[export] Instance list_NoDup_dec {A} `{!EqDecision A} (l : list A) :
  Decision (List.NoDup l).
Proof.
  destruct (decide (NoDup l)) as [H|H]; [left|right];
    rewrite <- NoDup_ListNoDup; exact H.
Defined.

#[export] Instance wf_dec {V} (o : list (string * V)) : Decision (wf o).
Proof. unfold wf. apply _. Defined.

(** Well-formedness of a concrete object by evaluation. *)
Lemma wf_check {V} (o : list (string * V)) : bool_decide (wf o) = true -> wf o.
Proof. apply bool_decide_eq_true. Qed.

(** ** The enumeration order *)

Lemma key_le_trans k1 k2 k3 : key_le k1 k2 -> key_le k2 k3 -> key_le k1 k3.
Proof.
  unfold key_le, idx_le.
  destruct (array_index k1), (array_index k2), (array_index k3); try easy; lia.
Qed.

Lemma key_le_to_plain k1 k2 : array_index k2 = None -> key_le k1 k2.
Proof. unfold key_le, idx_le. intros ->. now destruct (array_index k1). Qed.

Lemma Forall_key_le_trans k1 k2 ks :
  key_le k1 k2 -> Forall (key_le k2) ks -> Forall (key_le k1) ks.
Proof.
  intros H12 Hall. eapply Forall_impl; [exact Hall|].
  intros k3. apply key_le_trans, H12.
Qed.

Section Lemmas.
Context {V : Type}.
Implicit Types (o : list (string * V)) (k : string) (v : V).

(** ** Lookups after each operation *)

Lemma get_None_not_in k o : get k o = None <-> ~ In k (map fst o).
Proof.
  induction o as [|[k' v'] o IH]; simpl; [tauto|].
  case_str; [split; [discriminate|tauto]|].
  rewrite IH. split; [intros H [->|Hin]; auto|tauto].
Qed.

Lemma get_update k k' v o :
  get k' (update k v o) =
  if String.eqb k' k then (if has_own k o then Some v else None) else get k' o.
Proof.
  unfold has_own.
  induction o as [|[k1 v1] o IH]; simpl; [now case_str|].
  destruct (String.eqb_spec k k1) as [<-|Hne]; simpl.
  - now case_str; autorewrite with lifts.
  - rewrite IH. now repeat case_str.
Qed.

Lemma map_fst_update k v o : map fst (update k v o) = map fst o.
Proof.
  induction o as [|[k1 v1] o IH]; simpl; [reflexivity|].
  case_str; simpl; congruence.
Qed.

Lemma get_insert_index n k k' v o :
  get k o = None ->
  get k' (insert_index n k v o) = if String.eqb k' k then Some v else get k' o.
Proof.
  induction o as [|[k1 v1] o IH]; simpl; intros Hk; [now case_str|].
  destruct (String.eqb k k1) eqn:E1; [discriminate|].
  destruct (array_index k1) as [n1|]; [destruct (n <? n1)%N|]; simpl;
    try reflexivity.
  rewrite IH by exact Hk.
  destruct (String.eqb_spec k' k1), (String.eqb_spec k' k); subst;
    rewrite ?str_eqb_refl in E1; congruence.
Qed.

Lemma get_app_single k k' v o :
  get k' (o ++ [(k, v)]) =
  match get k' o with Some x => Some x | None => if String.eqb k' k then Some v else None end.
Proof.
  induction o as [|[k1 v1] o IH]; simpl; [now case_str|].
  now destruct (String.eqb k' k1).
Qed.

Lemma get_insert_new k k' v o :
  get k o = None ->
  get k' (insert_new k v o) = if String.eqb k' k then Some v else get k' o.
Proof.
  unfold insert_new. intros Hk.
  destruct (array_index k); [now apply get_insert_index|].
  rewrite get_app_single.
  destruct (String.eqb_spec k' k) as [->|]; [now rewrite Hk|].
  now destruct (get k' o).
Qed.

(** [o[k] = v] binds [k] to [v], unless [k] is ['__proto__'] without
    an own property. *)
Lemma get_set k k' v o :
  get k' (set k v o) =
  if String.eqb k' k && (has_own k o || negb (String.eqb k "__proto__"))
  then Some v else get k' o.
Proof.
  unfold set.
  destruct (has_own k o) eqn:Hown; simpl.
  - rewrite get_update, Hown. now rewrite andb_true_r.
  - unfold has_own in Hown. destruct (get k o) eqn:Hk; [discriminate|].
    destruct (String.eqb_spec k "__proto__") as [->|Hp]; simpl.
    + rewrite andb_false_r. reflexivity.
    + rewrite andb_true_r. now apply get_insert_new.
Qed.

Lemma get_delete k k' o :
  get k' (delete k o) = if String.eqb k' k then None else get k' o.
Proof.
  unfold delete.
  induction o as [|[k1 v1] o IH]; [simpl; now case_str|].
  cbn [List.filter fst]. destruct (String.eqb_spec k1 k) as [->|Hne]; cbn [negb get];
    rewrite IH; now repeat case_str.
Qed.

(** ** The invariant *)

Lemma insert_index_perm n k v o :
  Permutation (insert_index n k v o) ((k, v) :: o).
Proof.
  induction o as [|[k1 v1] o IH]; simpl; [reflexivity|].
  destruct (array_index k1); [destruct (n <? _)%N|]; try reflexivity.
  rewrite IH. apply perm_swap.
Qed.

Lemma insert_new_perm k v o : Permutation (insert_new k v o) ((k, v) :: o).
Proof.
  unfold insert_new. destruct (array_index k); [apply insert_index_perm|].
  rewrite Permutation_app_comm. reflexivity.
Qed.

Lemma Forall_update (P : V -> Prop) k v o :
  Forall (fun p => P (snd p)) o -> P v -> Forall (fun p => P (snd p)) (update k v o).
Proof.
  intros Ho Hv. induction Ho as [|[k' v'] o' Hp Ho IH]; simpl; [constructor|].
  destruct (String.eqb k k'); constructor; auto.
Qed.

(** The values of [define k v o] are those of [o] and [v]. *)
Lemma Forall_define (P : V -> Prop) k v o :
  Forall (fun p => P (snd p)) o -> P v -> Forall (fun p => P (snd p)) (define k v o).
Proof.
  intros Ho Hv. unfold define. destruct (has_own k o); [now apply Forall_update|].
  eapply Permutation_Forall; [exact (Permutation_sym (insert_new_perm k v o))|].
  now constructor.
Qed.

(** The values of [set k v o] are those of [o] and [v]. *)
Lemma Forall_set (P : V -> Prop) k v o :
  Forall (fun p => P (snd p)) o -> P v -> Forall (fun p => P (snd p)) (set k v o).
Proof.
  intros Ho Hv. unfold set. destruct (has_own k o); [now apply Forall_update|].
  destruct (String.eqb k "__proto__"); [exact Ho|].
  eapply Permutation_Forall; [exact (Permutation_sym (insert_new_perm k v o))|].
  now constructor.
Qed.

Lemma insert_index_sorted n k v o :
  array_index k = Some n ->
  StronglySorted key_le (map fst o) ->
  StronglySorted key_le (map fst (insert_index n k v o)).
Proof.
  intros Hn. induction o as [|[k1 v1] o IH]; simpl; intros Hs.
  - repeat constructor.
  - apply StronglySorted_inv in Hs as [Hs Hall].
    destruct (array_index k1) as [n1|] eqn:Hk1; [destruct (N.ltb_spec n n1)|].
    + assert (key_le k k1) by (unfold key_le; rewrite Hn, Hk1; simpl; lia).
      constructor; [now constructor|].
      constructor; [assumption|]. eapply Forall_key_le_trans; eauto.
    + constructor; [now apply IH|].
      assert (Hperm := insert_index_perm n k v o).
      apply (Permutation_map fst) in Hperm.
      eapply Permutation_Forall; [symmetry; exact Hperm|].
      constructor; [|exact Hall].
      simpl. unfold key_le. rewrite Hn, Hk1. simpl. lia.
    + simpl. constructor; [now constructor|].
      constructor; [now apply key_le_to_plain|].
      apply (Forall_key_le_trans _ k1); [now apply key_le_to_plain|exact Hall].
Qed.

Lemma StronglySorted_snoc (ks : list string) k :
  StronglySorted key_le ks -> array_index k = None ->
  StronglySorted key_le (ks ++ [k]).
Proof.
  induction 1 as [|k1 ks _ IH Hall]; simpl; intros Hk.
  - repeat constructor.
  - constructor; [now apply IH|].
    apply Forall_app. split; [exact Hall|].
    constructor; [now apply key_le_to_plain|constructor].
Qed.

Lemma wf_insert_new k v o :
  wf o -> get k o = None -> wf (insert_new k v o).
Proof.
  intros [Hnd Hs] Hk. split.
  - rewrite (Permutation_map fst (insert_new_perm k v o)). simpl.
    constructor; [now apply get_None_not_in|exact Hnd].
  - unfold insert_new. destruct (array_index k) eqn:Hi.
    + now apply insert_index_sorted.
    + rewrite map_app. simpl. now apply StronglySorted_snoc.
Qed.

Lemma wf_update k v o : wf o -> wf (update k v o).
Proof. unfold wf. now rewrite map_fst_update. Qed.

Lemma wf_set k v o : wf o -> wf (set k v o).
Proof.
  intros Hwf. unfold set, has_own.
  destruct (get k o) eqn:Hk; [now apply wf_update|].
  destruct (String.eqb k "__proto__"); [exact Hwf|].
  now apply wf_insert_new.
Qed.

Lemma wf_delete k o : wf o -> wf (delete k o).
Proof.
  intros [Hnd Hs]. unfold delete. split.
  - now apply NoDup_map_filter.
  - rewrite (map_filter_comp fst (fun k' => negb (String.eqb k' k))).
    apply StronglySorted_filter, Hs.
Qed.

Lemma wf_nil : wf (@nil (string * V)).
Proof. split; constructor. Qed.

Lemma wf_of_literal (l : list (string * V)) : wf (of_literal l).
Proof.
  unfold of_literal. generalize (@nil (string * V)), wf_nil.
  induction l as [|[k v] l IH]; simpl; intros o Ho; [exact Ho|].
  apply IH, wf_set, Ho.
Qed.

(** ** Definition of properties *)

Lemma get_define k k' v o :
  get k' (define k v o) = if String.eqb k' k then Some v else get k' o.
Proof.
  unfold define, has_own. destruct (get k o) eqn:Hk.
  - rewrite get_update. unfold has_own. rewrite Hk. reflexivity.
  - now apply get_insert_new.
Qed.

Lemma wf_define k v o : wf o -> wf (define k v o).
Proof.
  intros Hwf. unfold define, has_own.
  destruct (get k o) eqn:Hk; [now apply wf_update|now apply wf_insert_new].
Qed.

(** A new key that comes after every key of [o] in the enumeration
    order is appended. *)
Lemma insert_index_last n k v o :
  array_index k = Some n ->
  Forall (fun k' => key_le k' k) (map fst o) ->
  insert_index n k v o = o ++ [(k, v)].
Proof.
  intros Hn. induction o as [|[k1 v1] o IH]; simpl; intros Hall; [reflexivity|].
  inversion Hall as [|? ? H1 Hrest]; subst.
  unfold key_le in H1. rewrite Hn in H1.
  destruct (array_index k1) as [n1|]; [|contradiction].
  simpl in H1. destruct (N.ltb_spec n n1); [lia|]. now rewrite IH.
Qed.

Lemma insert_new_last k v o :
  Forall (fun k' => key_le k' k) (map fst o) -> insert_new k v o = o ++ [(k, v)].
Proof.
  unfold insert_new. destruct (array_index k) eqn:Hk; [|reflexivity].
  now apply insert_index_last.
Qed.

(** Defining the properties of a well-formed object one by one, in
    its enumeration order, rebuilds it. *)
Lemma fold_define_wf (o : list (string * V)) :
  wf o -> fold_left (fun acc p => define (fst p) (snd p) acc) o [] = o.
Proof.
  induction o as [|[k v] o IH] using rev_ind; simpl; intros Hwf; [reflexivity|].
  rewrite fold_left_app. simpl.
  destruct Hwf as [Hnd Hs]. rewrite map_app in Hnd, Hs. simpl in Hnd, Hs.
  apply NoDup_remove in Hnd as [Hnd Hk]. rewrite app_nil_r in Hnd.
  assert (Hs' := StronglySorted_app_l _ _ _ Hs). rewrite IH by (split; assumption).
  unfold define, has_own.
  assert (Hg : get k o = None) by (apply get_None_not_in; rewrite app_nil_r in Hk; exact Hk).
  rewrite Hg. apply insert_new_last.
  clear - Hs. induction (map fst o) as [|k' ks IHks]; simpl in *; [constructor|].
  apply StronglySorted_inv in Hs as [Hs Hall]. constructor; [|now apply IHks].
  apply Forall_app in Hall as [_ Hk]. now inversion Hk.
Qed.

(** ** Deletion *)

Lemma delete_idem k o : delete k (delete k o) = delete k o.
Proof. apply filter_idem. Qed.

Lemma delete_absent k o : get k o = None -> delete k o = o.
Proof.
  intros Hk. apply get_None_not_in in Hk.
  apply filter_all_true, Forall_forall. intros [k' v'] Hin. simpl.
  destruct (String.eqb_spec k' k) as [->|]; [|reflexivity].
  exfalso. apply Hk, in_map_iff. exists (k, v'). split; [reflexivity|now apply list_elem_of_In].
Qed.

(** ** Refinement of finite maps *)

Lemma lookup_to_map k o : to_map o !! k = get k o.
Proof.
  induction o as [|[k' v'] o IH]; simpl; [apply lookup_empty|].
  destruct (String.eqb_spec k k') as [->|Hne].
  - apply lookup_insert_eq.
  - rewrite lookup_insert_ne; [exact IH|congruence].
Qed.

Lemma to_map_eq o1 o2 :
  (forall k, get k o1 = get k o2) -> to_map o1 = to_map o2.
Proof. intros H. apply map_eq. intros k. now rewrite !lookup_to_map. Qed.

(** Assignment acts on the abstraction as [insert], except for
    ['__proto__'] without an own property, where it does nothing. *)
Lemma set_refines k v o :
  has_own k o = true \/ k <> "__proto__"%string ->
  to_map (set k v o) = <[k := v]> (to_map o).
Proof.
  intros Hk. apply map_eq. intros k'.
  rewrite lookup_to_map, get_set.
  destruct (String.eqb_spec k' k) as [->|Hne].
  - rewrite lookup_insert_eq.
    destruct Hk as [->|Hk]; [reflexivity|].
    now rewrite (str_eqb_neq _ _ Hk), orb_true_r.
  - rewrite lookup_insert_ne, lookup_to_map by congruence. reflexivity.
Qed.

Lemma set_proto_noop v o :
  has_own "__proto__" o = false -> set "__proto__" v o = o.
Proof. unfold set. now intros ->. Qed.

Lemma delete_refines k o :
  to_map (delete k o) = stdpp.base.delete k (to_map o).
Proof.
  apply map_eq. intros k'.
  rewrite lookup_to_map, get_delete.
  destruct (String.eqb_spec k' k) as [->|Hne].
  - now rewrite lookup_delete_eq.
  - rewrite lookup_delete_ne, lookup_to_map by congruence. reflexivity.
Qed.

(** ** Objects with the same bindings *)

(** Two objects are equivalent when they have the same own bindings,
    whatever their enumeration order.  Every read and every mutation
    of the handlers respects it. *)
Definition equiv (o1 o2 : list (string * V)) : Prop := to_map o1 = to_map o2.

#[export] Instance equiv_equivalence : Equivalence equiv.
Proof. unfold equiv. split; [now intros ?|now intros ??|]. intros ??? -> ->. reflexivity. Qed.

Lemma equiv_get o1 o2 : equiv o1 o2 -> forall k, get k o1 = get k o2.
Proof. unfold equiv. intros H k. now rewrite <- !lookup_to_map, H. Qed.

#[export] Instance get_proper : Proper (eq ==> equiv ==> eq) get.
Proof. intros k ? <- o1 o2 H. now apply equiv_get. Qed.

#[export] Instance read_proper : Proper (eq ==> equiv ==> eq) read.
Proof. intros k ? <- o1 o2 H. unfold read. now rewrite H. Qed.

#[export] Instance has_own_proper : Proper (eq ==> equiv ==> eq) has_own.
Proof. intros k ? <- o1 o2 H. unfold has_own. now rewrite H. Qed.

#[export] Instance set_proper : Proper (eq ==> eq ==> equiv ==> equiv) set.
Proof.
  intros k ? <- v ? <- o1 o2 H. apply to_map_eq. intros k'.
  rewrite !get_set. unfold has_own.
  now rewrite (equiv_get _ _ H k), (equiv_get _ _ H k').
Qed.

#[export] Instance delete_proper : Proper (eq ==> equiv ==> equiv) delete.
Proof.
  intros k ? <- o1 o2 H. apply to_map_eq. intros k'.
  rewrite !get_delete. now rewrite (equiv_get _ _ H k').
Qed.
End Lemmas.

(** ** Objects whose values are mapped *)

Section MapValues.
Context {V W : Type} (f : V -> W).

Definition map_vals (o : list (string * V)) : list (string * W) :=
  map (fun p => (fst p, f (snd p))) o.

Lemma map_fst_map_vals o : map fst (map_vals o) = map fst o.
Proof. unfold map_vals. rewrite map_map. reflexivity. Qed.

Lemma get_map_vals k o : get k (map_vals o) = option_map f (get k o).
Proof. induction o as [|[k' v'] o IH]; simpl; [reflexivity|]. now case_str. Qed.

Lemma update_map_vals k v o : update k (f v) (map_vals o) = map_vals (update k v o).
Proof. induction o as [|[k' v'] o IH]; simpl; [reflexivity|]. case_str; simpl; now rewrite ?IH. Qed.

Lemma insert_index_map_vals n k v o :
  insert_index n k (f v) (map_vals o) = map_vals (insert_index n k v o).
Proof.
  induction o as [|[k' v'] o IH]; simpl; [reflexivity|].
  destruct (array_index k'); [|reflexivity].
  destruct (n <? _)%N; simpl; now rewrite ?IH.
Qed.

(** CreateDataProperty commutes with a map on the values. *)
Lemma define_map_vals k v o : define k (f v) (map_vals o) = map_vals (define k v o).
Proof.
  unfold define, has_own. rewrite get_map_vals.
  destruct (get k o); simpl; [apply update_map_vals|].
  unfold insert_new. destruct (array_index k); [apply insert_index_map_vals|].
  unfold map_vals. rewrite map_app. reflexivity.
Qed.
End MapValues.

End JsObject.

#[export] Hint Resolve JsObject.wf_set JsObject.wf_delete JsObject.wf_nil
  JsObject.wf_of_literal : lifts.
#[export] Hint Rewrite @JsObject.get_set @JsObject.get_delete
  @JsObject.lookup_to_map : lifts.

(** ** Properties of the object model *)

Section ObjectProperties.
Context {V : Type}.

(** Assignment keeps the enumeration order: an existing key is
    updated in place, and a new key that is not an array index (nor
    ['__proto__']) is appended after all the others, so
    [Object.entries] and [JSON.stringify] list keys in creation
    order. *)
Theorem set_enumeration_order (k : string) (v : V) (o : list (string * V)) :
  (JsObject.has_own k o = true -> map fst (JsObject.set k v o) = map fst o) /\
  (JsObject.get k o = None -> JsObject.array_index k = None -> k <> "__proto__"%string ->
   JsObject.set k v o = o ++ [(k, v)]).
Proof.
  unfold JsObject.set. split.
  - intros ->. apply JsObject.map_fst_update.
  - intros Hk Hi Hp. unfold JsObject.has_own, JsObject.insert_new.
    now rewrite Hk, (str_eqb_neq _ _ Hp), Hi.
Qed.
End ObjectProperties.

(** The own keys of an object literal are enumerated array indices
    first, in ascending order, then the other keys in creation order; a
    repeated key keeps its first position and its last value, and
    ['__proto__'] with a number creates no property. *)
Example of_literal_key_order :
  JsObject.of_literal
    [("b", 1); ("10", 2); ("a", 3); ("2", 4); ("__proto__", 5); ("b", 6)]%string =
  [("2", 4); ("10", 2); ("b", 6); ("a", 3)]%string.
Proof. vm_compute. reflexivity. Qed.

Lemma set_enumeration_order_witness :
  (JsObject.has_own "Squat" [("Squat", 240)]%string = true ->
   map fst (JsObject.set "Squat" 250 [("Squat", 240)]%string) = map fst [("Squat", 240)]%string) /\
  JsObject.get "Dips" [("Squat", 240)]%string = None /\
  JsObject.array_index "Dips" = None /\ "Dips"%string <> "__proto__"%string /\
  JsObject.set "Dips" 90 [("Squat", 240)]%string = [("Squat", 240)]%string ++ [("Dips", 90)]%string.
Proof.
  assert (H1 : JsObject.get "Dips" [("Squat", 240)]%string = None) by reflexivity.
  assert (H2 : JsObject.array_index "Dips" = None) by reflexivity.
  assert (H3 : "Dips"%string <> "__proto__"%string) by discriminate.
  split; [exact (proj1 (set_enumeration_order "Squat" 250 [("Squat", 240)]%string))|].
  split; [exact H1|split; [exact H2|split; [exact H3|]]].
  exact (proj2 (set_enumeration_order "Dips" 90 [("Squat", 240)]%string) H1 H2 H3).
Defined.
