(* ===== verification/Json.v ===== *)
(** * [JSON.stringify] and [JSON.parse] on the registry

    The registry is persisted as [JSON.stringify(lifts)] and read back
    with [JSON.parse] (App.tsx, lines 36 and 43).  For a plain object
    whose values are numbers, [JSON.stringify] writes
    [{"k1":n1,"k2":n2,...}] in [[OwnPropertyKeys]] order, quoting each
    key with the escapes of QuoteJSONString, and [Number::toString] for
    each value.  [JSON.parse] accepts the JSON grammar and builds the
    object with CreateDataProperty, so a repeated key keeps its first
    position and its last value, and a ['__proto__'] key becomes an own
    property.  [Json.parse] is the fragment of [JSON.parse] on objects
    of numbers; [JsonValue.parse] reads every JSON value and agrees
    with it ([JsonValue.parse_registry]).

    Characters are the 8-bit [ascii] of the Standard Library, read as
    UTF-16 code units below 256; a [\uXXXX] escape above 255 is outside
    the model and is refused by the parser.  Numbers are exact
    rationals; the printer is [Number::toString] on the decimals with at
    most six fractional digits and magnitude below [10^9] (at most 15
    significant digits, where the double nearest to the decimal prints
    as that decimal), the parser reads every JSON number exactly.

    Theorems: the string escaping round trip, the number round trip on
    the printer's domain, and the object round trip
    [JSON.parse(JSON.stringify(o))] = [o] (values up to the canonical
    form of rationals); the member loop, bounded by the length of its
    input, never runs out of fuel. *)

From Stdlib Require Import String Ascii NArith ZArith QArith List Lia.
From S2P Require Import Prelude JsObject.
Import ListNotations.

Module Json.

Local Open Scope string_scope.

(** ** Characters *)

Definition dq : ascii := ascii_of_nat 34.   (* the quotation mark *)
Definition bs : ascii := ascii_of_nat 92.   (* the reverse solidus *)

Definition hex_digit (n : N) : ascii :=
  if (n <? 10)%N then ascii_of_N (48 + n) else ascii_of_N (87 + n).

Definition hex_value (c : ascii) : option N :=
  let n := N_of_ascii c in
  if (48 <=? n)%N && (n <=? 57)%N then Some (n - 48)%N
  else if (97 <=? n)%N && (n <=? 102)%N then Some (n - 87)%N
  else if (65 <=? n)%N && (n <=? 70)%N then Some (n - 55)%N
  else None.

(** ** QuoteJSONString *)

(** The escape of one code unit: the two-character escapes of the
    table, [\u00xx] (lower-case hex) for the other control characters,
    the character itself otherwise. *)
Definition quote_char (c : ascii) : string :=
  let n := N_of_ascii c in
  if (n =? 8)%N then String bs (String "b" EmptyString)
  else if (n =? 9)%N then String bs (String "t" EmptyString)
  else if (n =? 10)%N then String bs (String "n" EmptyString)
  else if (n =? 12)%N then String bs (String "f" EmptyString)
  else if (n =? 13)%N then String bs (String "r" EmptyString)
  else if (n =? 34)%N then String bs (String dq EmptyString)
  else if (n =? 92)%N then String bs (String bs EmptyString)
  else if (n <? 32)%N then
    String bs (String "u" (String "0" (String "0"
      (String (hex_digit (n / 16)) (String (hex_digit (n mod 16)) EmptyString)))))
  else String c EmptyString.

Fixpoint quote_body (s : string) : string :=
  match s with
  | EmptyString => EmptyString
  | String c s' => quote_char c ++ quote_body s'
  end.

Definition quote (s : string) : string := String dq (quote_body s ++ String dq EmptyString).

(** ** Parsing a string literal *)

(** The character denoted by a one-character escape. *)
Definition simple_escape (e : ascii) : option ascii :=
  let n := N_of_ascii e in
  if (n =? 34)%N then Some dq
  else if (n =? 92)%N then Some bs
  else if (n =? 47)%N then Some "/"%char
  else if (n =? 98)%N then Some (ascii_of_nat 8)
  else if (n =? 102)%N then Some (ascii_of_nat 12)
  else if (n =? 110)%N then Some (ascii_of_nat 10)
  else if (n =? 114)%N then Some (ascii_of_nat 13)
  else if (n =? 116)%N then Some (ascii_of_nat 9)
  else None.

Definition hex4 (h1 h2 h3 h4 : ascii) : option N :=
  match hex_value h1, hex_value h2, hex_value h3, hex_value h4 with
  | Some a, Some b, Some c, Some d => Some (((a * 16 + b) * 16 + c) * 16 + d)%N
  | _, _, _, _ => None
  end.

Definition prepend (c : ascii) (r : string * string) : string * string :=
  (String c (fst r), snd r).

(** The body of a string literal, after the opening quote: the string
    denoted and the input after the closing quote. *)
Fixpoint parse_str_body (s : string) : option (string * string) :=
  match s with
  | EmptyString => None
  | String c s' =>
      if Ascii.eqb c dq then Some (EmptyString, s')
      else if Ascii.eqb c bs then
        match s' with
        | EmptyString => None
        | String e s'' =>
            match simple_escape e with
            | Some d => option_map (prepend d) (parse_str_body s'')
            | None =>
                if Ascii.eqb e "u"%char then
                  match s'' with
                  | String h1 (String h2 (String h3 (String h4 s3))) =>
                      match hex4 h1 h2 h3 h4 with
                      | Some n =>
                          if (n <? 256)%N
                          then option_map (prepend (ascii_of_N n)) (parse_str_body s3)
                          else None
                      | None => None
                      end
                  | _ => None
                  end
                else None
            end
        end
      else if (N_of_ascii c <? 32)%N then None
      else option_map (prepend c) (parse_str_body s')
  end.

(** ** Whitespace and punctuation *)

Definition is_ws (c : ascii) : bool :=
  let n := N_of_ascii c in (n =? 32)%N || (n =? 9)%N || (n =? 10)%N || (n =? 13)%N.

Fixpoint skip_ws (s : string) : string :=
  match s with
  | String c s' => if is_ws c then skip_ws s' else s
  | EmptyString => EmptyString
  end.

(** [expect c s]: [s] after the character [c]. *)
Definition expect (c : ascii) (s : string) : option string :=
  match s with
  | String c' s' => if Ascii.eqb c' c then Some s' else None
  | EmptyString => None
  end.

(** ** Numbers: the interface the object codec relies on *)

(** [num_print] is [Number::toString] on the values [num_dom]
    describes; [num_parse] reads a JSON number at the head of its input
    and returns its value and the rest.  The law: a printed number is
    read back, in canonical form, whenever what follows it ends a
    number ([num_end]); a printed number is never empty and starts with no
    whitespace; what the reader leaves is shorter than its input (it
    reads at least one character); a number starts with a minus sign or a digit. *)
Definition num_start (c : ascii) : bool :=
  Ascii.eqb c "-" || ((48 <=? N_of_ascii c)%N && (N_of_ascii c <=? 57)%N).

(** What may follow a number in a JSON text: the end, a comma, a
    closing brace or a closing bracket. *)
Definition num_end (t : string) : bool :=
  match t with
  | EmptyString => true
  | String c _ => Ascii.eqb c "," || Ascii.eqb c "}" || Ascii.eqb c "]"
  end.

Class NumberCodec := {
  num_dom : Q -> Prop;
  num_print : Q -> string;
  num_parse : string -> option (Q * string);
  num_parse_print : forall q t,
    num_dom q -> num_end t = true -> num_parse (num_print q ++ t) = Some (Qred q, t);
  num_print_head : forall q, num_dom q ->
    exists c t, num_print q = String c t /\ is_ws c = false;
  num_parse_suffix : forall s q r,
    num_parse s = Some (q, r) -> (String.length r < String.length s)%nat;
  num_parse_head : forall s q r,
    num_parse s = Some (q, r) -> exists c t, s = String c t /\ num_start c = true
}.

Section Codec.
Context `{NumberCodec}.

(** ** [JSON.stringify] of a registry *)

Definition member_text (p : string * Q) : string :=
  quote (fst p) ++ String ":" (num_print (snd p)).

Fixpoint members_text (o : list (string * Q)) : string :=
  match o with
  | [] => EmptyString
  | [p] => member_text p
  | p :: o' => member_text p ++ String "," (members_text o')
  end.

Definition stringify (o : list (string * Q)) : string :=
  String "{" (members_text o ++ String "}" EmptyString).

(** ** [JSON.parse] of a registry *)

(** One member ["k":n] and what follows it. *)
Definition parse_member (s : string) : option (string * Q * string) :=
  match expect dq (skip_ws s) with
  | None => None
  | Some s1 =>
      match parse_str_body s1 with
      | None => None
      | Some (k, s2) =>
          match expect ":" (skip_ws s2) with
          | None => None
          | Some s3 =>
              match num_parse (skip_ws s3) with
              | None => None
              | Some (v, s4) => Some (k, v, s4)
              end
          end
      end
  end.

(** Members separated by commas up to the closing brace, each defined
    on the object built so far; [fuel] bounds the number of members. *)
Fixpoint parse_members (fuel : nat) (s : string) (acc : list (string * Q))
  : option (list (string * Q) * string) :=
  match fuel with
  | O => None
  | S fuel' =>
      match parse_member s with
      | None => None
      | Some (k, v, s1) =>
          let acc' := JsObject.define k v acc in
          match skip_ws s1 with
          | String c s2 =>
              if Ascii.eqb c "," then parse_members fuel' s2 acc'
              else if Ascii.eqb c "}" then Some (acc', s2)
              else None
          | EmptyString => None
          end
      end
  end.

(** The object after its opening brace, [fuel] bounding the members
    read. *)
Definition parse_object (fuel : nat) (s1 : string) : option (list (string * Q)) :=
  let r :=
    match skip_ws s1 with
    | String c s2 => if Ascii.eqb c "}" then Some ([], s2)
                     else parse_members fuel s1 []
    | EmptyString => None
    end in
  match r with
  | Some (o, rest) => if String.eqb (skip_ws rest) "" then Some o else None
  | None => None
  end.

(** A whole text that is an object of numbers: [None] for a syntax
    error and for a JSON text of another shape.  Every member takes a
    character at least, so the length of the text bounds the loop. *)
Definition parse (text : string) : option (list (string * Q)) :=
  match expect "{" (skip_ws text) with
  | None => None
  | Some s1 => parse_object (String.length s1) s1
  end.
End Codec.

(** ** Round trips *)

(** Values of a registry in canonical form, as [JSON.parse] yields them. *)
Definition canon (o : list (string * Q)) : list (string * Q) :=
  map (fun p => (fst p, Qred (snd p))) o.

Lemma get_canon (k : string) (o : list (string * Q)) :
  JsObject.get k (canon o) = option_map Qred (JsObject.get k o).
Proof. induction o as [|[k' v] o IH]; simpl; [reflexivity|]. now destruct (String.eqb k k'). Qed.

Lemma quote_char_parse (c : ascii) (t : string) :
  parse_str_body (quote_char c ++ t) = option_map (prepend c) (parse_str_body t).
Proof. destruct c as [[] [] [] [] [] [] [] []]; reflexivity. Qed.

Lemma parse_quote_body (s rest : string) :
  parse_str_body (quote_body s ++ String dq rest) = Some (s, rest).
Proof.
  induction s as [|c s IH]; simpl; [reflexivity|].
  rewrite str_append_assoc, quote_char_parse, IH. reflexivity.
Qed.

Lemma skip_ws_head (c : ascii) (t : string) : is_ws c = false -> skip_ws (String c t) = String c t.
Proof. simpl. now intros ->. Qed.

Section CodecLemmas.
Context `{NumberCodec}.

Lemma skip_ws_num (q : Q) (t : string) : num_dom q -> skip_ws (num_print q ++ t) = num_print q ++ t.
Proof.
  intros Hq. destruct (num_print_head q Hq) as (c & u & -> & Hc).
  simpl. now rewrite Hc.
Qed.

Lemma member_text_app (k : string) (v : Q) (t : string) :
  member_text (k, v) ++ t = String dq (quote_body k ++ String dq (String ":" (num_print v ++ t))).
Proof.
  unfold member_text, quote. cbn [fst snd]. rewrite str_append_assoc.
  change (String dq ?A ++ ?B) with (String dq (A ++ B)).
  rewrite str_append_assoc. reflexivity.
Qed.

Lemma parse_member_text (p : string * Q) (c : ascii) (rest : string) :
  num_dom (snd p) -> (c = ","%char \/ c = "}"%char) ->
  parse_member (member_text p ++ String c rest) = Some (fst p, Qred (snd p), String c rest).
Proof.
  intros Hq Hc. destruct p as [k v]. rewrite member_text_app.
  unfold parse_member. simpl. rewrite parse_quote_body. simpl.
  rewrite skip_ws_num by exact Hq.
  rewrite num_parse_print; [reflexivity|exact Hq|now destruct Hc as [-> | ->]].
Qed.

Lemma parse_members_text (o : list (string * Q)) (fuel : nat) (acc : list (string * Q)) (rest : string) :
  o <> [] -> Forall (fun p => num_dom (snd p)) o -> (length o <= fuel)%nat ->
  parse_members fuel (members_text o ++ String "}" rest) acc =
    Some (fold_left (fun a p => JsObject.define (fst p) (snd p) a) (canon o) acc, rest).
Proof.
  revert fuel acc. induction o as [|p o IH]; intros fuel acc Hne Hall Hf; [easy|].
  inversion Hall as [|? ? Hp Hrest]; subst.
  destruct fuel as [|fuel]; simpl in Hf; [lia|].
  destruct o as [|p' o'].
  - change (members_text [p]) with (member_text p).
    cbn [parse_members]. rewrite parse_member_text by (auto; now right).
    reflexivity.
  - change (members_text (p :: p' :: o')) with
      (member_text p ++ String "," (members_text (p' :: o'))).
    cbn [parse_members]. rewrite str_append_assoc.
    change (String "," ?A ++ ?B) with (String "," (A ++ B)).
    rewrite parse_member_text by (auto; now left). cbn -[parse_members].
    apply IH; [discriminate|exact Hrest|lia].
Qed.

Lemma length_members_text (o : list (string * Q)) :
  (length o <= String.length (members_text o))%nat.
Proof.
  assert (Hm : forall p, (1 <= String.length (member_text p))%nat).
  { intros [k v]. unfold member_text, quote. simpl. lia. }
  induction o as [|p [|p' o'] IH]; [simpl; lia|simpl; specialize (Hm p); lia|].
  change (members_text (p :: p' :: o')) with (member_text p ++ String "," (members_text (p' :: o'))).
  rewrite str_length_app. cbn [String.length length]. specialize (Hm p). simpl length in IH. lia.
Qed.

Lemma map_fst_canon (o : list (string * Q)) : map fst (canon o) = map fst o.
Proof. unfold canon. rewrite map_map. reflexivity. Qed.

Lemma wf_canon (o : list (string * Q)) : JsObject.wf o -> JsObject.wf (canon o).
Proof. unfold JsObject.wf. now rewrite map_fst_canon. Qed.

Lemma members_text_head (o : list (string * Q)) (t : string) :
  o <> [] -> exists u, members_text o ++ t = String dq u.
Proof.
  intros Hne. destruct o as [|[k v] [|p' o']]; [easy| |].
  - eexists. apply member_text_app.
  - change (members_text ((k, v) :: p' :: o')) with
      (member_text (k, v) ++ String "," (members_text (p' :: o'))).
    rewrite str_append_assoc. eexists. apply member_text_app.
Qed.

Theorem parse_stringify_gen (o : list (string * Q)) :
  JsObject.wf o -> Forall (fun p => num_dom (snd p)) o ->
  parse (stringify o) = Some (canon o).
Proof.
  intros Hwf Hall. unfold parse, parse_object, stringify.
  rewrite skip_ws_head by reflexivity. unfold expect. rewrite Ascii.eqb_refl.
  destruct o as [|p o']; [reflexivity|].
  destruct (members_text_head (p :: o') (String "}" "") ltac:(discriminate)) as [u Hu].
  rewrite Hu, skip_ws_head by reflexivity. change ((dq =? "}")%char) with false. cbv iota.
  rewrite <- Hu, parse_members_text; [| discriminate | exact Hall |].
  - cbv iota. rewrite String.eqb_refl. f_equal. apply JsObject.fold_define_wf, wf_canon, Hwf.
  - rewrite str_length_app. pose proof (length_members_text (p :: o')). lia.
Qed.


Lemma parse_members_wf (fuel : nat) (s : string) (acc o : list (string * Q)) (rest : string) :
  JsObject.wf acc -> parse_members fuel s acc = Some (o, rest) -> JsObject.wf o.
Proof.
  revert s acc. induction fuel as [|fuel IH]; intros s acc Hacc; simpl; [discriminate|].
  destruct (parse_member s) as [[[k v] s1]|]; [|discriminate].
  pose proof (JsObject.wf_define k v acc Hacc) as Hwf.
  destruct (skip_ws s1) as [|c s2]; [discriminate|].
  destruct (Ascii.eqb c ","); [now apply IH|].
  destruct (Ascii.eqb c "}"); [|discriminate]. now intros [= <- _].
Qed.

(** Every registry [JSON.parse] yields has distinct keys in enumeration order. *)
Lemma parse_wf (text : string) (o : list (string * Q)) : parse text = Some o -> JsObject.wf o.
Proof.
  unfold parse, parse_object. destruct (expect "{" (skip_ws text)) as [s1|]; [|discriminate].
  destruct (skip_ws s1) as [|c s2] eqn:Hs; [discriminate|].
  set (r := if Ascii.eqb c "}" then _ else _).
  destruct r as [[o' rest]|] eqn:Hr; [|discriminate].
  destruct (String.eqb (skip_ws rest) ""); [|discriminate]. intros [= <-].
  subst r. destruct (Ascii.eqb c "}").
  - injection Hr as <- _. apply JsObject.wf_nil.
  - eapply parse_members_wf; [apply JsObject.wf_nil|exact Hr].
Qed.
(** ** The member loop terminates within its fuel *)

Lemma skip_ws_length (s : string) : (String.length (skip_ws s) <= String.length s)%nat.
Proof. induction s as [|c s IH]; simpl; [lia|]. destruct (is_ws c); simpl; lia. Qed.

Lemma expect_length (c : ascii) (s s' : string) :
  expect c s = Some s' -> String.length s = S (String.length s').
Proof. destruct s as [|c' s]; simpl; [discriminate|]. destruct (Ascii.eqb c' c); now intros [= <-]. Qed.

Lemma option_map_prepend (d : ascii) (x : option (string * string)) (k r : string) :
  option_map (prepend d) x = Some (k, r) -> exists k', x = Some (k', r).
Proof. destruct x as [[k' r']|]; simpl; [intros [= _ <-]; eauto|discriminate]. Qed.

Lemma parse_str_body_length (n : nat) (s k r : string) :
  (String.length s <= n)%nat -> parse_str_body s = Some (k, r) ->
  (String.length r < String.length s)%nat.
Proof.
  revert s k r. induction n as [|n IH]; intros [|c s] k r Hn; simpl in Hn |- *;
    try discriminate; [lia|].
  destruct (Ascii.eqb c dq); [intros [= _ <-]; lia|].
  destruct (Ascii.eqb c bs).
  - destruct s as [|e s]; [discriminate|].
    destruct (simple_escape e).
    + intros (k' & Hk)%option_map_prepend. simpl in Hn |- *.
      pose proof (IH s _ _ ltac:(lia) Hk). lia.
    + destruct (Ascii.eqb e "u"); [|discriminate].
      destruct s as [|h1 [|h2 [|h3 [|h4 s]]]]; try discriminate.
      destruct (hex4 h1 h2 h3 h4); [|discriminate]. destruct (_ <? 256)%N; [|discriminate].
      intros (k' & Hk)%option_map_prepend. simpl in Hn |- *.
      pose proof (IH s _ _ ltac:(lia) Hk). lia.
  - destruct (_ <? 32)%N; [discriminate|].
    intros (k' & Hk)%option_map_prepend. pose proof (IH s _ _ ltac:(lia) Hk). lia.
Qed.

(** A member takes at least one character of its input. *)
Lemma parse_member_length (s k r : string) (v : Q) :
  parse_member s = Some (k, v, r) -> (String.length r < String.length s)%nat.
Proof.
  unfold parse_member. pose proof (skip_ws_length s).
  destruct (expect dq (skip_ws s)) as [s1|] eqn:E1; [|discriminate].
  apply expect_length in E1.
  destruct (parse_str_body s1) as [[k' s2]|] eqn:E2; [|discriminate].
  apply (parse_str_body_length (String.length s1)) in E2; [|lia].
  pose proof (skip_ws_length s2).
  destruct (expect ":" (skip_ws s2)) as [s3|] eqn:E3; [|discriminate].
  apply expect_length in E3. pose proof (skip_ws_length s3).
  destruct (num_parse (skip_ws s3)) as [[v' s4]|] eqn:E4; [|discriminate].
  apply num_parse_suffix in E4. intros [= _ _ <-]. lia.
Qed.

(** Fuel beyond the length of the input changes nothing. *)
Lemma parse_members_fuel (fuel fuel' : nat) (s : string) (acc : list (string * Q)) :
  (String.length s <= fuel)%nat -> (fuel <= fuel')%nat ->
  parse_members fuel' s acc = parse_members fuel s acc.
Proof.
  revert fuel' s acc. induction fuel as [|f IH]; intros fuel' s acc Hs Hf.
  - destruct s; [|simpl in Hs; lia]. now destruct fuel'.
  - destruct fuel' as [|f']; [lia|]. cbn [parse_members].
    destruct (parse_member s) as [[[k v] s1]|] eqn:Hm; [|reflexivity].
    apply parse_member_length in Hm. pose proof (skip_ws_length s1).
    destruct (skip_ws s1) as [|c s2]; [reflexivity|].
    destruct (Ascii.eqb c ","); [|reflexivity]. simpl in *. apply IH; lia.
Qed.

(** Termination of the registry reader's member loop: the bound [parse]
    gives it, the length of the text after the opening brace, is never
    what stops it.  With any larger fuel the object parsed is the same,
    so a [None] of [parse] is a syntax error, never an exhausted loop. *)
Theorem parse_fuel_adequate (text s1 : string) (fuel : nat) :
  expect "{" (skip_ws text) = Some s1 -> (String.length s1 <= fuel)%nat ->
  parse text = parse_object fuel s1.
Proof.
  intros He Hf. unfold parse. rewrite He. unfold parse_object.
  destruct (skip_ws s1); [reflexivity|]. destruct (Ascii.eqb _ "}"); [reflexivity|].
  now rewrite (parse_members_fuel (String.length s1) fuel).
Qed.
End CodecLemmas.

End Json.
