(* ===== verification/JsNumber.v ===== *)
(** * [Number::toString] and the JSON number grammar

    [JSON.stringify] writes each value of the registry with
    [Number::toString]; [JSON.parse] reads it back with the JSON number
    grammar [-? (0 | [1-9][0-9]* ) (. [0-9]+)? ([eE] [+-]? [0-9]+)?].

    Values are exact rationals.  The printer [to_string] is
    [Number::toString] on the decimals with at most six fractional
    digits and magnitude below [10^9]: a sign for negative values, the
    integer part without leading zeros, and the fractional digits
    without trailing zeros.  Such a decimal has at most 15 significant
    digits, so the double nearest to it prints as the decimal itself,
    and the parser, which reads the decimal exactly, yields the value
    that double stands for.  Outside that domain the printer is not
    [Number::toString] (exponent notation, more digits) and no theorem
    relies on it.

    The instance [codec] of [Json.NumberCodec] discharges the number
    laws the object codec of [Json] assumes. *)

From Stdlib Require Import String Ascii NArith ZArith QArith List Lia.
From S2P Require Import Prelude Json.
Import ListNotations.

Module JsNumber.
Local Open Scope string_scope.
Local Open Scope Z_scope.

(** ** Digits *)

Definition digit (d : Z) : ascii := ascii_of_nat (48 + Z.to_nat d).

Definition digit_value (c : ascii) : option Z :=
  let n := N_of_ascii c in
  if ((48 <=? n)%N && (n <=? 57)%N)%bool then Some (Z.of_N (n - 48)) else None.

(** The [k] lowest decimal digits of [n], most significant first. *)
Fixpoint pad (k : nat) (n : Z) : string :=
  match k with
  | O => EmptyString
  | S k' => String (digit ((n / 10 ^ Z.of_nat k') mod 10)) (pad k' n)
  end.

(** Number of decimal digits of [n], at least one; [fuel] bounds the
    number of divisions. *)
Fixpoint ndigits_aux (fuel : nat) (n : Z) : nat :=
  match fuel with
  | O => 1
  | S f => if n <? 10 then 1 else S (ndigits_aux f (n / 10))
  end.

Definition ndigits (n : Z) : nat := ndigits_aux (S (Z.to_nat (Z.log2 n))) n.

(** The integer part: no leading zero, ["0"] for zero. *)
Definition int_text (n : Z) : string := pad (ndigits n) n.

(** Fractional digits [f] of [k] places, trailing zeros dropped. *)
Fixpoint strip (k : nat) (f : Z) : nat * Z :=
  match k with
  | O => (O, f)
  | S k' => if f mod 10 =? 0 then strip k' (f / 10) else (k, f)
  end.

(** ** The printer *)

(** Millionths of [q], exact on the domain. *)
Definition millionths (q : Q) : Z := Qnum q * 1000000 / Zpos (Qden q).

Definition in_domain (q : Q) : bool :=
  ((Qnum q * 1000000) mod Zpos (Qden q) =? 0) && (Z.abs (millionths q) <? 10 ^ 15).

(** The fractional part of [fp] millionths: nothing for zero. *)
Definition frac_text (fp : Z) : string :=
  if fp =? 0 then "" else let (k, f) := strip 6 fp in String "." (pad k f).

Definition to_string (q : Q) : string :=
  let n := millionths q in
  let a := Z.abs n in
  let ip := a / 1000000 in
  let fp := a mod 1000000 in
  (if n <? 0 then "-" else "") ++ int_text ip ++ frac_text fp.

(** ** The parser *)

(** The maximal run of digits at the head of [s], accumulated onto
    [acc]; [cnt] counts them. *)
Fixpoint read_digits (s : string) (acc : Z) (cnt : nat) : Z * nat * string :=
  match s with
  | String c s' =>
      match digit_value c with
      | Some d => read_digits s' (acc * 10 + d) (S cnt)
      | None => (acc, cnt, s)
      end
  | EmptyString => (acc, cnt, s)
  end.

(** [m * 10^(e - k)] *)
Definition scale (m : Z) (k : nat) (e : Z) : Q :=
  if 0 <=? e - Z.of_nat k then inject_Z (m * 10 ^ (e - Z.of_nat k))
  else m # Z.to_pos (10 ^ (Z.of_nat k - e)).

Definition parse_fraction (ip : Z) (s : string) : option (Z * nat * string) :=
  match s with
  | String c s' =>
      if Ascii.eqb c "." then
        let '(f, k, s'') := read_digits s' 0 0 in
        if Nat.eqb k 0 then None else Some (ip * 10 ^ Z.of_nat k + f, k, s'')
      else Some (ip, O, s)
  | EmptyString => Some (ip, O, s)
  end.

Definition parse_exponent (s : string) : option (Z * string) :=
  match s with
  | String c s' =>
      if (Ascii.eqb c "e" || Ascii.eqb c "E")%bool then
        let '(neg, s'') :=
          match s' with
          | String c' t =>
              if Ascii.eqb c' "-" then (true, t)
              else if Ascii.eqb c' "+" then (false, t) else (false, s')
          | EmptyString => (false, s')
          end in
        let '(e, k, s3) := read_digits s'' 0 0 in
        if Nat.eqb k 0 then None else Some (if neg then - e else e, s3)
      else Some (0, s)
  | EmptyString => Some (0, s)
  end.

Definition parse_sign (s : string) : bool * string :=
  match s with
  | String c s' => if Ascii.eqb c "-" then (true, s') else (false, s)
  | EmptyString => (false, s)
  end.

(** [0] alone, or a nonzero digit and the digits that follow it. *)
Definition parse_int (s : string) : option (Z * string) :=
  match s with
  | String c s' =>
      match digit_value c with
      | None => None
      | Some d =>
          if d =? 0 then Some (0, s')
          else let '(ip, _, s'') := read_digits s' d 1 in Some (ip, s'')
      end
  | EmptyString => None
  end.

Definition parse_number (s : string) : option (Q * string) :=
  let '(neg, s1) := parse_sign s in
  match parse_int s1 with
  | None => None
  | Some (ip, s2) =>
      match parse_fraction ip s2 with
      | None => None
      | Some (m, k, s3) =>
          match parse_exponent s3 with
          | None => None
          | Some (e, s4) =>
              let v := scale m k e in
              Some (Qred (if neg then Qopp v else v), s4)
          end
      end
  end.

(** ** Reading printed digits back *)

(** The characters a number may be followed by in a JSON object. *)
Definition stops (t : string) : Prop :=
  match t with
  | String c _ => digit_value c = None
  | EmptyString => True
  end.

Lemma digit_value_digit (d : Z) : 0 <= d < 10 -> digit_value (digit d) = Some d.
Proof.
  intros Hd.
  assert (d = 0 \/ d = 1 \/ d = 2 \/ d = 3 \/ d = 4 \/ d = 5 \/ d = 6 \/ d = 7 \/ d = 8 \/ d = 9)
    as Hcases by lia.
  repeat destruct Hcases as [->|Hcases]; try reflexivity; subst; reflexivity.
Qed.

Lemma read_digits_stop (t : string) (acc : Z) (cnt : nat) :
  stops t -> read_digits t acc cnt = (acc, cnt, t).
Proof. destruct t as [|c t]; simpl; [reflexivity|]. now intros ->. Qed.

Lemma pow10_succ (k : nat) : 10 ^ Z.of_nat (S k) = 10 ^ Z.of_nat k * 10.
Proof. rewrite Nat2Z.inj_succ, Z.pow_succ_r by lia. lia. Qed.

Lemma pow10_pos (k : nat) : 0 < 10 ^ Z.of_nat k.
Proof. apply Z.pow_pos_nonneg; lia. Qed.

Lemma read_pad (k : nat) (n : Z) (t : string) (acc : Z) (cnt : nat) :
  0 <= n ->
  read_digits (pad k n ++ t) acc cnt =
    read_digits t (acc * 10 ^ Z.of_nat k + n mod 10 ^ Z.of_nat k) (cnt + k).
Proof.
  intros Hn. revert acc cnt. induction k as [|k IH]; intros acc cnt.
  - simpl. rewrite Z.mod_1_r, Z.mul_1_r, Z.add_0_r, Nat.add_0_r. reflexivity.
  - change (pad (S k) n ++ t) with
      (String (digit ((n / 10 ^ Z.of_nat k) mod 10)) (pad k n ++ t)).
    cbn [read_digits].
    pose proof (pow10_pos k) as Hp.
    rewrite digit_value_digit by (apply Z.mod_pos_bound; lia).
    rewrite IH. f_equal; [|lia].
    rewrite pow10_succ, Z.rem_mul_r by lia. ring.
Qed.


(** Case analysis on a decimal digit, closing each case by computation. *)
Ltac digit_cases d :=
  let H := fresh in
  assert (H : d = 0 \/ d = 1 \/ d = 2 \/ d = 3 \/ d = 4 \/ d = 5 \/ d = 6 \/ d = 7 \/ d = 8 \/ d = 9)
    by lia;
  repeat destruct H as [->|H]; try reflexivity; subst; reflexivity.

Lemma digit_not_minus (d : Z) : 0 <= d < 10 -> Ascii.eqb (digit d) "-" = false.
Proof. intros Hd. digit_cases d. Qed.

Lemma ndigits_aux_spec (fuel : nat) (n : Z) :
  0 <= n < 10 ^ Z.of_nat (S fuel) ->
  exists m, ndigits_aux fuel n = S m /\ n < 10 ^ Z.of_nat (S m) /\ (n = 0 \/ 10 ^ Z.of_nat m <= n).
Proof.
  revert n. induction fuel as [|f IH]; intros n Hn; simpl ndigits_aux.
  - exists O. simpl. lia.
  - destruct (Z.ltb_spec n 10) as [Hlt|Hge]; [exists O; simpl; lia|].
    destruct (IH (n / 10)) as (m & -> & Hup & Hlow).
    + split; [apply Z.div_pos; lia|]. apply Z.div_lt_upper_bound; [lia|].
      rewrite pow10_succ in Hn. lia.
    + exists (S m). split; [reflexivity|]. rewrite !pow10_succ.
      pose proof (Z.div_mod n 10 ltac:(lia)). pose proof (Z.mod_pos_bound n 10 ltac:(lia)).
      rewrite pow10_succ in Hup. split; [lia|]. right. destruct Hlow; lia.
Qed.

Lemma ndigits_spec (n : Z) : 0 <= n ->
  exists m, ndigits n = S m /\ n < 10 ^ Z.of_nat (S m) /\ (n = 0 \/ 10 ^ Z.of_nat m <= n).
Proof.
  intros Hn. apply ndigits_aux_spec. split; [exact Hn|].
  destruct (Z.eq_dec n 0) as [->|Hne]; [apply pow10_pos|].
  destruct (Z.log2_spec n ltac:(lia)) as [_ Hup].
  rewrite !Nat2Z.inj_succ, Z2Nat.id by apply Z.log2_nonneg.
  eapply Z.lt_le_trans; [exact Hup|].
  apply Z.le_trans with (10 ^ Z.succ (Z.log2 n)).
  - apply Z.pow_le_mono_l. lia.
  - apply Z.pow_le_mono_r; [lia|]. lia.
Qed.

(** The head of the integer part and the rest of its digits. *)
Lemma int_text_head (ip : Z) : 0 <= ip ->
  exists m, int_text ip = String (digit ((ip / 10 ^ Z.of_nat m) mod 10)) (pad m ip) /\
    ip < 10 ^ Z.of_nat (S m) /\ (ip = 0 \/ 10 ^ Z.of_nat m <= ip).
Proof.
  intros Hip. destruct (ndigits_spec ip Hip) as (m & Hnd & Hbounds).
  exists m. unfold int_text. rewrite Hnd. split; [reflexivity|exact Hbounds].
Qed.

Lemma parse_int_text (ip : Z) (t : string) :
  0 <= ip -> stops t -> parse_int (int_text ip ++ t) = Some (ip, t).
Proof.
  intros Hip Ht. destruct (Z.eq_dec ip 0) as [->|Hne]; [reflexivity|].
  destruct (int_text_head ip Hip) as (m & -> & Hup & [|Hlow]); [lia|].
  pose proof (pow10_pos m) as Hp. rewrite pow10_succ in Hup.
  assert (Hh : 1 <= ip / 10 ^ Z.of_nat m < 10).
  { split; [apply Z.div_le_lower_bound|apply Z.div_lt_upper_bound]; lia. }
  rewrite (Z.mod_small (ip / _)) by lia.
  rewrite str_append_cons. unfold parse_int. rewrite digit_value_digit by lia.
  destruct (Z.eqb_spec (ip / 10 ^ Z.of_nat m) 0) as [|_]; [lia|].
  rewrite read_pad by lia. rewrite read_digits_stop by exact Ht.
  do 2 f_equal. pose proof (Z.div_mod ip (10 ^ Z.of_nat m) ltac:(lia)). lia.
Qed.

Lemma parse_sign_int_text (ip : Z) (t : string) :
  0 <= ip -> parse_sign (int_text ip ++ t) = (false, int_text ip ++ t).
Proof.
  intros Hip. destruct (int_text_head ip Hip) as (m & -> & _).
  rewrite str_append_cons. unfold parse_sign. rewrite digit_not_minus; [reflexivity|].
  apply Z.mod_pos_bound. lia.
Qed.

Lemma strip_spec (k : nat) (f : Z) : 0 < f < 10 ^ Z.of_nat k ->
  let (k', f') := strip k f in
  (1 <= k' <= k)%nat /\ 0 <= f' < 10 ^ Z.of_nat k' /\ f = f' * 10 ^ Z.of_nat (k - k').
Proof.
  revert f. induction k as [|k IH]; intros f Hf; [simpl in Hf; lia|].
  cbn [strip]. rewrite pow10_succ in Hf.
  destruct (Z.eqb_spec (f mod 10) 0) as [H0|H0].
  - pose proof (Z.div_mod f 10 ltac:(lia)).
    specialize (IH (f / 10)). destruct (strip k (f / 10)) as [k' f'].
    destruct IH as (Hk & Hf' & Heq); [lia|].
    split; [lia|]. split; [exact Hf'|].
    rewrite Nat.sub_succ_l, pow10_succ by lia. lia.
  - rewrite Nat.sub_diag. simpl. rewrite pow10_succ. lia.
Qed.

Lemma parse_fraction_pad (ip f : Z) (k : nat) (t : string) :
  (1 <= k)%nat -> 0 <= f < 10 ^ Z.of_nat k -> stops t ->
  parse_fraction ip (String "." (pad k f ++ t)) = Some (ip * 10 ^ Z.of_nat k + f, k, t).
Proof.
  intros Hk Hf Ht. unfold parse_fraction. rewrite Ascii.eqb_refl.
  rewrite read_pad, read_digits_stop by (lia || exact Ht).
  rewrite Z.mod_small by exact Hf. destruct k; [lia|]. reflexivity.
Qed.


(** ** Values *)

Lemma millionths_spec (q : Q) : in_domain q = true -> (q == millionths q # 1000000)%Q.
Proof.
  unfold in_domain, millionths. intros [Hdiv _]%andb_prop. apply Z.eqb_eq in Hdiv.
  unfold Qeq. simpl.
  pose proof (Z.div_mod (Qnum q * 1000000) (Zpos (Qden q)) ltac:(lia)). lia.
Qed.

Lemma pow10_split (k : nat) : (k <= 6)%nat ->
  1000000 = 10 ^ Z.of_nat k * 10 ^ Z.of_nat (6 - k).
Proof.
  intros Hk. rewrite <- Z.pow_add_r by lia. rewrite <- Nat2Z.inj_add.
  now replace (k + (6 - k))%nat with 6%nat by lia.
Qed.

Lemma Qmake_pow10 (m : Z) (k : nat) : (k <= 6)%nat ->
  ((m * 10 ^ Z.of_nat (6 - k)) # 1000000 == m # Z.to_pos (10 ^ Z.of_nat k))%Q.
Proof.
  intros Hk. unfold Qeq. cbn [Qnum Qden].
  rewrite Z2Pos.id by apply pow10_pos.
  rewrite (pow10_split k) by exact Hk. ring.
Qed.

(** The value the parser reads from the digits of [a] millionths, with
    the sign of [n]. *)
Lemma signed_value (q : Q) (n a : Z) (v : Q) :
  (q == n # 1000000)%Q -> a = Z.abs n -> (v == a # 1000000)%Q ->
  ((if n <? 0 then Qopp v else v) == q)%Q.
Proof.
  intros Hq -> Hv. rewrite Hq.
  destruct (Z.ltb_spec n 0) as [Hn|Hn]; rewrite Hv.
  - rewrite Z.abs_neq by lia. unfold Qeq. simpl. lia.
  - rewrite Z.abs_eq by lia. reflexivity.
Qed.

(** ** The number law *)

Lemma num_end_cases (t : string) :
  Json.num_end t = true ->
  t = EmptyString \/ exists c r, t = String c r /\ (c = ","%char \/ c = "}"%char \/ c = "]"%char).
Proof.
  intros H. destruct t as [|c r]; [now left|]. right. exists c, r. split; [reflexivity|].
  cbn [Json.num_end] in H.
  repeat match goal with H' : (_ || _)%bool = true |- _ => apply Bool.orb_true_iff in H' as [H'|H'] end;
    match goal with H' : Ascii.eqb _ _ = true |- _ => apply Ascii.eqb_eq in H' end; tauto.
Qed.

Lemma stops_sep (t : string) : Json.num_end t = true -> stops t.
Proof. intros [->|(c & r & -> & [-> | [-> | ->]])]%num_end_cases; reflexivity. Qed.

Lemma parse_exponent_sep (t : string) : Json.num_end t = true -> parse_exponent t = Some (0, t).
Proof. intros [->|(c & r & -> & [-> | [-> | ->]])]%num_end_cases; reflexivity. Qed.

Lemma parse_fraction_sep (ip : Z) (t : string) :
  Json.num_end t = true -> parse_fraction ip t = Some (ip, O, t).
Proof. intros [->|(c & r & -> & [-> | [-> | ->]])]%num_end_cases; reflexivity. Qed.

Lemma parse_frac_text (ip fp : Z) (t : string) :
  0 <= fp < 1000000 -> Json.num_end t = true ->
  stops (frac_text fp ++ t) /\
  exists m k, parse_fraction ip (frac_text fp ++ t) = Some (m, k, t) /\
    (scale m k 0 == (ip * 1000000 + fp) # 1000000)%Q.
Proof.
  intros Hfp Hc. unfold frac_text. destruct (Z.eqb_spec fp 0) as [->|Hne].
  - change (EmptyString ++ ?x) with x.
    split; [now apply stops_sep|]. exists ip, O. rewrite parse_fraction_sep by exact Hc.
    split; [reflexivity|]. unfold scale, Qeq. simpl. lia.
  - pose proof (strip_spec 6 fp ltac:(simpl; lia)) as Hs.
    destruct (strip 6 fp) as [k f]. destruct Hs as (Hk & Hf & ->).
    split; [reflexivity|]. exists (ip * 10 ^ Z.of_nat k + f), k.
    rewrite str_append_cons, parse_fraction_pad by (lia || exact Hf || now apply stops_sep).
    split; [reflexivity|]. unfold scale.
    destruct (Z.leb_spec 0 (0 - Z.of_nat k)) as [|_]; [lia|].
    rewrite Z.sub_0_r.
    rewrite <- Qmake_pow10 by lia. unfold Qeq. cbn [Qnum Qden].
    rewrite (pow10_split k) by lia. ring.
Qed.

Lemma digit_not_ws (d : Z) : 0 <= d < 10 -> Json.is_ws (digit d) = false.
Proof. intros Hd. digit_cases d. Qed.

Theorem parse_to_string (q : Q) (t : string) :
  in_domain q = true -> Json.num_end t = true ->
  parse_number (to_string q ++ t) = Some (Qred q, t).
Proof.
  intros Hd Hc. pose proof (millionths_spec q Hd) as Hq. unfold to_string.
  set (n := millionths q) in *. set (a := Z.abs n).
  assert (Hip : 0 <= a / 1000000) by (apply Z.div_pos; lia).
  assert (Hfp : 0 <= a mod 1000000 < 1000000) by (apply Z.mod_pos_bound; lia).
  destruct (parse_frac_text (a / 1000000) (a mod 1000000) t Hfp Hc)
    as (Hstop & m & k & Hfrac & Hval).
  assert (Hv : ((if n <? 0 then Qopp (scale m k 0) else scale m k 0) == q)%Q).
  { apply (signed_value q n a); [exact Hq|reflexivity|].
    rewrite Hval. pose proof (Z.div_mod a 1000000 ltac:(lia)).
    unfold Qeq. cbn [Qnum Qden]. lia. }
  rewrite !str_append_assoc. unfold parse_number.
  destruct (n <? 0).
  - rewrite str_append_cons. unfold parse_sign. rewrite Ascii.eqb_refl.
    change (EmptyString ++ ?x) with x. rewrite parse_int_text, Hfrac, parse_exponent_sep by assumption.
    do 2 f_equal. now apply Qred_complete.
  - change (EmptyString ++ ?x) with x. rewrite parse_sign_int_text by exact Hip.
    rewrite parse_int_text, Hfrac, parse_exponent_sep by assumption.
    do 2 f_equal. now apply Qred_complete.
Qed.

Lemma to_string_head (q : Q) : exists c t, to_string q = String c t /\ Json.is_ws c = false.
Proof.
  unfold to_string. destruct (millionths q <? 0); [eauto|].
  destruct (int_text_head (Z.abs (millionths q) / 1000000)) as (m & -> & _);
    [apply Z.div_pos; lia|].
  do 2 eexists. split; [reflexivity|]. apply digit_not_ws, Z.mod_pos_bound. lia.
Qed.


(** ** Properties *)

Section Examples.
Local Open Scope Q_scope.

(** [Number::toString] and the JSON number grammar on sample
    values: integers print without a point, fractions without trailing
    zeros and with a leading [0], negatives with a sign, whatever the
    representation of the rational; the parser reads exponents, stops
    after a leading [0], and refuses a point without digits. *)
Example to_string_examples :
  map to_string [160; 185 # 2; -(13 # 4); 0; 1 # 1000000; 123456789 # 1000; 5 # 10] =
    ["160"; "92.5"; "-3.25"; "0"; "0.000001"; "123456.789"; "0.5"]%string /\
  parse_number "1.5e3," = Some (1500, ","%string) /\
  parse_number "-0.25}" = Some (-(1 # 4), "}"%string) /\
  parse_number "01," = Some (0, "1,"%string) /\
  parse_number "1.," = None.
Proof. vm_compute. repeat split. Qed.
End Examples.

(** ** The reader consumes its input *)

Lemma read_digits_length (s : string) (acc : Z) (cnt : nat) a k r :
  read_digits s acc cnt = (a, k, r) -> (String.length r <= String.length s)%nat.
Proof.
  revert acc cnt. induction s as [|c s IH]; intros acc cnt; simpl; [now intros [= _ _ <-]|].
  destruct (digit_value c); [intros H; apply IH in H; lia|]. intros [= _ _ <-]. simpl. lia.
Qed.

Lemma parse_number_length (s : string) (q : Q) (r : string) :
  parse_number s = Some (q, r) -> (String.length r < String.length s)%nat.
Proof.
  unfold parse_number.
  assert (Hsign : (String.length (snd (parse_sign s)) <= String.length s)%nat).
  { destruct s as [|c s]; simpl; [lia|]. destruct (Ascii.eqb c "-"); simpl; lia. }
  destruct (parse_sign s) as [neg s1]. simpl in Hsign.
  destruct (parse_int s1) as [[ip s2]|] eqn:Hi; [|discriminate].
  assert (H2 : (String.length s2 < String.length s1)%nat).
  { destruct s1 as [|c s1]; simpl in Hi; [discriminate|].
    destruct (digit_value c); [|discriminate]. destruct (_ =? 0); [injection Hi as _ <-; simpl; lia|].
    destruct (read_digits s1 _ 1) as [[? ?] ?] eqn:Hr. apply read_digits_length in Hr.
    injection Hi as _ <-. simpl. lia. }
  destruct (parse_fraction ip s2) as [[[m k] s3]|] eqn:Hf; [|discriminate].
  assert (H3 : (String.length s3 <= String.length s2)%nat).
  { destruct s2 as [|c s2]; simpl in Hf; [now injection Hf as _ _ <-|].
    destruct (Ascii.eqb c "."); [|injection Hf as _ _ <-; lia].
    destruct (read_digits s2 0 0) as [[? k'] ?] eqn:Hr. apply read_digits_length in Hr.
    destruct (Nat.eqb k' 0); [discriminate|]. injection Hf as _ _ <-. simpl. lia. }
  destruct (parse_exponent s3) as [[e s4]|] eqn:He; [|discriminate].
  assert (H4 : (String.length s4 <= String.length s3)%nat).
  { destruct s3 as [|c s3]; simpl in He; [now injection He as _ <-|].
    destruct (Ascii.eqb c "e" || Ascii.eqb c "E")%bool; [|injection He as _ <-; lia].
    assert (Hsg : exists neg' t, (String.length t <= String.length s3)%nat /\
      (match s3 with
       | String c' t => if Ascii.eqb c' "-" then (true, t)
                        else if Ascii.eqb c' "+" then (false, t) else (false, s3)
       | EmptyString => (false, s3)
       end) = (neg', t)).
    { destruct s3 as [|c' t]; [eauto|].
      destruct (Ascii.eqb c' "-"); [|destruct (Ascii.eqb c' "+")]; (eexists _, _; split; [|reflexivity]; simpl; lia). }
    destruct Hsg as (neg' & t & Ht & Heq). rewrite Heq in He.
    destruct (read_digits t 0 0) as [[? k'] ?] eqn:Hr. apply read_digits_length in Hr.
    destruct (Nat.eqb k' 0); [discriminate|]. injection He as _ <-. simpl. lia. }
  intros [= _ <-]. lia.
Qed.

Lemma parse_number_head (s : string) (q : Q) (r : string) :
  parse_number s = Some (q, r) -> exists c t, s = String c t /\ Json.num_start c = true.
Proof.
  unfold parse_number. destruct s as [|c t]; [discriminate|].
  destruct (parse_sign (String c t)) as [neg s1] eqn:Hs.
  destruct (parse_int s1) as [[ip s2]|] eqn:Hi; [|discriminate]. intros _.
  exists c, t. split; [reflexivity|]. unfold Json.num_start. cbn [parse_sign] in Hs.
  destruct (Ascii.eqb c "-"); [reflexivity|]. injection Hs as _ <-.
  cbn [parse_int] in Hi. unfold digit_value in Hi.
  destruct ((48 <=? N_of_ascii c)%N && (N_of_ascii c <=? 57)%N)%bool; [reflexivity|discriminate].
Qed.

End JsNumber.

(** [Number::toString] and the JSON number grammar as the number codec
    of [JSON.stringify] and [JSON.parse]. *)
#[export] Instance js_number_codec : Json.NumberCodec := {|
  Json.num_dom q := JsNumber.in_domain q = true;
  Json.num_print := JsNumber.to_string;
  Json.num_parse := JsNumber.parse_number;
  Json.num_parse_print q t Hq Ht := JsNumber.parse_to_string q t Hq Ht;
  Json.num_print_head q _ := JsNumber.to_string_head q;
  Json.num_parse_suffix := JsNumber.parse_number_length;
  Json.num_parse_head := JsNumber.parse_number_head
|}.

