(* ===== verification/JsonValue.v ===== *)
(** * [JSON.parse] on every JSON value

    The first effect of [LiftsContextProvider] (App.tsx, line 36) hands
    the stored text to [JSON.parse], which accepts any JSON text: an
    object, an array, a string, a number, [true], [false] or [null].
    [JsonValue.json] is that value, with objects as association lists in
    [[OwnPropertyKeys]] order, built member by member with
    CreateDataProperty ([JsObject.define]): a repeated key keeps its
    first position and takes its last value.

    The parser is the grammar of ECMA-262's JSON.parse (JSON text is a
    value with surrounding whitespace), over the same lexical pieces as
    [Json]: [Json.skip_ws], [Json.parse_str_body] for string literals
    and the number reader of the [Json.NumberCodec] interface.  Three
    mutually recursive functions read a value, the members of an
    object and the elements of an array; each call takes one unit of
    fuel and reads at least one character; [parse] gives them twice the
    length of the text plus one, which is never exhausted (an array
    spends two units per nesting level before its first element).

    [registry_of] is the registry a value denotes when it is an object
    whose values are all numbers.

    Theorems: every value [JSON.parse] yields is well formed at every
    depth (distinct keys in enumeration order in every object), which
    makes the registry the load effect reads well formed; the registry
    fragment [Json.parse] agrees with it: a text [Json.parse] reads as
    the registry [o] is read by [JSON.parse] as the object of the
    numbers of [o]; and the fuel [parse] gives is never exhausted, so
    its [None] is the [SyntaxError] of an ill-formed text. *)

From Stdlib Require Import String Ascii NArith ZArith QArith List Lia.
From S2P Require Import Prelude JsObject Json JsNumber.
Import ListNotations.

Module JsonValue.
Import Json.

#[warnings="-register-all"]
Inductive json :=
| JNull
| JBool (b : bool)
| JNum (q : Q)
| JStr (s : string)
| JArr (l : list json)
| JObj (o : list (string * json)).

(** ** The parser *)

Section Parser.
Context `{NumberCodec}.

(** The rest of a literal name after its first character. *)
Fixpoint expect_word (w s : string) : option string :=
  match w with
  | EmptyString => Some s
  | String c w' =>
      match expect c s with
      | Some s' => expect_word w' s'
      | None => None
      end
  end.

Fixpoint parse_value (fuel : nat) (s : string) {struct fuel} : option (json * string) :=
  match fuel with
  | O => None
  | S f =>
      match skip_ws s with
      | EmptyString => None
      | String c s' =>
          if Ascii.eqb c "{" then
            match skip_ws s' with
            | String c2 s2 =>
                if Ascii.eqb c2 "}" then Some (JObj [], s2)
                else match parse_members f s' [] with
                     | Some (o, r) => Some (JObj o, r)
                     | None => None
                     end
            | EmptyString => None
            end
          else if Ascii.eqb c "[" then
            match skip_ws s' with
            | String c2 s2 =>
                if Ascii.eqb c2 "]" then Some (JArr [], s2)
                else match parse_elements f s' [] with
                     | Some (l, r) => Some (JArr l, r)
                     | None => None
                     end
            | EmptyString => None
            end
          else if Ascii.eqb c dq then
            match parse_str_body s' with
            | Some (str, r) => Some (JStr str, r)
            | None => None
            end
          else if Ascii.eqb c "t" then option_map (fun r => (JBool true, r)) (expect_word "rue" s')
          else if Ascii.eqb c "f" then option_map (fun r => (JBool false, r)) (expect_word "alse" s')
          else if Ascii.eqb c "n" then option_map (fun r => (JNull, r)) (expect_word "ull" s')
          else match num_parse (String c s') with
               | Some (q, r) => Some (JNum q, r)
               | None => None
               end
      end
  end
(** Members ["k":value] separated by commas up to [}], each defined on
    the object built so far. *)
with parse_members (fuel : nat) (s : string) (acc : list (string * json)) {struct fuel}
  : option (list (string * json) * string) :=
  match fuel with
  | O => None
  | S f =>
      match expect dq (skip_ws s) with
      | None => None
      | Some s1 =>
          match parse_str_body s1 with
          | None => None
          | Some (k, s2) =>
              match expect ":" (skip_ws s2) with
              | None => None
              | Some s3 =>
                  match parse_value f s3 with
                  | None => None
                  | Some (v, s4) =>
                      let acc' := JsObject.define k v acc in
                      match skip_ws s4 with
                      | String c s5 =>
                          if Ascii.eqb c "," then parse_members f s5 acc'
                          else if Ascii.eqb c "}" then Some (acc', s5)
                          else None
                      | EmptyString => None
                      end
                  end
              end
          end
      end
  end
(** Elements separated by commas up to the closing bracket. *)
with parse_elements (fuel : nat) (s : string) (acc : list json) {struct fuel}
  : option (list json * string) :=
  match fuel with
  | O => None
  | S f =>
      match parse_value f s with
      | None => None
      | Some (v, s1) =>
          match skip_ws s1 with
          | String c s2 =>
              if Ascii.eqb c "," then parse_elements f s2 (acc ++ [v])
              else if Ascii.eqb c "]" then Some (acc ++ [v], s2)
              else None
          | EmptyString => None
          end
      end
  end.

(** [JSON.parse(text)]: [None] is the [SyntaxError] it throws. *)
Definition parse (text : string) : option json :=
  match parse_value (S (2 * String.length text)) text with
  | Some (v, rest) => if String.eqb (skip_ws rest) "" then Some v else None
  | None => None
  end.
End Parser.

(** The registry an object of numbers denotes. *)
Fixpoint num_members (o : list (string * json)) : option (list (string * Q)) :=
  match o with
  | [] => Some []
  | (k, JNum q) :: o' =>
      match num_members o' with
      | Some r => Some ((k, q) :: r)
      | None => None
      end
  | _ :: _ => None
  end.

Definition registry_of (v : json) : option (list (string * Q)) :=
  match v with
  | JObj o => num_members o
  | _ => None
  end.

(** Every object in a value has distinct keys in enumeration order. *)
#[warnings="-register-all"]
Inductive json_wf : json -> Prop :=
| wf_null : json_wf JNull
| wf_bool b : json_wf (JBool b)
| wf_num q : json_wf (JNum q)
| wf_str s : json_wf (JStr s)
| wf_arr l : Forall json_wf l -> json_wf (JArr l)
| wf_obj o : JsObject.wf o -> Forall (fun p => json_wf (snd p)) o -> json_wf (JObj o).

(** ** Lemmas *)

Lemma expect_inv (c : ascii) (s s' : string) : expect c s = Some s' -> s = String c s'.
Proof.
  destruct s as [|c' s]; simpl; [discriminate|].
  destruct (Ascii.eqb_spec c' c) as [->|]; [now intros [= <-]|discriminate].
Qed.

Lemma num_start_dispatch (c : ascii) :
  num_start c = true ->
  Ascii.eqb c "{" = false /\ Ascii.eqb c "[" = false /\ Ascii.eqb c dq = false /\
  Ascii.eqb c "t" = false /\ Ascii.eqb c "f" = false /\ Ascii.eqb c "n" = false.
Proof. intros Hc. repeat split; apply Ascii.eqb_neq; intros ->; vm_compute in Hc; discriminate. Qed.

Lemma num_members_map (o : list (string * Q)) : num_members (JsObject.map_vals JNum o) = Some o.
Proof. induction o as [|[k q] o IH]; simpl; [reflexivity|]. now rewrite IH. Qed.

Lemma num_members_keys (m : list (string * json)) (o : list (string * Q)) :
  num_members m = Some o -> map fst o = map fst m.
Proof.
  revert o. induction m as [|[k v] m IH]; intros o; simpl; [now intros [= <-]|].
  destruct v; try discriminate. destruct (num_members m) as [r|] eqn:E; [|discriminate].
  intros [= <-]. simpl. f_equal. now apply IH.
Qed.

(** A registry read from a well-formed value is well formed. *)
Lemma registry_of_wf (v : json) (o : list (string * Q)) :
  json_wf v -> registry_of v = Some o -> JsObject.wf o.
Proof.
  destruct v as [| | | | |m]; try discriminate. intros Hv Hm. inversion Hv as [| | | | |? Hwf _]; subst.
  unfold JsObject.wf in *. now rewrite (num_members_keys m o Hm).
Qed.

Section ParserLemmas.
Context `{NumberCodec}.

(** The three readers build well-formed values, by induction on the fuel. *)
Lemma parse_fuel_wf (f : nat) :
  (forall s v r, parse_value f s = Some (v, r) -> json_wf v) /\
  (forall s acc o r, JsObject.wf acc -> Forall (fun p => json_wf (snd p)) acc ->
     parse_members f s acc = Some (o, r) -> JsObject.wf o /\ Forall (fun p => json_wf (snd p)) o) /\
  (forall s acc l r, Forall json_wf acc -> parse_elements f s acc = Some (l, r) -> Forall json_wf l).
Proof.
  induction f as [|f (IHv & IHm & IHe)]; [repeat split; intros; discriminate|].
  split; [|split].
  - intros s v r. cbn [parse_value]. destruct (skip_ws s) as [|c s']; [discriminate|].
    destruct (Ascii.eqb c "{").
    { destruct (skip_ws s') as [|c2 s2]; [discriminate|].
      destruct (Ascii.eqb c2 "}"); [intros [= <- _]; constructor; [apply JsObject.wf_nil|constructor]|].
      destruct (parse_members f s' []) as [[o r']|] eqn:E; [|discriminate]. intros [= <- _].
      destruct (IHm _ _ _ _ JsObject.wf_nil (Forall_nil _) E). now constructor. }
    destruct (Ascii.eqb c "[").
    { destruct (skip_ws s') as [|c2 s2]; [discriminate|].
      destruct (Ascii.eqb c2 "]"); [intros [= <- _]; constructor; constructor|].
      destruct (parse_elements f s' []) as [[l r']|] eqn:E; [|discriminate]. intros [= <- _].
      constructor. exact (IHe _ _ _ _ (Forall_nil _) E). }
    destruct (Ascii.eqb c dq).
    { destruct (parse_str_body s') as [[str r']|]; [|discriminate]. intros [= <- _]. constructor. }
    destruct (Ascii.eqb c "t"); [destruct (expect_word _ _); [intros [= <- _]; constructor|discriminate]|].
    destruct (Ascii.eqb c "f"); [destruct (expect_word _ _); [intros [= <- _]; constructor|discriminate]|].
    destruct (Ascii.eqb c "n"); [destruct (expect_word _ _); [intros [= <- _]; constructor|discriminate]|].
    destruct (num_parse (String c s')) as [[q r']|]; [intros [= <- _]; constructor|discriminate].
  - intros s acc o r Hwf Hall. cbn [parse_members].
    destruct (expect dq (skip_ws s)) as [s1|]; [|discriminate].
    destruct (parse_str_body s1) as [[k s2]|]; [|discriminate].
    destruct (expect ":" (skip_ws s2)) as [s3|]; [|discriminate].
    destruct (parse_value f s3) as [[v s4]|] eqn:Ev; [|discriminate].
    pose proof (JsObject.wf_define k v acc Hwf) as Hwf'.
    pose proof (JsObject.Forall_define json_wf k v acc Hall (IHv _ _ _ Ev)) as Hall'.
    destruct (skip_ws s4) as [|c s5]; [discriminate|].
    destruct (Ascii.eqb c ","); [now apply IHm|].
    destruct (Ascii.eqb c "}"); [now intros [= <- _]|discriminate].
  - intros s acc l r Hall. cbn [parse_elements].
    destruct (parse_value f s) as [[v s1]|] eqn:Ev; [|discriminate].
    assert (Hall' : Forall json_wf (acc ++ [v])) by (apply Forall_app; split; [exact Hall|constructor; [exact (IHv _ _ _ Ev)|constructor]]).
    destruct (skip_ws s1) as [|c s2]; [discriminate|].
    destruct (Ascii.eqb c ","); [now apply IHe|].
    destruct (Ascii.eqb c "]"); [now intros [= <- _]|discriminate].
Qed.
(** The registry reader and [JSON.parse] agree on the members of an
    object of numbers: where [Json.parse_members] reads [o], the member
    reader of values reads the numbers of [o], given as much fuel as
    the input has characters. *)
Lemma members_registry (f : nat) : forall f' s acc o r,
  Json.parse_members f s acc = Some (o, r) -> (String.length s <= f')%nat ->
  parse_members f' s (JsObject.map_vals JNum acc) = Some (JsObject.map_vals JNum o, r).
Proof.
  induction f as [|f IH]; intros f' s acc o r; [discriminate|].
  cbn [Json.parse_members]. unfold Json.parse_member. pose proof (skip_ws_length s).
  destruct (expect dq (skip_ws s)) as [s1|] eqn:E1; [|discriminate].
  pose proof (expect_length _ _ _ E1).
  destruct (parse_str_body s1) as [[k s2]|] eqn:E2; [|discriminate].
  pose proof (parse_str_body_length _ s1 k s2 (le_n _) E2). pose proof (skip_ws_length s2).
  destruct (expect ":" (skip_ws s2)) as [s3|] eqn:E3; [|discriminate].
  pose proof (expect_length _ _ _ E3). pose proof (skip_ws_length s3).
  destruct (num_parse (skip_ws s3)) as [[v s4]|] eqn:E4; [|discriminate].
  pose proof (num_parse_suffix _ _ _ E4). pose proof (skip_ws_length s4).
  destruct (num_parse_head _ _ _ E4) as (c & t & Hct & Hc).
  destruct (num_start_dispatch c Hc) as (B1 & B2 & B3 & B4 & B5 & B6).
  assert (Hl3 : (1 <= String.length (skip_ws s3))%nat) by (rewrite Hct; simpl; lia).
  intros Hrest Hlen. revert Hrest. destruct f' as [|f1]; [lia|].
  cbn [parse_members]. rewrite E1, E2, E3. destruct f1 as [|f2]; [lia|].
  cbn [parse_value]. rewrite Hct, B1, B2, B3, B4, B5, B6, <- Hct, E4.
  cbv beta iota zeta. rewrite (JsObject.define_map_vals JNum).
  destruct (skip_ws s4) as [|c5 s5] eqn:E5; [discriminate|].
  destruct (Ascii.eqb c5 ","); [|destruct (Ascii.eqb c5 "}"); [now intros [= <- <-]|discriminate]].
  intros Hm. apply IH; [exact Hm|]. simpl in *. lia.
Qed.

(** What the registry reader [Json.parse] reads as [o], [JSON.parse]
    reads as the object of the numbers of [o]. *)
Lemma parse_registry (text : string) (o : list (string * Q)) :
  Json.parse text = Some o -> parse text = Some (JObj (JsObject.map_vals JNum o)).
Proof.
  unfold Json.parse, Json.parse_object, parse.
  destruct (expect "{" (skip_ws text)) as [s1|] eqn:E; [|discriminate].
  pose proof (expect_length _ _ _ E) as Hl. pose proof (skip_ws_length text).
  apply expect_inv in E. cbn [parse_value]. rewrite E, Ascii.eqb_refl. cbv beta iota.
  destruct (skip_ws s1) as [|c2 s2]; [discriminate|].
  destruct (Ascii.eqb c2 "}").
  - destruct (String.eqb (skip_ws s2) ""); [now intros [= <-]|discriminate].
  - destruct (Json.parse_members (String.length s1) s1 []) as [[o' r]|] eqn:Em; [|discriminate].
    change (@nil (string * json)) with (JsObject.map_vals JNum (@nil (string * Q))).
    rewrite (members_registry _ (2 * String.length text) s1 [] o' r Em) by lia.
    destruct (String.eqb (skip_ws r) ""); [now intros [= <-]|discriminate].
Qed.

(** A registry [JSON.parse] yields has distinct keys in enumeration order. *)
Lemma parse_registry_wf (text : string) (v : json) (o : list (string * Q)) :
  parse text = Some v -> registry_of v = Some o -> JsObject.wf o.
Proof.
  unfold parse. destruct (parse_value _ text) as [[v' rest]|] eqn:E; [|discriminate].
  destruct (String.eqb (skip_ws rest) ""); [|discriminate]. intros [= <-].
  apply registry_of_wf. exact (proj1 (parse_fuel_wf _) _ _ _ E).
Qed.

(** ** Termination *)

Lemma expect_word_length (w s r : string) :
  expect_word w s = Some r -> (String.length r <= String.length s)%nat.
Proof.
  revert s. induction w as [|c w IH]; intros s; simpl; [intros [= <-]; lia|].
  destruct (expect c s) as [s'|] eqn:E; [|discriminate].
  intros Hw. apply IH in Hw. apply expect_length in E. lia.
Qed.

Lemma literal_length (w s r : string) (x v : json) :
  option_map (fun r => (x, r)) (expect_word w s) = Some (v, r) -> (String.length r <= String.length s)%nat.
Proof.
  destruct (expect_word w s) as [r'|] eqn:E; [|discriminate].
  intros [= _ <-]. exact (expect_word_length w s r' E).
Qed.

(** Each reader consumes at least one character. *)
Lemma parse_length (f : nat) :
  (forall s v r, parse_value f s = Some (v, r) -> (String.length r < String.length s)%nat) /\
  (forall s acc o r, parse_members f s acc = Some (o, r) -> (String.length r < String.length s)%nat) /\
  (forall s acc l r, parse_elements f s acc = Some (l, r) -> (String.length r < String.length s)%nat).
Proof.
  induction f as [|f (IHv & IHm & IHe)]; [repeat split; intros; discriminate|]. split; [|split].
  - intros s v r. cbn [parse_value]. pose proof (skip_ws_length s).
    destruct (skip_ws s) as [|c s']; [discriminate|]. cbn [String.length] in *.
    destruct (Ascii.eqb c "{").
    { pose proof (skip_ws_length s'). destruct (skip_ws s') as [|c2 s2]; [discriminate|]. simpl in *.
      destruct (Ascii.eqb c2 "}"); [intros [= _ <-]; lia|].
      destruct (parse_members f s' []) as [[o r']|] eqn:E; [|discriminate].
      intros [= _ <-]. apply IHm in E. lia. }
    destruct (Ascii.eqb c "[").
    { pose proof (skip_ws_length s'). destruct (skip_ws s') as [|c2 s2]; [discriminate|]. simpl in *.
      destruct (Ascii.eqb c2 "]"); [intros [= _ <-]; lia|].
      destruct (parse_elements f s' []) as [[l r']|] eqn:E; [|discriminate].
      intros [= _ <-]. apply IHe in E. lia. }
    destruct (Ascii.eqb c dq).
    { destruct (parse_str_body s') as [[str r']|] eqn:E; [|discriminate]. intros [= _ <-].
      apply (parse_str_body_length (String.length s')) in E; lia. }
    destruct (Ascii.eqb c "t"); [intros Hw; apply literal_length in Hw; lia|].
    destruct (Ascii.eqb c "f"); [intros Hw; apply literal_length in Hw; lia|].
    destruct (Ascii.eqb c "n"); [intros Hw; apply literal_length in Hw; lia|].
    destruct (num_parse (String c s')) as [[q r']|] eqn:E; [|discriminate].
    apply num_parse_suffix in E. simpl in E. intros [= _ <-]. lia.
  - intros s acc o r. cbn [parse_members]. pose proof (skip_ws_length s).
    destruct (expect dq (skip_ws s)) as [s1|] eqn:E1; [|discriminate]. apply expect_length in E1.
    destruct (parse_str_body s1) as [[k s2]|] eqn:E2; [|discriminate].
    apply (parse_str_body_length (String.length s1)) in E2; [|lia]. pose proof (skip_ws_length s2).
    destruct (expect ":" (skip_ws s2)) as [s3|] eqn:E3; [|discriminate]. apply expect_length in E3.
    destruct (parse_value f s3) as [[v s4]|] eqn:E4; [|discriminate]. apply IHv in E4.
    pose proof (skip_ws_length s4). destruct (skip_ws s4) as [|c s5]; [discriminate|]. simpl in *.
    destruct (Ascii.eqb c ","); [intros E; apply IHm in E; lia|].
    destruct (Ascii.eqb c "}"); [intros [= _ <-]; lia|discriminate].
  - intros s acc l r. cbn [parse_elements].
    destruct (parse_value f s) as [[v s1]|] eqn:E; [|discriminate]. apply IHv in E.
    pose proof (skip_ws_length s1). destruct (skip_ws s1) as [|c s2]; [discriminate|]. simpl in *.
    destruct (Ascii.eqb c ","); [intros E'; apply IHe in E'; lia|].
    destruct (Ascii.eqb c "]"); [intros [= _ <-]; lia|discriminate].
Qed.

(** Fuel beyond twice the length of the input changes nothing. *)
Lemma parse_fuel_mono (f : nat) :
  (forall s f', (2 * String.length s + 1 <= f)%nat -> (f <= f')%nat ->
     parse_value f' s = parse_value f s) /\
  (forall s acc f', (2 * String.length s + 1 <= f)%nat -> (f <= f')%nat ->
     parse_members f' s acc = parse_members f s acc) /\
  (forall s acc f', (2 * String.length s + 2 <= f)%nat -> (f <= f')%nat ->
     parse_elements f' s acc = parse_elements f s acc).
Proof.
  induction f as [|f (IHv & IHm & IHe)]; [repeat split; intros; lia|]. split; [|split].
  - intros s [|f'] Hs Hf; [lia|]. cbn [parse_value]. pose proof (skip_ws_length s).
    destruct (skip_ws s) as [|c s']; [reflexivity|]. simpl in *.
    rewrite (IHm s' [] f'), (IHe s' [] f') by lia. reflexivity.
  - intros s acc [|f'] Hs Hf; [lia|]. cbn [parse_members]. pose proof (skip_ws_length s).
    destruct (expect dq (skip_ws s)) as [s1|] eqn:E1; [|reflexivity]. apply expect_length in E1.
    destruct (parse_str_body s1) as [[k s2]|] eqn:E2; [|reflexivity].
    apply (parse_str_body_length (String.length s1)) in E2; [|lia]. pose proof (skip_ws_length s2).
    destruct (expect ":" (skip_ws s2)) as [s3|] eqn:E3; [|reflexivity]. apply expect_length in E3.
    rewrite (IHv s3 f') by lia.
    destruct (parse_value f s3) as [[v s4]|] eqn:E4; [|reflexivity]. apply (proj1 (parse_length f)) in E4.
    pose proof (skip_ws_length s4). destruct (skip_ws s4) as [|c s5]; [reflexivity|]. simpl in *.
    rewrite (IHm s5 _ f') by lia. reflexivity.
  - intros s acc [|f'] Hs Hf; [lia|]. cbn [parse_elements].
    rewrite (IHv s f') by lia.
    destruct (parse_value f s) as [[v s1]|] eqn:E; [|reflexivity]. apply (proj1 (parse_length f)) in E.
    pose proof (skip_ws_length s1). destruct (skip_ws s1) as [|c s2]; [reflexivity|]. simpl in *.
    rewrite (IHe s2 _ f') by lia. reflexivity.
Qed.

(** Termination of [JSON.parse]: the three mutually recursive
    readers never run out of the fuel [parse] gives them, twice the
    length of the text plus one.  With any larger fuel the value read
    is the same, so a [None] of [parse] is the [SyntaxError] of an
    ill-formed text, never an exhausted bound. *)
Theorem parse_fuel_adequate_value (text : string) (f : nat) :
  (S (2 * String.length text) <= f)%nat ->
  parse text = match parse_value f text with
               | Some (v, rest) => if String.eqb (skip_ws rest) "" then Some v else None
               | None => None
               end.
Proof. intros Hf. unfold parse. now rewrite (proj1 (parse_fuel_mono (S (2 * String.length text))) text f) by lia. Qed.

End ParserLemmas.

End JsonValue.
