(* ===== verification/Generator.v ===== *)
(** * The programme generator: [ProgramTableRow] (App.tsx, lines 227-248)

    [ProgramTableRow] looks up the week's scheme in the four-entry array
    [schemeByWeek], computes the working weight
    [2.5 * Math.ceil((max * percentage) / 2.5)] and the volume
    [(sets * reps * weight).toFixed(0)], and renders the percentage as
    [`${(percentage * 100).toFixed(1)}%`].  Numbers are exact rationals;
    [Number.prototype.toFixed] is modelled from the ECMAScript
    algorithm for values below [10^21] (above, it defers to
    [Number::toString], which is not modelled and yields [None]).

    The theorems characterise the weight as the least multiple of 2.5
    not below the raw load, bound it, show it monotone in the 1RM and
    across the weeks, show that the volume is [24 * weight], a
    multiple of 60 that [toFixed(0)] prints exactly, check the two
    examples of the specification, and show that a week outside [0..3]
    makes the destructuring of [schemeByWeek[week]] throw. *)

From Stdlib Require Import ZArith QArith Qround Qabs Lqa Lia String Ascii List
  DecimalString DecimalN.
From S2P Require Import Prelude.
Import ListNotations.

(** ** [Number.prototype.toFixed] *)

Module ToFixed.
Open Scope string_scope.

(** The decimal digits of a natural number, as [String(n)]. *)
Definition decimal (n : N) : string := NilEmpty.string_of_uint (N.to_uint n).

Fixpoint zeros (n : nat) : string :=
  match n with O => "" | S n' => String "0"%char (zeros n') end.

(** Step 10.b of [toFixed] for [f <> 0]: left-pad [m] with zeros to
    [f + 1] digits and put the decimal point before the last [f]. *)
Definition insert_point (f : nat) (m : string) : string :=
  let m' := if (String.length m <=? f)%nat
            then zeros (f + 1 - String.length m) ++ m else m in
  let k := String.length m' in
  substring 0 (k - f) m' ++ "." ++ substring (k - f) f m'.

(** [n]: the integer for which [n / 10^f - x] is closest to zero,
    the larger of two. *)
Definition round_scaled (f : nat) (x : Q) : Z :=
  Qfloor (x * inject_Z (10 ^ Z.of_nat f) + (1 # 2)).

Definition to_fixed (f : nat) (x : Q) : option string :=
  let s := if Qle_bool 0 x then "" else "-" in
  let x' := Qabs x in
  if Qle_bool (inject_Z (10 ^ 21)) x' then None
  else
    let m := decimal (Z.to_N (round_scaled f x')) in
    Some (s ++ (if (f =? 0)%nat then m else insert_point f m)).
End ToFixed.
Import ToFixed.

(** ** The week scheme *)

Record scheme := mk_scheme { sets : Z; reps : Z; percentage : Q }.

Definition schemeByWeek : list scheme :=
  [ mk_scheme 3 8 (575 # 1000);
    mk_scheme 4 6 (65 # 100);
    mk_scheme 6 4 (725 # 1000);
    mk_scheme 8 3 (8 # 10) ].

(** [schemeByWeek[week]]: [undefined] outside the array. *)
Definition scheme_at (week : Z) : option scheme :=
  if (0 <=? week)%Z then nth_error schemeByWeek (Z.to_nat week) else None.

(** ** One row *)

(** [const { sets, reps, percentage } = undefined] throws. *)
Inductive row_error := DestructureUndefined.

Record program_row := mk_row {
  row_sets : Z;
  row_reps : Z;
  row_percentage : option string;
  row_weight : Q;
  row_total : option string
}.

(** [2.5 * Math.ceil((max * percentage) / 2.5)] *)
Definition weight_of (max pct : Q) : Q :=
  (5 # 2) * inject_Z (Qceiling (max * pct / (5 # 2))).

Definition ProgramTableRow (max : Q) (week : Z) : result row_error program_row :=
  match scheme_at week with
  | None => Err DestructureUndefined
  | Some sc =>
      let weight := weight_of max (percentage sc) in
      let total := to_fixed 0 (inject_Z (sets sc * reps sc) * weight) in
      Ok (mk_row (sets sc) (reps sc)
            (option_map (fun t => t ++ "%")%string
               (to_fixed 1 (percentage sc * 100)))
            weight total)
  end.

(** ** [toFixed] on integers *)

Section ToFixedLemmas.
Open Scope Q_scope.

#[export] Instance to_fixed_proper : Proper (eq ==> Qeq ==> eq) to_fixed.
Proof.
  intros f ? <- x y H. unfold to_fixed, round_scaled. cbv zeta.
  assert (E1 : Qle_bool 0 x = Qle_bool 0 y) by now rewrite H.
  assert (E2 : forall c, Qfloor (Qabs x * c + (1 # 2)) = Qfloor (Qabs y * c + (1 # 2)))
    by (intros c; now rewrite H).
  now rewrite E1, !E2, H.
Qed.

Lemma Qfloor_unique (x : Q) (n : Z) :
  inject_Z n <= x -> x < inject_Z (n + 1) -> Qfloor x = n.
Proof.
  intros H1 H2.
  assert (A := Qfloor_le x). assert (B := Qlt_floor x).
  assert (C : (Qfloor x < n + 1)%Z) by (rewrite Zlt_Qlt; lra).
  assert (D : (n < Qfloor x + 1)%Z) by (rewrite Zlt_Qlt; lra).
  lia.
Qed.

(** [toFixed(0)] of a non-negative integer below [10^21] prints it
    exactly. *)
Lemma to_fixed_0_Z (n : Z) :
  (0 <= n < 10 ^ 21)%Z ->
  to_fixed 0 (inject_Z n) = Some (decimal (Z.to_N n)).
Proof.
  intros Hn. unfold to_fixed, round_scaled.
  assert (Hle : 0 <= inject_Z n) by (unfold Qle; simpl; lia).
  rewrite (proj2 (Qle_bool_iff _ _) Hle), (Qabs_pos _ Hle).
  destruct (Qle_bool (inject_Z (10 ^ 21)) (inject_Z n)) eqn:E.
  - apply Qle_bool_iff in E. rewrite <- Zle_Qle in E. lia.
  - change (inject_Z (10 ^ Z.of_nat 0)) with 1.
    rewrite (Qfloor_unique _ n); [reflexivity| |]; rewrite ?inject_Z_plus;
      change (inject_Z 1) with 1; pose proof (Qabs_pos _ Hle); lra.
Qed.
End ToFixedLemmas.

(** ** The weight *)

Section Weight.
Open Scope Q_scope.

Lemma div_five_halves (x : Q) : x / (5 # 2) == x * (2 # 5).
Proof. reflexivity. Qed.

Lemma Qceiling_le_iff (x : Q) (z : Z) : (Qceiling x <= z)%Z <-> x <= inject_Z z.
Proof.
  split; intros H.
  - apply (Qle_trans _ (inject_Z (Qceiling x))); [apply Qle_ceiling|].
    now rewrite <- Zle_Qle.
  - rewrite <- (Qceiling_Z z). now apply Qceiling_resp_le.
Qed.

(** [weight_of max pct] is below a multiple [2.5 z] exactly when the
    raw load is: it is the least multiple of 2.5 not below it. *)
Lemma weight_le_multiple_iff (max pct : Q) (z : Z) :
  weight_of max pct <= (5 # 2) * inject_Z z <-> max * pct <= (5 # 2) * inject_Z z.
Proof.
  unfold weight_of.
  rewrite (Qmult_le_l _ _ (5 # 2)) by reflexivity.
  rewrite <- Zle_Qle, Qceiling_le_iff, div_five_halves.
  split; intros; lra.
Qed.

Lemma weight_ge_raw (max pct : Q) : max * pct <= weight_of max pct.
Proof.
  unfold weight_of.
  assert (H := Qle_ceiling (max * pct / (5 # 2))).
  assert (E := div_five_halves (max * pct)).
  set (c := Qceiling _) in *. lra.
Qed.

Lemma weight_lt_raw (max pct : Q) : weight_of max pct < max * pct + (5 # 2).
Proof.
  unfold weight_of.
  assert (H := Qceiling_lt (max * pct / (5 # 2))).
  assert (E := div_five_halves (max * pct)).
  set (c := Qceiling _) in *.
  assert (F : inject_Z (c - 1) == inject_Z c - 1) by (unfold Qeq; simpl; lia).
  lra.
Qed.

Lemma weight_mono (m1 m2 p1 p2 : Q) :
  m1 * p1 <= m2 * p2 -> weight_of m1 p1 <= weight_of m2 p2.
Proof.
  intros H. unfold weight_of.
  rewrite (Qmult_le_l _ _ (5 # 2)) by reflexivity.
  rewrite <- Zle_Qle. apply Qceiling_resp_le.
  apply Qmult_le_compat_r; [exact H|discriminate].
Qed.

Lemma weight_multiple (max pct : Q) :
  exists z : Z, weight_of max pct = (5 # 2) * inject_Z z.
Proof. eexists. reflexivity. Qed.
End Weight.

#[export] Hint Resolve weight_ge_raw weight_lt_raw : lifts.

(** ** The scheme table *)

Lemma scheme_at_range (w : Z) (sc : scheme) : scheme_at w = Some sc -> (0 <= w <= 3)%Z.
Proof.
  unfold scheme_at. destruct (Z.leb_spec 0 w) as [Hw|Hw]; [|discriminate]. intros H.
  assert (Z.to_nat w < length schemeByWeek)%nat by (apply nth_error_Some; congruence).
  simpl in *. lia.
Qed.

Lemma scheme_at_defined (w : Z) : (0 <= w <= 3)%Z -> exists sc, scheme_at w = Some sc.
Proof.
  intros Hw. unfold scheme_at. rewrite (proj2 (Z.leb_le 0 w)) by lia.
  destruct (nth_error schemeByWeek (Z.to_nat w)) eqn:E; [eauto|].
  apply nth_error_None in E. simpl in E. lia.
Qed.

(** [week_cases w] splits a week known to be in [0..3] into its four
    values. *)
Ltac week_cases w :=
  let H := fresh "Hw" in
  assert (H : (w = 0 \/ w = 1 \/ w = 2 \/ w = 3)%Z) by lia;
  destruct H as [H|[H|[H|H]]]; subst w.

Lemma scheme_at_facts (w : Z) (sc : scheme) :
  scheme_at w = Some sc ->
  (sets sc * reps sc = 24)%Z /\ (0 < percentage sc <= 1)%Q.
Proof.
  intros H. pose proof (scheme_at_range _ _ H).
  week_cases w; injection H as <-; (split; [reflexivity|]); simpl; split; lra.
Qed.

Lemma scheme_at_percentage_mono (w1 w2 : Z) (s1 s2 : scheme) :
  scheme_at w1 = Some s1 -> scheme_at w2 = Some s2 -> (w1 <= w2)%Z ->
  (percentage s1 <= percentage s2)%Q.
Proof.
  intros H1 H2 Hle.
  pose proof (scheme_at_range _ _ H1). pose proof (scheme_at_range _ _ H2).
  week_cases w1; week_cases w2; try lia;
    injection H1 as <-; injection H2 as <-; simpl; lra.
Qed.

Lemma ProgramTableRow_Ok (max : Q) (week : Z) (row : program_row) :
  ProgramTableRow max week = Ok row ->
  exists sc, scheme_at week = Some sc /\
    row_weight row = weight_of max (percentage sc) /\
    row_total row = to_fixed 0 (inject_Z (sets sc * reps sc) * weight_of max (percentage sc)).
Proof.
  unfold ProgramTableRow. destruct (scheme_at week) as [sc|]; [|discriminate].
  intros H. injection H as <-. eauto.
Qed.

(** ** Properties of [ProgramTableRow] *)

Section RowProperties.
Open Scope Q_scope.

(** C3. The working weight of a row is a multiple of 2.5, and it is
    at most a multiple [2.5 z] exactly when [max * percentage] is: it
    is the least multiple of 2.5 not below the raw load. *)
Theorem ProgramTableRow_weight_least (max : Q) (week : Z) (sc : scheme) (row : program_row) :
  scheme_at week = Some sc ->
  ProgramTableRow max week = Ok row ->
  (exists z : Z, row_weight row = (5 # 2) * inject_Z z) /\
  (forall z : Z, row_weight row <= (5 # 2) * inject_Z z <->
                 max * percentage sc <= (5 # 2) * inject_Z z).
Proof.
  intros Hsc (sc' & Hsc' & -> & _)%ProgramTableRow_Ok.
  rewrite Hsc in Hsc'. injection Hsc' as <-.
  split; [apply weight_multiple|]. intros z. apply weight_le_multiple_iff.
Qed.

Lemma weight_index_bound (max pct : Q) :
  0 <= max <= inject_Z (10 ^ 19) -> 0 < pct <= 1 ->
  (0 <= Qceiling (max * pct / (5 # 2)) <= 4 * 10 ^ 18)%Z.
Proof.
  intros Hm Hp.
  assert (H0 : 0 <= max * pct) by (apply Qmult_le_0_compat; lra).
  assert (H1 : max * pct <= inject_Z (10 ^ 19)) by nra.
  split.
  - rewrite <- (Qceiling_Z 0). apply Qceiling_resp_le.
    rewrite div_five_halves. change (inject_Z 0) with 0. lra.
  - apply Qceiling_le_iff. rewrite div_five_halves.
    rewrite inject_Z_mult. change (inject_Z 4) with 4.
    assert (E : inject_Z (10 ^ 18) == inject_Z (10 ^ 19) * (1 # 10)) by reflexivity.
    set (t := inject_Z (10 ^ 19)) in *. lra.
Qed.

(** C4. For a 1RM in [0, 10^19], the volume cell is exact: every
    scheme has [sets * reps = 24], so the volume is [24 * weight],
    [60 z] for the weight [2.5 z], and [toFixed(0)] prints that
    integer with no rounding. *)
Theorem ProgramTableRow_total_exact (max : Q) (week : Z) (row : program_row) :
  0 <= max <= inject_Z (10 ^ 19) ->
  ProgramTableRow max week = Ok row ->
  exists z : Z, (0 <= z)%Z /\ row_weight row = (5 # 2) * inject_Z z /\
    row_total row = Some (decimal (Z.to_N (60 * z))).
Proof.
  intros Hm (sc & Hsc & -> & ->)%ProgramTableRow_Ok.
  destruct (scheme_at_facts _ _ Hsc) as [H24 Hp].
  pose proof (weight_index_bound _ _ Hm Hp) as Hz.
  set (z := Qceiling _) in *.
  exists z. split; [lia|split; [reflexivity|]].
  rewrite H24. unfold weight_of. fold z.
  rewrite (to_fixed_proper 0%nat 0%nat eq_refl _ (inject_Z (60 * z)))
    by (rewrite inject_Z_mult; change (inject_Z 24) with (24 # 1);
        change (inject_Z 60) with (60 # 1); lra).
  apply to_fixed_0_Z. lia.
Qed.


(** C21. For a non-negative 1RM the working weight never decreases
    from one week to a later one (the percentages rise 57.5, 65,
    72.5, 80). *)
Theorem ProgramTableRow_weight_progressive (max : Q) (w1 w2 : Z) (r1 r2 : program_row) :
  0 <= max -> (w1 <= w2)%Z ->
  ProgramTableRow max w1 = Ok r1 ->
  ProgramTableRow max w2 = Ok r2 ->
  row_weight r1 <= row_weight r2.
Proof.
  intros Hm Hw (s1 & H1 & -> & _)%ProgramTableRow_Ok (s2 & H2 & -> & _)%ProgramTableRow_Ok.
  pose proof (scheme_at_percentage_mono _ _ _ _ H1 H2 Hw).
  apply weight_mono. nra.
Qed.
End RowProperties.

(** C19. [ProgramTableRow] throws exactly for a week outside [0..3]:
    [schemeByWeek[week]] is then [undefined] and its destructuring
    raises a [TypeError]. *)
Theorem ProgramTableRow_error_iff (max : Q) (week : Z) :
  ProgramTableRow max week = Err DestructureUndefined <-> (week < 0 \/ 3 < week)%Z.
Proof.
  unfold ProgramTableRow.
  destruct (scheme_at week) as [sc|] eqn:E.
  - apply scheme_at_range in E. split; [discriminate|lia].
  - split; [|reflexivity]. intros _.
    destruct (Z_le_dec 0 week), (Z_le_dec week 3); try lia.
    destruct (scheme_at_defined week) as [sc Hsc]; [lia|congruence].
Qed.

(** The two worked examples of the specification: a 1RM of 160 in
    week 1 gives 3 x 8 at 57.5% with 92.5 and a volume of 2220; a 1RM
    of 240 in week 4 gives 8 x 3 at 80.0% with 192.5 and 4620. *)
Example ProgramTableRow_spec_examples :
  ProgramTableRow 160 0 = Ok (mk_row 3 8 (Some "57.5%") (185 # 2) (Some "2220")) /\
  ProgramTableRow 240 3 = Ok (mk_row 8 3 (Some "80.0%") (385 # 2) (Some "4620")).
Proof. split; vm_compute; reflexivity. Qed.

(** ** Witnesses *)

Definition row_160_0 : program_row := mk_row 3 8 (Some "57.5%") (185 # 2) (Some "2220").
Definition row_240_3 : program_row := mk_row 8 3 (Some "80.0%") (385 # 2) (Some "4620").
Definition row_240_0 : program_row := mk_row 3 8 (Some "57.5%") (280 # 2) (Some "3360").

Lemma ProgramTableRow_weight_least_witness :
  scheme_at 0 = Some (mk_scheme 3 8 (575 # 1000)) /\
  ProgramTableRow 160 0 = Ok row_160_0 /\
  ((exists z : Z, row_weight row_160_0 = (5 # 2) * inject_Z z) /\
   (forall z : Z, (row_weight row_160_0 <= (5 # 2) * inject_Z z <->
                   160 * (575 # 1000) <= (5 # 2) * inject_Z z)%Q)).
Proof.
  split; [reflexivity|split; [vm_compute; reflexivity|]].
  apply (ProgramTableRow_weight_least 160 0 (mk_scheme 3 8 (575 # 1000)));
    vm_compute; reflexivity.
Defined.

Lemma ProgramTableRow_total_exact_witness :
  (0 <= 240 <= inject_Z (10 ^ 19))%Q /\ ProgramTableRow 240 3 = Ok row_240_3 /\
  exists z : Z, (0 <= z)%Z /\ row_weight row_240_3 = (5 # 2) * inject_Z z /\
    row_total row_240_3 = Some (decimal (Z.to_N (60 * z))).
Proof.
  assert (Hm : (0 <= 240 <= inject_Z (10 ^ 19))%Q) by (split; vm_compute; discriminate).
  assert (Hr : ProgramTableRow 240 3 = Ok row_240_3) by (vm_compute; reflexivity).
  split; [exact Hm|split; [exact Hr|]].
  exact (ProgramTableRow_total_exact 240 3 row_240_3 Hm Hr).
Defined.


Lemma ProgramTableRow_weight_progressive_witness :
  (0 <= 240)%Q /\ (0 <= 3)%Z /\ ProgramTableRow 240 0 = Ok row_240_0 /\
  ProgramTableRow 240 3 = Ok row_240_3 /\ (row_weight row_240_0 <= row_weight row_240_3)%Q.
Proof.
  assert (H1 : ProgramTableRow 240 0 = Ok row_240_0) by (vm_compute; reflexivity).
  assert (H2 : ProgramTableRow 240 3 = Ok row_240_3) by (vm_compute; reflexivity).
  assert (Hm : (0 <= 240)%Q) by (vm_compute; discriminate).
  assert (Hw : (0 <= 3)%Z) by lia.
  split; [exact Hm|split; [exact Hw|split; [exact H1|split; [exact H2|]]]].
  exact (ProgramTableRow_weight_progressive 240 0 3 row_240_0 row_240_3 Hm Hw H1 H2).
Defined.
