(* ===== verification/Double.v ===== *)
(** * The weight in IEEE doubles

    [ProgramTableRow] computes [2.5 * Math.ceil((max * percentage) / 2.5)]
    and [(sets * reps * weight).toFixed(0)] on JS numbers, that is IEEE
    754 binary64 doubles with rounding to nearest, ties to even, after
    every operation; the literals [0.575], [0.65], [0.725], [0.8] denote
    the doubles nearest to those decimals.  [Generator] computes over
    exact rationals.  This file models the double computation and shows
    that both agree on the 1RMs a user enters.

    [round] is the rounding of a rational to the nearest double of 53
    significant bits, ties to even, for magnitudes in the normal range
    (the values met here lie between [2^-1022] and [2^1024]; subnormals
    and overflow are not modelled).  [Math.ceil] of a double and the
    multiplication by an integer-valued double are computed exactly
    and then rounded like every other operation.

    Theorems: [round] returns a double (a 53-bit significand times a
    power of two) nearest to its argument; for every 1RM that is a
    multiple of 0.5 up to 1000 and every week, the double computation
    yields the weight and the volume of the rational model. *)

From Stdlib Require Import ZArith QArith Qround Qabs Qpower String List Lia Lqa.
From S2P Require Import Prelude Generator.
Import ListNotations.

Module Double.
Local Open Scope Q_scope.

Definition pow2 (e : Z) : Q := Qpower (2 # 1) e.

Definition Qltb (x y : Q) : bool := negb (Qle_bool y x).

(** The integer nearest to [x], the even one on a tie. *)
Definition nearest_even (x : Q) : Z :=
  let f := Qfloor x in
  match Qcompare (x - inject_Z f) (1 # 2) with
  | Lt => f
  | Gt => f + 1
  | Eq => if Z.even f then f else f + 1
  end.

(** The exponent [e] with [2^52 <= a * 2^-e < 2^53], for [a > 0]. *)
Definition binade (a : Q) : Z :=
  let k := (Z.log2 (Qnum a) - Z.log2 (Zpos (Qden a)) - 52)%Z in
  if Qltb (a * pow2 (- k)) (pow2 52) then (k - 1)%Z else k.

(** [m * 2^e] as a fraction whose numerator is odd or whose
    denominator is 1: the factors of two are moved from [m] into the
    exponent, at most [fuel] of them. *)
Fixpoint strip2 (fuel : nat) (m e : Z) : Z * Z :=
  match fuel with
  | O => (m, e)
  | S f =>
      if ((e <? 0)%Z && Z.even m && negb (m =? 0)%Z)%bool
      then strip2 f (Z.div2 m) (e + 1)%Z else (m, e)
  end.

Definition dyadic (m e : Z) : Q :=
  let '(m', e') := strip2 64 m e in
  if (0 <=? e')%Z then inject_Z (m' * 2 ^ e') else m' # Z.to_pos (2 ^ (- e')).

(** Rounding to the nearest double. *)
Definition round (q : Q) : Q :=
  if Qeq_bool q 0 then 0
  else
    let a := Qabs q in
    let e := binade a in
    let m := nearest_even (a * pow2 (- e)) in
    dyadic ((if Qltb q 0 then -1 else 1) * m) e.

Definition mul (a b : Q) : Q := round (a * b).
Definition div (a b : Q) : Q := round (a / b).

(** [2.5 * Math.ceil((max * percentage) / 2.5)] for the double [pd]. *)
Definition weight_from (max pd : Q) : Q :=
  mul (5 # 2) (inject_Z (Qceiling (div (mul max pd) (5 # 2)))).

(** The weight, with the percentage literal read as a double. *)
Definition weight_double (max pct : Q) : Q := weight_from max (round pct).

(** [sets * reps * weight]: the product of two integers, then the
    weight. *)
Definition volume_double (sets reps : Z) (w : Q) : Q :=
  mul (round (inject_Z (sets * reps))) w.

(** [ProgramTableRow] on doubles: the same destructuring, the weight,
    [(percentage * 100).toFixed(1)] and [(sets * reps * weight).toFixed(0)]
    of the double values ([toFixed] reads the exact value of the
    double it is given). *)
Definition ProgramTableRow_double (max : Q) (week : Z) : result row_error program_row :=
  match scheme_at week with
  | None => Err DestructureUndefined
  | Some sc =>
      let weight := weight_double max (percentage sc) in
      let total := ToFixed.to_fixed 0 (volume_double (sets sc) (reps sc) weight) in
      Ok (mk_row (sets sc) (reps sc)
            (option_map (fun t => t ++ "%")%string
               (ToFixed.to_fixed 1 (mul (round (percentage sc)) 100)))
            weight total)
  end.

Definition opt_str_eqb (a b : option string) : bool :=
  match a, b with
  | Some x, Some y => String.eqb x y
  | None, None => true
  | _, _ => false
  end.

(** The double weight and volume agree with the rational ones at the
    1RM [max] in every week; [lits] pairs each scheme with the doubles
    of its percentage and of [sets * reps], computed once. *)
Definition agrees_at (lits : list (scheme * Q * Q)) (max : Q) : bool :=
  forallb (fun l =>
    let '(sc, pd, sr) := l in
    let w := weight_of max (percentage sc) in
    let wd := weight_from max pd in
    Qeq_bool wd w && Qeq_bool (round (sr * wd)) (inject_Z (sets sc * reps sc) * w))
    lits.

Definition scheme_literals : list (scheme * Q * Q) :=
  map (fun sc => (sc, round (percentage sc), round (inject_Z (sets sc * reps sc)))) schemeByWeek.

(** The percentage texts agree in every week. *)
Definition percent_agrees : bool :=
  forallb (fun sc =>
    opt_str_eqb (ToFixed.to_fixed 1 (mul (round (percentage sc)) 100))
                (ToFixed.to_fixed 1 (percentage sc * 100)))
    schemeByWeek.

(** ** Rounding *)

Lemma Qltb_spec (x y : Q) : Qltb x y = true <-> x < y.
Proof.
  unfold Qltb. rewrite negb_true_iff. split; intros H.
  - apply Qnot_le_lt. intros Hle. apply Qle_bool_iff in Hle. congruence.
  - destruct (Qle_bool y x) eqn:E; [|reflexivity]. apply Qle_bool_iff in E. lra.
Qed.

Lemma Qltb_false (x y : Q) : Qltb x y = false -> y <= x.
Proof. unfold Qltb. rewrite negb_false_iff. apply Qle_bool_iff. Qed.

Lemma pow2_plus (x y : Z) : pow2 (x + y) == pow2 x * pow2 y.
Proof. unfold pow2. apply Qpower_plus. discriminate. Qed.

Lemma pow2_pos (e : Z) : 0 < pow2 e.
Proof. apply Qpower_0_lt. reflexivity. Qed.

Lemma pow2_Z (z : Z) : (0 <= z)%Z -> pow2 z == inject_Z (2 ^ z).
Proof. intros Hz. unfold pow2. rewrite (Zpower_Qpower 2 z Hz). reflexivity. Qed.

Lemma inject_Z_le_iff (x y : Z) : inject_Z x <= inject_Z y <-> (x <= y)%Z.
Proof. unfold Qle. simpl. lia. Qed.

Lemma inject_Z_lt_iff (x y : Z) : inject_Z x < inject_Z y <-> (x < y)%Z.
Proof. unfold Qlt. simpl. lia. Qed.

(** [2^log2 n <= n < 2^(log2 n + 1)], read in [Q]. *)
Lemma log2_bracket (n : Z) : (0 < n)%Z ->
  pow2 (Z.log2 n) <= inject_Z n /\ inject_Z n < pow2 (Z.log2 n + 1).
Proof.
  intros Hn. destruct (Z.log2_spec n Hn) as [H1 H2].
  pose proof (Z.log2_nonneg n).
  rewrite !pow2_Z by lia. rewrite inject_Z_le_iff, inject_Z_lt_iff.
  rewrite <- Z.add_1_r in H2. lia.
Qed.

Lemma binade_spec (a : Q) : 0 < a ->
  pow2 52 <= a * pow2 (- binade a) /\ a * pow2 (- binade a) < pow2 53.
Proof.
  intros Ha. destruct a as [n d].
  assert (Hn : (0 < n)%Z) by (unfold Qlt in Ha; simpl in Ha; lia).
  destruct (log2_bracket n Hn) as [Hn1 Hn2].
  destruct (log2_bracket (Zpos d) eq_refl) as [Hd1 Hd2].
  set (A := Z.log2 n) in *. set (B := Z.log2 (Zpos d)) in *.
  assert (Hq : (n # d) * inject_Z (Zpos d) == inject_Z n)
    by (unfold Qeq; simpl; lia).
  set (P := pow2 (- (A - B - 52))).
  assert (HP : 0 < P) by apply pow2_pos.
  assert (E1 : pow2 A * P == pow2 51 * pow2 (B + 1)).
  { unfold P. rewrite <- !pow2_plus. now replace (A + - (A - B - 52))%Z with (51 + (B + 1))%Z by lia. }
  assert (E2 : pow2 (A + 1) * P == pow2 53 * pow2 B).
  { unfold P. rewrite <- !pow2_plus. now replace (A + 1 + - (A - B - 52))%Z with (53 + B)%Z by lia. }
  assert (Hd : 0 < inject_Z (Zpos d)) by reflexivity.
  assert (Hlow : pow2 51 < (n # d) * P).
  { apply (Qmult_lt_r _ _ (inject_Z (Zpos d)) Hd).
    setoid_replace ((n # d) * P * inject_Z (Zpos d)) with (inject_Z n * P)
      by (rewrite <- Hq; ring).
    pose proof (pow2_pos 51). nra. }
  assert (Hup : (n # d) * P < pow2 53).
  { apply (Qmult_lt_r _ _ (inject_Z (Zpos d)) Hd).
    setoid_replace ((n # d) * P * inject_Z (Zpos d)) with (inject_Z n * P)
      by (rewrite <- Hq; ring).
    pose proof (pow2_pos 53). nra. }
  assert (E3 : pow2 52 == pow2 51 * 2) by (rewrite <- (pow2_plus 51 1); reflexivity).
  assert (E4 : pow2 (- (A - B - 52 - 1)) == P * 2).
  { unfold P. replace (- (A - B - 52 - 1))%Z with (- (A - B - 52) + 1)%Z by lia.
    rewrite pow2_plus. reflexivity. }
  unfold binade. cbn [Qnum Qden]. fold A B. fold P.
  destruct (Qltb ((n # d) * P) (pow2 52)) eqn:Hlt.
  - apply Qltb_spec in Hlt. rewrite E4.
    assert (E5 : pow2 53 == pow2 52 * 2) by (rewrite <- (pow2_plus 52 1); reflexivity).
    setoid_replace ((n # d) * (P * 2)) with ((n # d) * P * 2) by ring.
    set (x := (n # d) * P) in *. split; lra.
  - apply Qltb_false in Hlt. split; [exact Hlt|exact Hup].
Qed.

Lemma nearest_even_spec (x : Q) : Qabs (x - inject_Z (nearest_even x)) <= 1 # 2.
Proof.
  unfold nearest_even. set (f := Qfloor x).
  pose proof (Qfloor_le x) as H1. pose proof (Qlt_floor x) as H2. fold f in H1, H2.
  rewrite inject_Z_plus in H2. change (inject_Z 1) with 1 in H2.
  apply Qabs_Qle_condition.
  destruct (Qcompare_spec (x - inject_Z f) (1 # 2)) as [H|H|H].
  - destruct (Z.even f); rewrite ?inject_Z_plus; change (inject_Z 1) with 1; split; lra.
  - split; lra.
  - rewrite inject_Z_plus. change (inject_Z 1) with 1. split; lra.
Qed.

Lemma nearest_even_range (x : Q) :
  pow2 52 <= x < pow2 53 -> (2 ^ 52 <= nearest_even x <= 2 ^ 53)%Z.
Proof.
  intros [Hlo Hhi]. pose proof (nearest_even_spec x) as H.
  apply Qabs_Qle_condition in H.
  rewrite (pow2_Z 52), (pow2_Z 53) in * by lia.
  set (m := nearest_even x) in *.
  assert (Hl : inject_Z (2 ^ 52 - 1) < inject_Z m).
  { assert (E : inject_Z (2 ^ 52 - 1) == inject_Z (2 ^ 52) - 1) by (unfold Qeq; simpl; lia).
    rewrite E. lra. }
  assert (Hu : inject_Z m < inject_Z (2 ^ 53 + 1)).
  { assert (E : inject_Z (2 ^ 53 + 1) == inject_Z (2 ^ 53) + 1) by (unfold Qeq; simpl; lia).
    rewrite E. lra. }
  rewrite inject_Z_lt_iff in Hl, Hu. lia.
Qed.

Lemma strip2_spec (fuel : nat) (m e : Z) :
  let '(m', e') := strip2 fuel m e in inject_Z m' * pow2 e' == inject_Z m * pow2 e.
Proof.
  revert m e. induction fuel as [|f IH]; intros m e; simpl; [reflexivity|].
  destruct ((e <? 0)%Z && Z.even m && negb (m =? 0)%Z)%bool eqn:H; [|reflexivity].
  apply andb_prop in H as [[Hneg Hev]%andb_prop _].
  specialize (IH (Z.div2 m) (e + 1)%Z). destruct (strip2 f (Z.div2 m) (e + 1)%Z) as [m' e'].
  rewrite IH, pow2_plus. change (pow2 1) with (2 # 1).
  assert (Hodd : Z.odd m = false) by (rewrite <- Z.negb_even, Hev; reflexivity).
  assert (Hm : m = (2 * Z.div2 m)%Z) by (rewrite (Z.div2_odd m) at 1; rewrite Hodd; simpl; lia).
  rewrite Hm at 2. rewrite inject_Z_mult. change (inject_Z 2) with (2 # 1). ring.
Qed.

Lemma dyadic_spec (m e : Z) : dyadic m e == inject_Z m * pow2 e.
Proof.
  unfold dyadic. pose proof (strip2_spec 64 m e) as H.
  destruct (strip2 64 m e) as [m' e']. rewrite <- H.
  destruct (Z.leb_spec 0 e') as [He|He].
  - rewrite (pow2_Z e' He), <- inject_Z_mult. reflexivity.
  - assert (Hp : (0 < 2 ^ (- e'))%Z) by (apply Z.pow_pos_nonneg; lia).
    rewrite Qmake_Qdiv, Z2Pos.id by exact Hp.
    replace e' with (- (- e'))%Z at 2 by lia. unfold pow2. rewrite Qpower_opp.
    rewrite <- (Zpower_Qpower 2 (- e')) by lia. reflexivity.
Qed.

(** [round] is the rounding to the nearest double: for a positive
    rational it returns a 53-bit significand [m] (at most [2^53], the
    value reached when rounding up carries into the next binade) times
    a power of two [2^e], within half a unit in the last place,
    [2^(e-1)], of its argument. *)
Theorem round_nearest (q : Q) : 0 < q ->
  exists m e : Z, round q == inject_Z m * pow2 e /\ (2 ^ 52 <= m <= 2 ^ 53)%Z /\
    Qabs (q - round q) <= pow2 (e - 1).
Proof.
  intros Hq. unfold round.
  destruct (Qeq_bool q 0) eqn:E0; [apply Qeq_bool_iff in E0; lra|].
  destruct (Qltb q 0) eqn:Eneg; [apply Qltb_spec in Eneg; lra|].
  destruct q as [n d].
  assert (Hn : (0 < n)%Z) by (unfold Qlt in Hq; simpl in Hq; lia).
  assert (Habs : Qabs (n # d) = n # d) by (simpl; now rewrite Z.abs_eq by lia).
  rewrite Habs. destruct (binade_spec (n # d) Hq) as [Hlo Hhi].
  set (e := binade (n # d)) in *. set (x := (n # d) * pow2 (- e)) in *.
  exists (nearest_even x), e.
  rewrite dyadic_spec, Z.mul_1_l.
  split; [reflexivity|split; [now apply nearest_even_range|]].
  assert (Hx : (n # d) == x * pow2 e).
  { unfold x. rewrite <- Qmult_assoc, <- pow2_plus.
    replace (- e + e)%Z with 0%Z by lia. change (pow2 0) with 1. ring. }
  assert (Hp : pow2 e == pow2 (e - 1) * 2).
  { rewrite <- (pow2_plus (e - 1) 1). now replace (e - 1 + 1)%Z with e by lia. }
  pose proof (nearest_even_spec x) as Hm. pose proof (pow2_pos (e - 1)) as Hpos.
  set (m := nearest_even x) in *.
  setoid_replace ((n # d) - inject_Z m * pow2 e) with ((x - inject_Z m) * pow2 e)
    by (rewrite Hx; ring).
  rewrite Qabs_Qmult, (Qabs_pos (pow2 e)) by (apply Qlt_le_weak, pow2_pos).
  rewrite Hp. set (u := Qabs (x - inject_Z m)) in *. nra.
Qed.

(** ** Agreement with the rational model *)

Lemma opt_str_eqb_eq (a b : option string) : opt_str_eqb a b = true -> a = b.
Proof.
  destruct a, b; simpl; try discriminate; [|reflexivity].
  now intros ->%String.eqb_eq.
Qed.

(** Every 1RM that is a multiple of 0.5 up to 1000, checked by
    evaluation. *)
Lemma agrees_up_to_1000 :
  (let lits := scheme_literals in forallb (fun n => agrees_at lits (Z.of_nat n # 2)) (seq 0 2001)) = true.
Proof. vm_compute. reflexivity. Qed.

Lemma percent_agrees_ok : percent_agrees = true.
Proof. vm_compute. reflexivity. Qed.

Lemma scheme_at_In (w : Z) (sc : scheme) : scheme_at w = Some sc -> In sc schemeByWeek.
Proof.
  unfold scheme_at. destruct (0 <=? w)%Z; [|discriminate]. apply nth_error_In.
Qed.

(** C12. On the 1RMs a user enters, multiples of 0.5 up to 1000, the
    row computed with doubles, rounding after every operation, shows
    the same cells as the row of the rational model in every week: the
    same percentage text, the same weight and the same volume text. *)
Theorem ProgramTableRow_double_agrees (n : nat) (week : Z) :
  (n <= 2000)%nat -> (0 <= week <= 3)%Z ->
  exists r rd, ProgramTableRow (Z.of_nat n # 2) week = Ok r /\
    ProgramTableRow_double (Z.of_nat n # 2) week = Ok rd /\
    row_sets rd = row_sets r /\ row_reps rd = row_reps r /\
    row_percentage rd = row_percentage r /\ row_weight rd == row_weight r /\
    row_total rd = row_total r.
Proof.
  intros Hn Hw. destruct (scheme_at_defined week Hw) as [sc Hsc].
  pose proof (scheme_at_In week sc Hsc) as Hin.
  assert (Hn' : In n (seq 0 2001)) by (apply in_seq; lia).
  pose proof (proj1 (forallb_forall _ _) agrees_up_to_1000 n Hn') as Hat.
  assert (Hl : In (sc, round (percentage sc), round (inject_Z (sets sc * reps sc))) scheme_literals)
    by (apply (in_map (fun sc => (sc, round (percentage sc), round (inject_Z (sets sc * reps sc))))), Hin).
  pose proof (proj1 (forallb_forall _ _) Hat _ Hl) as [Hwt Hvol]%andb_prop.
  pose proof (proj1 (forallb_forall _ _) percent_agrees_ok sc Hin) as Hpct.
  apply Qeq_bool_iff in Hwt, Hvol. apply opt_str_eqb_eq in Hpct.
  unfold ProgramTableRow, ProgramTableRow_double. rewrite Hsc.
  do 2 eexists. split; [reflexivity|split; [reflexivity|]]. cbn [row_sets row_reps row_percentage row_weight row_total].
  repeat split; [now rewrite Hpct|exact Hwt|now rewrite Hvol].
Qed.

(** ** Witnesses *)

Lemma ProgramTableRow_double_agrees_witness :
  exists r rd, ProgramTableRow (Z.of_nat 320 # 2) 0 = Ok r /\
    ProgramTableRow_double (Z.of_nat 320 # 2) 0 = Ok rd /\
    row_sets rd = row_sets r /\ row_reps rd = row_reps r /\
    row_percentage rd = row_percentage r /\ row_weight rd == row_weight r /\
    row_total rd = row_total r.
Proof. apply ProgramTableRow_double_agrees; lia. Defined.

End Double.
