(* ===== verification/Week.v ===== *)
(** * The week selector and the programme table: [ProgramTable]
    (App.tsx, lines 250-300)

    [ProgramTable] keeps [week] in React state, starting at 0.  The
    [<<] button is disabled when [week === 0] and otherwise sets
    [week - 1]; the [>>] button is disabled when [week === 3] and
    otherwise sets [week + 1].  A disabled button fires no event, so a
    click on it leaves the state alone.  The body renders one
    [ProgramTableRow] per entry of the registry, sorted by name with
    [localeCompare], at the current week.

    The state machine is [week_step] with its reachability relation
    [week_reachable]; [ProgramTable_rows] is the render.  The
    comparator [localeCompare] is locale-dependent and is a parameter.

    Theorems: the reachable weeks are exactly [0..3] (the invariant by
    rule induction, and each value reached); repeated clicks saturate
    at the bounds; the table of every reachable week renders without
    the [TypeError] of [ProgramTableRow]. *)

From Stdlib Require Import ZArith QArith String List Permutation Lia.
From S2P Require Import Prelude JsObject Generator.
Import ListNotations.

(** ** The selector *)

Inductive week_event := Prev | Next.

(** [disabled={week === 0}] and [disabled={week === 3}] *)
Definition prev_disabled (week : Z) : bool := Z.eqb week 0.
Definition next_disabled (week : Z) : bool := Z.eqb week 3.

Definition week_step (e : week_event) (week : Z) : Z :=
  match e with
  | Prev => if prev_disabled week then week else week - 1
  | Next => if next_disabled week then week else week + 1
  end.

(** [useState(0)] *)
Definition week_init : Z := 0.

Definition run_week (es : list week_event) (week : Z) : Z :=
  fold_left (fun w e => week_step e w) es week.

Inductive week_reachable : Z -> Prop :=
| week_reachable_init : week_reachable week_init
| week_reachable_step (w : Z) (e : week_event) :
    week_reachable w -> week_reachable (week_step e w).

(** ** The table *)

(** [Object.entries(lifts).sort(([n1], [n2]) => n1.localeCompare(n2))
     .map(([name, max]) => <ProgramTableRow name max week />)] *)
Definition ProgramTable_rows (localeCompare : string -> string -> comparison)
    (lifts : list (string * Q)) (week : Z)
  : result row_error (list (string * program_row)) :=
  result_traverse
    (fun e => let? row := ProgramTableRow (snd e) week in Ok (fst e, row))
    (JsObject.sort_by (fun e1 e2 => localeCompare (fst e1) (fst e2))
       (JsObject.entries lifts)).

(** ** Lemmas *)

Lemma week_step_range (e : week_event) (w : Z) :
  (0 <= w <= 3)%Z -> (0 <= week_step e w <= 3)%Z.
Proof.
  unfold week_step, prev_disabled, next_disabled.
  destruct e; [destruct (Z.eqb_spec w 0)|destruct (Z.eqb_spec w 3)]; lia.
Qed.

Lemma week_reachable_range (w : Z) : week_reachable w -> (0 <= w <= 3)%Z.
Proof.
  induction 1; [unfold week_init; lia|now apply week_step_range].
Qed.

Lemma run_week_reachable (es : list week_event) (w : Z) :
  week_reachable w -> week_reachable (run_week es w).
Proof.
  revert w. induction es as [|e es IH]; simpl; intros w Hw; [exact Hw|].
  apply IH. now constructor.
Qed.

Lemma run_week_app (es1 es2 : list week_event) (w : Z) :
  run_week (es1 ++ es2) w = run_week es2 (run_week es1 w).
Proof. unfold run_week. apply fold_left_app. Qed.

Lemma run_week_nexts (n : nat) (w : Z) :
  (0 <= w <= 3)%Z -> run_week (repeat Next n) w = Z.min (w + Z.of_nat n) 3.
Proof.
  revert w. induction n as [|n IH]; intros w Hw; simpl; [lia|].
  unfold next_disabled. destruct (Z.eqb_spec w 3) as [->|Hne].
  - rewrite IH by lia. lia.
  - rewrite IH by lia. lia.
Qed.

Lemma run_week_prevs (n : nat) (w : Z) :
  (0 <= w <= 3)%Z -> run_week (repeat Prev n) w = Z.max (w - Z.of_nat n) 0.
Proof.
  revert w. induction n as [|n IH]; intros w Hw; simpl; [lia|].
  unfold prev_disabled. destruct (Z.eqb_spec w 0) as [->|Hne].
  - rewrite IH by lia. lia.
  - rewrite IH by lia. lia.
Qed.

(** ** Properties *)

(** C5. The weeks the selector can reach from its initial state are
    exactly 0, 1, 2 and 3: the disabled buttons keep it in range, and
    every value of the range is reached. *)
Theorem week_reachable_iff (w : Z) : week_reachable w <-> (0 <= w <= 3)%Z.
Proof.
  split; [apply week_reachable_range|intros Hw].
  replace w with (run_week (repeat Next (Z.to_nat w)) week_init).
  - apply run_week_reachable. constructor.
  - rewrite run_week_nexts by (unfold week_init; lia). unfold week_init. lia.
Qed.

(** C22. However many times [>>] or [<<] is clicked, the week
    saturates: [n] clicks on [>>] from a week [w] give [min (w + n) 3],
    [n] clicks on [<<] give [max (w - n) 0]. *)
Theorem week_clicks_saturate (n : nat) (w : Z) :
  week_reachable w ->
  run_week (repeat Next n) w = Z.min (w + Z.of_nat n) 3 /\
  run_week (repeat Prev n) w = Z.max (w - Z.of_nat n) 0.
Proof.
  intros Hw%week_reachable_range.
  split; [now apply run_week_nexts|now apply run_week_prevs].
Qed.

(** C6. Whatever the registry and the click sequence, the programme
    table renders: in every reachable week each row is computed without
    the [TypeError] of an out-of-range [schemeByWeek[week]], one row per
    lift. *)
Theorem ProgramTable_renders (localeCompare : string -> string -> comparison)
    (lifts : list (string * Q)) (w : Z) :
  week_reachable w ->
  exists rows, ProgramTable_rows localeCompare lifts w = Ok rows /\
    length rows = length lifts.
Proof.
  intros Hw%week_reachable_range.
  destruct (scheme_at_defined w Hw) as [sc Hsc].
  unfold ProgramTable_rows.
  change (length lifts) with (length (JsObject.entries lifts)).
  rewrite <- (Permutation_length (JsObject.sort_by_perm
    (fun e1 e2 => localeCompare (fst e1) (fst e2)) (JsObject.entries lifts))).
  apply result_traverse_ok. intros [name max] _.
  unfold ProgramTableRow. rewrite Hsc. simpl. eauto.
Qed.

(** ** Witnesses *)

Lemma week_clicks_saturate_witness :
  week_reachable 2 /\
  run_week (repeat Next 5) 2 = Z.min (2 + Z.of_nat 5) 3 /\
  run_week (repeat Prev 5) 2 = Z.max (2 - Z.of_nat 5) 0.
Proof.
  assert (H : week_reachable 2).
  { change 2%Z with (run_week [Next; Next] week_init).
    apply run_week_reachable. constructor. }
  split; [exact H|]. exact (week_clicks_saturate 5 2 H).
Defined.

Lemma ProgramTable_renders_witness :
  week_reachable 3 /\
  exists rows, ProgramTable_rows String.compare [("Squat"%string, 240%Q)] 3 = Ok rows /\
    length rows = length [("Squat"%string, 240%Q)].
Proof.
  assert (H : week_reachable 3).
  { change 3%Z with (run_week [Next; Next; Next] week_init).
    apply run_week_reachable. constructor. }
  split; [exact H|]. exact (ProgramTable_renders String.compare _ 3 H).
Defined.
