(* ===== verification/Cells.v ===== *)
(** * What the programme table shows

    [ProgramTable] (App.tsx, lines 250-300) renders a header row, one
    [ProgramTableRow] per lift (lines 238-247: six cells) and a footer
    with the [<<] button, the label [Week {week + 1}] and the [>>]
    button.  React writes a number child with [Number::toString],
    modelled by [JsNumber.to_string] on the decimals with at most six
    fractional digits below [10^9]; a string child as it is.  The cells
    of percentage and volume are the [toFixed] texts of [Generator],
    [None] where [toFixed] would print an exponent (at [10^21] and
    beyond), which the model leaves out.

    Theorems: the weight is a multiple of 2.5, so its text is an
    integer, or an integer followed by [.5]; on every reachable week
    the label reads Week 1 to Week 4. *)

From Stdlib Require Import ZArith QArith Qround String List Lia Lqa.
From S2P Require Import Prelude Json JsNumber Generator Week.
Import ListNotations.

Module Cells.

(** [<td>{weight}</td>] *)
Definition weight_cell (row : program_row) : string := JsNumber.to_string (row_weight row).

(** The six cells of [ProgramTableRow]: [{name}], [{sets}], [{reps}],
    the percentage text, [{weight}] and [{total}]. *)
Definition ProgramTableRow_cells (name : string) (row : program_row) : list (option string) :=
  [Some name; Some (JsNumber.int_text (row_sets row)); Some (JsNumber.int_text (row_reps row));
   row_percentage row; Some (weight_cell row); row_total row].

(** The header cells. *)
Definition ProgramTable_header : list string :=
  ["Lift"; "Sets"; "Reps"; "Percentage"; "Weight"; "Total"]%string.

(** [Week {week + 1}]: the text and the number child, adjacent. *)
Definition week_label (week : Z) : string := ("Week " ++ JsNumber.int_text (week + 1))%string.

(** The table: the header, the rows keyed by name, and the footer:
    whether [<<] is disabled, the label, whether [>>] is disabled. *)
Record program_view := mk_view {
  v_header : list string;
  v_rows : list (string * list (option string));
  v_prev_disabled : bool;
  v_label : string;
  v_next_disabled : bool
}.

Definition ProgramTable_view (localeCompare : string -> string -> comparison)
    (lifts : list (string * Q)) (week : Z) : result row_error program_view :=
  let? rows := ProgramTable_rows localeCompare lifts week in
  Ok (mk_view ProgramTable_header (map (fun e => (fst e, ProgramTableRow_cells (fst e) (snd e))) rows)
        (prev_disabled week) (week_label week) (next_disabled week)).

(** ** Lemmas *)

Lemma millionths_weight (c : Z) : JsNumber.millionths ((5 # 2) * inject_Z c) = (2500000 * c)%Z.
Proof.
  unfold JsNumber.millionths. cbn [Qnum Qden Qmult inject_Z].
  replace (5 * c * 1000000)%Z with (2500000 * c * 2)%Z by ring.
  apply Z.div_mul. discriminate.
Qed.

(** The text of [2.5 c] for [c >= 0]. *)
Lemma to_string_weight (c : Z) : (0 <= c)%Z ->
  JsNumber.to_string ((5 # 2) * inject_Z c) =
    (JsNumber.int_text (5 * c / 2) ++ (if Z.odd c then ".5" else ""))%string.
Proof.
  intros Hc. unfold JsNumber.to_string. rewrite millionths_weight.
  destruct (Z.ltb_spec (2500000 * c) 0) as [|_]; [lia|]. cbn [String.append].
  rewrite Z.abs_eq by lia.
  destruct (Z.Even_or_Odd c) as [[k ->]|[k ->]].
  - assert (E1 : (2500000 * (2 * k) / 1000000 = 5 * k)%Z) by (symmetry; apply Z.div_unique with 0%Z; lia).
    assert (E2 : (5 * (2 * k) / 2 = 5 * k)%Z) by (symmetry; apply Z.div_unique with 0%Z; lia).
    assert (E3 : (2500000 * (2 * k) mod 1000000 = 0)%Z) by (symmetry; apply Z.mod_unique with (5 * k)%Z; lia).
    rewrite E1, E2, E3, Z.odd_mul. reflexivity.
  - assert (E1 : (2500000 * (2 * k + 1) / 1000000 = 5 * k + 2)%Z)
      by (symmetry; apply Z.div_unique with 500000%Z; lia).
    assert (E2 : (5 * (2 * k + 1) / 2 = 5 * k + 2)%Z) by (symmetry; apply Z.div_unique with 1%Z; lia).
    assert (E3 : (2500000 * (2 * k + 1) mod 1000000 = 500000)%Z)
      by (symmetry; apply Z.mod_unique with (5 * k + 2)%Z; lia).
    rewrite E1, E2, E3, (Z.add_comm (2 * k) 1), Z.odd_add_mul_2. reflexivity.
Qed.

(** ** Properties *)

Section Weight.
Local Open Scope Q_scope.

(** C30. For a 1RM in [[0, 10^8]], the weight cell shows the weight as
    [Number::toString] does: the weight [2.5 z] lies in the domain where
    [JsNumber.to_string] is [Number::toString], and its text is the
    integer [5z/2] (rounded down), followed by [.5] when [z] is odd:
    never more than one decimal, never a trailing zero. *)
Theorem weight_cell_text (max : Q) (week : Z) (row : program_row) :
  0 <= max <= inject_Z (10 ^ 8) -> ProgramTableRow max week = Ok row ->
  exists z : Z, (0 <= z)%Z /\ row_weight row = (5 # 2) * inject_Z z /\
    JsNumber.in_domain (row_weight row) = true /\
    weight_cell row = (JsNumber.int_text (5 * z / 2) ++ (if Z.odd z then ".5" else ""))%string.
Proof.
  unfold weight_cell. intros Hm (sc & Hsc & -> & _)%ProgramTableRow_Ok.
  destruct (scheme_at_facts _ _ Hsc) as [_ Hp].
  assert (Hm19 : 0 <= max <= inject_Z (10 ^ 19)).
  { split; [apply Hm|]. apply (Qle_trans _ (inject_Z (10 ^ 8))); [apply Hm|].
    rewrite <- Zle_Qle. lia. }
  pose proof (weight_index_bound _ _ Hm19 Hp) as Hz.
  pose proof (weight_lt_raw max (percentage sc)) as Hlt.
  unfold weight_of in *. set (z := Qceiling _) in *.
  assert (Hraw : max * percentage sc <= inject_Z (10 ^ 8)) by nra.
  assert (Hzb : (z <= 4 * 10 ^ 7)%Z).
  { assert (Hq : inject_Z z < inject_Z (4 * 10 ^ 7 + 1)).
    { rewrite inject_Z_plus, inject_Z_mult. change (inject_Z 4) with 4. change (inject_Z 1) with 1.
      assert (E : inject_Z (10 ^ 8) == 10 * inject_Z (10 ^ 7)) by reflexivity.
      set (t := inject_Z (10 ^ 7)) in *. set (zq := inject_Z z) in *.
      assert (E2 : (5 # 2) * zq == 5 * zq / 2) by (field; discriminate). lra. }
    rewrite <- Zlt_Qlt in Hq. lia. }
  exists z. split; [lia|split; [reflexivity|split]].
  - unfold JsNumber.in_domain. rewrite millionths_weight. cbn [Qnum Qden Qmult inject_Z].
    replace (5 * z * 1000000)%Z with (2500000 * z * 2)%Z by ring.
    rewrite Z.mod_mul by discriminate. apply andb_true_intro. split; [reflexivity|].
    apply Z.ltb_lt. rewrite Z.abs_eq by lia. lia.
  - apply to_string_weight. lia.
Qed.
End Weight.

(** ** The table's text *)

(** On every week the selector can reach, the label reads Week 1 to
    Week 4. *)
Lemma week_label_reachable (w : Z) :
  week_reachable w -> In (week_label w) ["Week 1"; "Week 2"; "Week 3"; "Week 4"]%string.
Proof.
  intros Hw. apply week_reachable_range in Hw.
  assert (Hc : w = 0%Z \/ w = 1%Z \/ w = 2%Z \/ w = 3%Z) by lia.
  destruct Hc as [->|[->|[->| ->]]]; simpl; tauto.
Qed.

(** ** Witnesses *)

Lemma weight_cell_text_witness :
  (0 <= 160 <= inject_Z (10 ^ 8))%Q /\ ProgramTableRow 160 0 = Ok row_160_0 /\
  exists z : Z, (0 <= z)%Z /\ row_weight row_160_0 = (5 # 2) * inject_Z z /\
    JsNumber.in_domain (row_weight row_160_0) = true /\
    weight_cell row_160_0 = (JsNumber.int_text (5 * z / 2) ++ (if Z.odd z then ".5" else ""))%string.
Proof.
  assert (Hm : (0 <= 160 <= inject_Z (10 ^ 8))%Q) by (split; vm_compute; discriminate).
  assert (Hr : ProgramTableRow 160 0 = Ok row_160_0) by (vm_compute; reflexivity).
  split; [exact Hm|split; [exact Hr|]].
  exact (weight_cell_text 160 0 row_160_0 Hm Hr).
Defined.

End Cells.
