(* ===== verification/Lifts.v ===== *)
(** * The lift registry and its table: [defaultLifts] and [LiftsTable]
    (App.tsx, lines 7-21 and 144-225)

    The registry is the JS object [lifts] of the context; [LiftsTable]
    mutates it through three handlers, each a [setLifts] updater:

    - the [onSave] of an existing row keyed [name] (lines 165-171):
      [delete liftsState[name]; liftsState[lift.name] = lift.max];
    - the [onDelete] of a row (lines 172-177):
      [delete liftsState[lift.name]];
    - the [onSave] of the new-lift row (lines 186-202): an [alert] and
      no change when [!lift.name] or when [lifts[lift.name]] is truthy,
      otherwise [liftsState[lift.name] = lift.max] and
      [setIsAddingNewLift(false)].

    Each updater returns the spread copy [{ ...liftsState }], equal to
    the mutated object.  The table's own state is [isAddingNewLift],
    set by the [+] button and cleared by Cancel.  [table_step] is one
    user event on the pair (registry, flag); it is [None] for an event
    whose button is not rendered.

    The abstract registry of the specification is a [gmap] with
    validated [add], [rename] and idempotent [remove] ([spec_exec]);
    [code_exec] runs the same commands through the handlers, and the
    simulation theorem relates them through [JsObject.to_map].  The
    theorems also pin down where the code departs from the
    specification: the truthiness duplicate test, the members of
    [Object.prototype], the ['__proto__'] key and the unchecked rename.
    The seed holds nine lifts where the specification announces ten. *)

From Stdlib Require Import String QArith List.
From stdpp Require Import base gmap strings.
From S2P Require Import Prelude JsObject.
Import ListNotations.

Abbreviation lifts_obj := (list (string * Q)).

(** ** The seed registry (lines 7-21) *)

Definition defaultLifts : lifts_obj :=
  JsObject.of_literal
    [("Bench Press", 160); ("Incline Dumbbell Press", 60);
     ("Squat", 240); ("Deadlift", 280);
     ("Barbell Overhead Press", 100); ("Dumbbell Overhead Press", 50);
     ("Dips", 90); ("Close-Grip Bench Press", 140);
     ("Pull-ups", 50)]%string%Q.

(** ** The handlers *)

(** JS truthiness of [lifts[name]]: a number is falsy when it is 0; an
    inherited member of [Object.prototype] is a function or an object,
    truthy; [undefined] is falsy. *)
Definition truthy (r : JsObject.prop_read Q) : bool :=
  match r with
  | JsObject.Own q => negb (Qeq_bool q 0)
  | JsObject.Inherited => true
  | JsObject.Absent => false
  end.

(** The two [alert]s of the add handler. *)
Inductive add_error :=
| NameMissing   (* 'Please choose a name for the lift' *)
| NameExists.   (* 'lift with such name already exists!' *)

(** The [onSave] of the new-lift row (lines 186-202). *)
Definition add_lift (lifts : lifts_obj) (name : string) (max : Q)
  : result add_error lifts_obj :=
  if String.eqb name "" then Err NameMissing
  else if truthy (JsObject.read name lifts) then Err NameExists
  else Ok (JsObject.set name max lifts).

(** The [onSave] of the row keyed [key] (lines 165-171). *)
Definition save_lift (key name : string) (max : Q) (lifts : lifts_obj) : lifts_obj :=
  JsObject.set name max (JsObject.delete key lifts).

(** The [onDelete] of a row (lines 172-177), with the name the row
    passes. *)
Definition delete_lift (name : string) (lifts : lifts_obj) : lifts_obj :=
  JsObject.delete name lifts.

(** ** The table (lines 144-225) *)

Record table := mk_table { lifts : lifts_obj; isAddingNewLift : bool }.

Inductive table_event :=
| ClickAdd                                      (* the [+] button *)
| AddSave (name : string) (max : Q)             (* Save of the new row *)
| AddCancel                                     (* Cancel of the new row *)
| RowSave (key : string) (name : string) (max : Q)  (* Save of row [key] *)
| RowDelete (key : string) (name : string).     (* Delete of row [key] *)

(** One event: the new table and the alert raised, if any.  Row events
    need the row [key] to be rendered, that is an own key of [lifts];
    the add row's buttons exist only while [isAddingNewLift]. *)
Definition table_step (e : table_event) (t : table) : option (table * option add_error) :=
  match e with
  | ClickAdd =>
      if isAddingNewLift t then None else Some (mk_table (lifts t) true, None)
  | AddCancel =>
      if isAddingNewLift t then Some (mk_table (lifts t) false, None) else None
  | AddSave name max =>
      if isAddingNewLift t then
        match add_lift (lifts t) name max with
        | Ok l => Some (mk_table l false, None)
        | Err err => Some (t, Some err)
        end
      else None
  | RowSave key name max =>
      if JsObject.has_own key (lifts t)
      then Some (mk_table (save_lift key name max (lifts t)) (isAddingNewLift t), None)
      else None
  | RowDelete key name =>
      if JsObject.has_own key (lifts t)
      then Some (mk_table (delete_lift name (lifts t)) (isAddingNewLift t), None)
      else None
  end.

(** The tables reachable by user events from a loaded registry [o0]. *)
Inductive table_reachable (o0 : lifts_obj) : table -> Prop :=
| table_reachable_init : table_reachable o0 (mk_table o0 false)
| table_reachable_step t e t' a :
    table_reachable o0 t -> table_step e t = Some (t', a) -> table_reachable o0 t'.

(** ** The registry of the specification *)

Module Spec.
(** The commands of the specification's registry (section 4.1):
    [add(name, max)], [rename(oldName, newName, newMax)] and
    [remove(name)]. *)
Inductive command :=
| CAdd (name : string) (max : Q)
| CRename (old new : string) (max : Q)
| CRemove (name : string).

(** The specification's registry: a finite map; [add] fails on an
    empty or present name and leaves the map alone. *)
Definition spec_exec (c : command) (r : gmap string Q) : result add_error (gmap string Q) :=
  match c with
  | CAdd n m =>
      if String.eqb n "" then Err NameMissing
      else match r !! n with
           | Some _ => Err NameExists
           | None => Ok (<[n := m]> r)
           end
  | CRename o n m => Ok (<[n := m]> (base.delete o r))
  | CRemove n => Ok (base.delete n r)
  end.

(** The same commands through the handlers of [LiftsTable]. *)
Definition code_exec (c : command) (o : lifts_obj) : result add_error lifts_obj :=
  match c with
  | CAdd n m => add_lift o n m
  | CRename k n m => Ok (save_lift k n m o)
  | CRemove n => Ok (delete_lift n o)
  end.

(** The commands on which the handlers and the specification agree:
    an [add] whose name is neither bound to 0 nor an absent member of
    [Object.prototype], a [rename] that does not target an absent
    ['__proto__']. *)
Definition faithful (c : command) (o : lifts_obj) : bool :=
  match c with
  | CAdd n _ =>
      match JsObject.get n o with
      | Some q => negb (Qeq_bool q 0)
      | None => negb (JsObject.is_proto_member n)
      end
  | CRename k n _ =>
      negb (String.eqb n "__proto__") || JsObject.has_own n (JsObject.delete k o)
  | CRemove _ => true
  end.

(** A session: each command either takes effect or is refused with
    the state unchanged, and the user goes on. *)
Definition code_run (cs : list command) (o : lifts_obj) : lifts_obj :=
  fold_left (fun o c => match code_exec c o with Ok o' => o' | Err _ => o end) cs o.

Definition spec_run (cs : list command) (r : gmap string Q) : gmap string Q :=
  fold_left (fun r c => match spec_exec c r with Ok r' => r' | Err _ => r end) cs r.

Fixpoint run_faithful (cs : list command) (o : lifts_obj) : bool :=
  match cs with
  | [] => true
  | c :: cs' =>
      faithful c o &&
      run_faithful cs' (match code_exec c o with Ok o' => o' | Err _ => o end)
  end.
End Spec.

(** ** Lemmas on the handlers *)

Section HandlerLemmas.
Implicit Types (o : lifts_obj) (n k : string) (m : Q).

Lemma proto_is_member : JsObject.is_proto_member "__proto__" = true.
Proof. reflexivity. Qed.

(** A name whose read is falsy is either bound to 0 or absent and not
    a member of [Object.prototype]. *)
Lemma truthy_false_cases n o :
  truthy (JsObject.read n o) = false ->
  (exists q, JsObject.get n o = Some q /\ (q == 0)%Q) \/
  (JsObject.get n o = None /\ JsObject.is_proto_member n = false).
Proof.
  unfold JsObject.read, truthy.
  destruct (JsObject.get n o) as [q|] eqn:E.
  - intros H. left. exists q. split; [reflexivity|].
    apply Qeq_bool_iff. now destruct (Qeq_bool q 0).
  - destruct (JsObject.is_proto_member n) eqn:P; [discriminate|]. auto.
Qed.

(** Assignment binds the name unless it is an absent ['__proto__']. *)
Lemma get_set_same n m o :
  JsObject.has_own n o = true \/ n <> "__proto__"%string ->
  JsObject.get n (JsObject.set n m o) = Some m.
Proof.
  intros H. rewrite JsObject.get_set, str_eqb_refl. simpl.
  destruct H as [->|H]; [reflexivity|].
  now rewrite (str_eqb_neq _ _ H), orb_true_r.
Qed.

Lemma get_set_other n k m o :
  k <> n -> JsObject.get k (JsObject.set n m o) = JsObject.get k o.
Proof. intros H. rewrite JsObject.get_set, (str_eqb_neq _ _ H). reflexivity. Qed.

Lemma truthy_false_lands n m o :
  truthy (JsObject.read n o) = false ->
  JsObject.get n (JsObject.set n m o) = Some m.
Proof.
  intros [(q & Hq & _)|[_ Hp]]%truthy_false_cases; apply get_set_same.
  - left. unfold JsObject.has_own. now rewrite Hq.
  - right. intros ->. discriminate.
Qed.

Lemma add_lift_Ok o n m o' :
  add_lift o n m = Ok o' ->
  o' = JsObject.set n m o /\ n <> ""%string /\ truthy (JsObject.read n o) = false.
Proof.
  unfold add_lift. destruct (String.eqb_spec n ""); [discriminate|].
  destruct (truthy _) eqn:T; [discriminate|]. intros H. injection H as <-. auto.
Qed.

Lemma table_step_wf e t t' a :
  JsObject.wf (lifts t) -> table_step e t = Some (t', a) -> JsObject.wf (lifts t').
Proof.
  intros Hwf. destruct e; simpl.
  - destruct (isAddingNewLift t); [discriminate|]. intros H. injection H as <-. exact Hwf.
  - destruct (isAddingNewLift t); [|discriminate].
    destruct (add_lift _ _ _) eqn:E; intros H; injection H as <- <-; [|exact Hwf].
    apply add_lift_Ok in E as [-> _]. simpl. auto with lifts.
  - destruct (isAddingNewLift t); [|discriminate]. intros H. injection H as <-. exact Hwf.
  - destruct (JsObject.has_own _ _); [|discriminate]. intros H. injection H as <-.
    simpl. unfold save_lift. auto with lifts.
  - destruct (JsObject.has_own _ _); [|discriminate]. intros H. injection H as <-.
    simpl. unfold delete_lift. auto with lifts.
Qed.

Lemma not_proto (n : string) : JsObject.is_proto_member n = false -> n <> "__proto__"%string.
Proof. intros Hn ->. discriminate Hn. Qed.

Lemma add_lift_fresh (o : lifts_obj) (n : string) (m : Q) :
  n <> ""%string -> JsObject.is_proto_member n = false -> JsObject.get n o = None ->
  add_lift o n m = Ok (JsObject.set n m o).
Proof.
  intros Hn Hp Hg. unfold add_lift, truthy, JsObject.read.
  rewrite (str_eqb_neq _ _ Hn), Hg, Hp. reflexivity.
Qed.

Lemma save_lift_same (n : string) (m : Q) (o : lifts_obj) :
  n <> "__proto__"%string ->
  JsObject.get n (save_lift n n m o) = Some m /\
  (forall k, k <> n -> JsObject.get k (save_lift n n m o) = JsObject.get k o).
Proof.
  intros Hn. unfold save_lift. split; [now apply get_set_same; right|].
  intros k Hk. rewrite get_set_other, JsObject.get_delete, (str_eqb_neq _ _ Hk) by exact Hk.
  reflexivity.
Qed.
End HandlerLemmas.

(** ** Properties of the handlers *)

Section HandlerProperties.
Implicit Types (o : lifts_obj) (n k : string) (m : Q).

(** C1. Adding a lift whose name is non-empty and whose read
    [lifts[name]] is falsy succeeds: the new registry maps the name to
    the entered 1RM, every other name keeps its value, and the add row
    closes without an alert. *)
Theorem add_lift_success (o : lifts_obj) (n : string) (m : Q) :
  n <> ""%string -> truthy (JsObject.read n o) = false ->
  table_step (AddSave n m) (mk_table o true) =
    Some (mk_table (JsObject.set n m o) false, None) /\
  JsObject.get n (JsObject.set n m o) = Some m /\
  (forall k, k <> n -> JsObject.get k (JsObject.set n m o) = JsObject.get k o).
Proof.
  intros Hn Ht. split; [|split].
  - simpl. unfold add_lift. now rewrite (str_eqb_neq _ _ Hn), Ht.
  - now apply truthy_false_lands.
  - intros k Hk. now apply get_set_other.
Qed.

(** C2. The add handler refuses an empty name, and a name whose read
    is truthy, with the matching alert; the registry and the open add
    row are left as they were. *)
Theorem add_lift_rejects (t : table) (n : string) (m : Q) :
  isAddingNewLift t = true ->
  table_step (AddSave ""%string m) t = Some (t, Some NameMissing) /\
  (n <> ""%string -> truthy (JsObject.read n (lifts t)) = true ->
   table_step (AddSave n m) t = Some (t, Some NameExists)).
Proof.
  intros Ha. simpl. rewrite Ha. split; [reflexivity|].
  intros Hn Ht. unfold add_lift. now rewrite (str_eqb_neq _ _ Hn), Ht.
Qed.

(** Deleting is idempotent, and deleting a name that is not
    present leaves the registry unchanged. *)
Theorem delete_lift_idempotent (n : string) (o : lifts_obj) :
  delete_lift n (delete_lift n o) = delete_lift n o /\
  (JsObject.get n o = None -> delete_lift n o = o).
Proof.
  split; [apply JsObject.delete_idem|apply JsObject.delete_absent].
Qed.

(** C14. Saving the row keyed [k] with name [n] and 1RM [m] binds
    [n] to [m] (for any [n] but an absent ['__proto__']), unbinds [k]
    when [n] differs, keeps every other lift, and silently replaces a
    lift already called [n]. *)
Theorem save_lift_spec (k n : string) (m : Q) (o : lifts_obj) :
  n <> "__proto__"%string ->
  JsObject.get n (save_lift k n m o) = Some m /\
  (k <> n -> JsObject.get k (save_lift k n m o) = None) /\
  (forall j, j <> k -> j <> n -> JsObject.get j (save_lift k n m o) = JsObject.get j o).
Proof.
  intros Hn. unfold save_lift. split; [|split].
  - apply get_set_same. now right.
  - intros Hk. rewrite get_set_other by exact Hk.
    rewrite JsObject.get_delete. now rewrite str_eqb_refl.
  - intros j Hjk Hjn. rewrite get_set_other by exact Hjn.
    rewrite JsObject.get_delete. now rewrite (str_eqb_neq _ _ Hjk).
Qed.
End HandlerProperties.

(** ** Refinement of the specification's registry *)

Section Refinement.
Import Spec.

Lemma code_exec_refines (c : command) (o : lifts_obj) :
  faithful c o = true ->
  result_map JsObject.to_map (code_exec c o) = spec_exec c (JsObject.to_map o).
Proof.
  destruct c as [n m|k n m|n]; simpl; intros Hf.
  - unfold add_lift. destruct (String.eqb_spec n ""); [reflexivity|].
    rewrite JsObject.lookup_to_map. unfold JsObject.read.
    destruct (JsObject.get n o) as [q|] eqn:E; simpl.
    + now rewrite Hf.
    + apply negb_true_iff in Hf. rewrite Hf. simpl.
      f_equal. apply JsObject.set_refines. right. intros ->. discriminate.
  - unfold save_lift. f_equal.
    rewrite JsObject.set_refines, JsObject.delete_refines; [reflexivity|].
    destruct (String.eqb_spec n "__proto__"); simpl in Hf; [now left|now right].
  - f_equal. apply JsObject.delete_refines.
Qed.

(** C13. Refinement: along any session of adds, renames and removes on
    which the handlers are faithful (see [faithful]), the registry the
    handlers build, abstracted to a finite map, is the registry of the
    specification. *)
Theorem code_run_refines (cs : list command) (o : lifts_obj) :
  run_faithful cs o = true ->
  JsObject.to_map (code_run cs o) = spec_run cs (JsObject.to_map o).
Proof.
  unfold code_run, spec_run. revert o.
  induction cs as [|c cs IH]; simpl; intros o Hf; [reflexivity|].
  apply andb_true_iff in Hf as [Hc Hf].
  rewrite IH by exact Hf. f_equal.
  pose proof (code_exec_refines c o Hc) as E.
  destruct (code_exec c o); simpl in E; rewrite <- E; reflexivity.
Qed.
End Refinement.

(** ** Where the handlers and the specification part ways *)

Section Divergences.
Import Spec.
Implicit Types (o : lifts_obj) (n k : string) (m : Q).

(** C15. The duplicate test is [if (lifts[lift.name])], a truthiness
    test: a lift whose 1RM is 0 is not seen, and adding a lift of the
    same name overwrites it, where the specification refuses a
    present name. *)
Theorem add_lift_overwrites_zero (o : lifts_obj) (n : string) (q m : Q) :
  n <> ""%string -> JsObject.get n o = Some q -> (q == 0)%Q ->
  add_lift o n m = Ok (JsObject.set n m o) /\
  JsObject.get n (JsObject.set n m o) = Some m /\
  spec_exec (CAdd n m) (JsObject.to_map o) = Err NameExists.
Proof.
  intros Hn Hq H0.
  assert (Ht : truthy (JsObject.read n o) = false).
  { unfold JsObject.read, truthy. rewrite Hq.
    apply Qeq_bool_iff in H0. now rewrite H0. }
  split; [|split].
  - unfold add_lift. now rewrite (str_eqb_neq _ _ Hn), Ht.
  - now apply truthy_false_lands.
  - simpl. rewrite (str_eqb_neq _ _ Hn), JsObject.lookup_to_map, Hq. reflexivity.
Qed.

(** C16. A name that is a member of [Object.prototype] ("toString",
    "constructor", "__proto__", ...) reads as an inherited, truthy
    value: adding it is refused as a duplicate although no lift has
    that name, where the specification accepts it. *)
Theorem add_lift_rejects_proto_member (o : lifts_obj) (n : string) (m : Q) :
  JsObject.is_proto_member n = true -> JsObject.get n o = None ->
  add_lift o n m = Err NameExists /\
  spec_exec (CAdd n m) (JsObject.to_map o) = Ok (<[n := m]> (JsObject.to_map o)).
Proof.
  intros Hp Hn.
  assert (Hne : n <> ""%string) by (intros ->; discriminate).
  split.
  - unfold add_lift, JsObject.read. now rewrite (str_eqb_neq _ _ Hne), Hn, Hp.
  - simpl. rewrite (str_eqb_neq _ _ Hne), JsObject.lookup_to_map, Hn. reflexivity.
Qed.

(** C17. Renaming a lift to ['__proto__'] loses it: the row's key is
    deleted, and the assignment [liftsState['__proto__'] = max] goes
    to the inherited setter, which ignores a number; the
    specification's rename binds the new name. *)
Theorem save_lift_proto_loses (k : string) (m : Q) (o : lifts_obj) :
  JsObject.has_own "__proto__" o = false ->
  JsObject.to_map (save_lift k "__proto__" m o) = base.delete k (JsObject.to_map o) /\
  spec_exec (CRename k "__proto__" m) (JsObject.to_map o) =
    Ok (<[ "__proto__"%string := m ]> (base.delete k (JsObject.to_map o))).
Proof.
  intros Hp. split; [|reflexivity].
  unfold save_lift. rewrite JsObject.set_proto_noop; [apply JsObject.delete_refines|].
  unfold JsObject.has_own in *. rewrite JsObject.get_delete.
  destruct (String.eqb _ k); [reflexivity|exact Hp].
Qed.

(** C18. The edit handler validates nothing: saving a row with an
    empty name binds the empty string, although the specification
    requires every lift name to be non-empty. *)
Theorem save_row_accepts_empty_name (k : string) (m : Q) (o : lifts_obj) (a : bool) :
  JsObject.has_own k o = true ->
  table_step (RowSave k "" m) (mk_table o a) =
    Some (mk_table (save_lift k "" m o) a, None) /\
  JsObject.get "" (save_lift k "" m o) = Some m.
Proof.
  intros Hk. split.
  - simpl. now rewrite Hk.
  - unfold save_lift. apply get_set_same. right. discriminate.
Qed.
End Divergences.

(** ** Witnesses *)

Section Witnesses.
Import Spec.
Open Scope string_scope.
Open Scope Q_scope.

Lemma add_lift_success_witness :
  "Front Squat" <> "" /\ truthy (JsObject.read "Front Squat" defaultLifts) = false /\
  (table_step (AddSave "Front Squat" 200) (mk_table defaultLifts true) =
     Some (mk_table (JsObject.set "Front Squat" 200 defaultLifts) false, None) /\
   JsObject.get "Front Squat" (JsObject.set "Front Squat" 200 defaultLifts) = Some 200%Q /\
   (forall k, k <> "Front Squat" ->
      JsObject.get k (JsObject.set "Front Squat" 200 defaultLifts) = JsObject.get k defaultLifts)).
Proof.
  assert (H1 : "Front Squat" <> "") by discriminate.
  assert (H2 : truthy (JsObject.read "Front Squat" defaultLifts) = false)
    by (vm_compute; reflexivity).
  split; [exact H1|split; [exact H2|]].
  exact (add_lift_success defaultLifts "Front Squat" 200 H1 H2).
Defined.

Lemma add_lift_rejects_witness :
  isAddingNewLift (mk_table defaultLifts true) = true /\
  (table_step (AddSave "" 100) (mk_table defaultLifts true) =
     Some (mk_table defaultLifts true, Some NameMissing) /\
   ("Squat" <> "" -> truthy (JsObject.read "Squat" (lifts (mk_table defaultLifts true))) = true ->
    table_step (AddSave "Squat" 100) (mk_table defaultLifts true) =
      Some (mk_table defaultLifts true, Some NameExists))) /\
  "Squat" <> "" /\ truthy (JsObject.read "Squat" defaultLifts) = true.
Proof.
  assert (H : isAddingNewLift (mk_table defaultLifts true) = true) by reflexivity.
  split; [exact H|split; [exact (add_lift_rejects (mk_table defaultLifts true) "Squat" 100 H)|]].
  split; [discriminate|vm_compute; reflexivity].
Defined.

Definition session : list command :=
  [CAdd "Front Squat" 200; CRename "Dips" "Weighted Dips" 95; CRemove "Pull-ups";
   CAdd "Squat" 250].

Lemma code_run_refines_witness :
  run_faithful session defaultLifts = true /\
  JsObject.to_map (code_run session defaultLifts) = spec_run session (JsObject.to_map defaultLifts).
Proof.
  assert (H : run_faithful session defaultLifts = true) by (vm_compute; reflexivity).
  split; [exact H|exact (code_run_refines session defaultLifts H)].
Defined.

Lemma delete_lift_idempotent_witness :
  JsObject.get "Front Squat" defaultLifts = None /\
  delete_lift "Front Squat" defaultLifts = defaultLifts /\
  delete_lift "Dips" (delete_lift "Dips" defaultLifts) = delete_lift "Dips" defaultLifts.
Proof.
  assert (H : JsObject.get "Front Squat" defaultLifts = None) by (vm_compute; reflexivity).
  split; [exact H|split].
  - exact (proj2 (delete_lift_idempotent "Front Squat" defaultLifts) H).
  - exact (proj1 (delete_lift_idempotent "Dips" defaultLifts)).
Defined.

Lemma save_lift_spec_witness :
  "Bench" <> "__proto__" /\
  JsObject.get "Bench" (save_lift "Bench Press" "Bench" 165 defaultLifts) = Some 165%Q /\
  ("Bench Press" <> "Bench" ->
   JsObject.get "Bench Press" (save_lift "Bench Press" "Bench" 165 defaultLifts) = None) /\
  (forall j, j <> "Bench Press" -> j <> "Bench" ->
   JsObject.get j (save_lift "Bench Press" "Bench" 165 defaultLifts) = JsObject.get j defaultLifts).
Proof.
  assert (H : "Bench" <> "__proto__") by discriminate.
  split; [exact H|exact (save_lift_spec "Bench Press" "Bench" 165 defaultLifts H)].
Defined.

Lemma add_lift_overwrites_zero_witness :
  let o := JsObject.set "Plank" 0 defaultLifts in
  "Plank" <> "" /\ JsObject.get "Plank" o = Some 0%Q /\ (0 == 0)%Q /\
  add_lift o "Plank" 60 = Ok (JsObject.set "Plank" 60 o) /\
  JsObject.get "Plank" (JsObject.set "Plank" 60 o) = Some 60%Q /\
  spec_exec (CAdd "Plank" 60) (JsObject.to_map o) = Err NameExists.
Proof.
  intros o.
  assert (H1 : "Plank" <> "") by discriminate.
  assert (H2 : JsObject.get "Plank" o = Some 0%Q) by (vm_compute; reflexivity).
  assert (H3 : (0 == 0)%Q) by reflexivity.
  split; [exact H1|split; [exact H2|split; [exact H3|]]].
  exact (add_lift_overwrites_zero o "Plank" 0 60 H1 H2 H3).
Defined.

Lemma add_lift_rejects_proto_member_witness :
  JsObject.is_proto_member "toString" = true /\ JsObject.get "toString" defaultLifts = None /\
  add_lift defaultLifts "toString" 10 = Err NameExists /\
  spec_exec (CAdd "toString" 10) (JsObject.to_map defaultLifts) =
    Ok (<[ "toString" := 10%Q ]> (JsObject.to_map defaultLifts)).
Proof.
  assert (H1 : JsObject.is_proto_member "toString" = true) by reflexivity.
  assert (H2 : JsObject.get "toString" defaultLifts = None) by (vm_compute; reflexivity).
  split; [exact H1|split; [exact H2|]].
  exact (add_lift_rejects_proto_member defaultLifts "toString" 10 H1 H2).
Defined.

Lemma save_lift_proto_loses_witness :
  JsObject.has_own "__proto__" defaultLifts = false /\
  JsObject.to_map (save_lift "Dips" "__proto__" 90 defaultLifts) =
    base.delete "Dips" (JsObject.to_map defaultLifts) /\
  spec_exec (CRename "Dips" "__proto__" 90) (JsObject.to_map defaultLifts) =
    Ok (<[ "__proto__" := 90%Q ]> (base.delete "Dips" (JsObject.to_map defaultLifts))).
Proof.
  assert (H : JsObject.has_own "__proto__" defaultLifts = false) by (vm_compute; reflexivity).
  split; [exact H|exact (save_lift_proto_loses "Dips" 90 defaultLifts H)].
Defined.

Lemma save_row_accepts_empty_name_witness :
  JsObject.has_own "Dips" defaultLifts = true /\
  table_step (RowSave "Dips" "" 90) (mk_table defaultLifts false) =
    Some (mk_table (save_lift "Dips" "" 90 defaultLifts) false, None) /\
  JsObject.get "" (save_lift "Dips" "" 90 defaultLifts) = Some 90%Q.
Proof.
  assert (H : JsObject.has_own "Dips" defaultLifts = true) by (vm_compute; reflexivity).
  split; [exact H|exact (save_row_accepts_empty_name "Dips" 90 defaultLifts false H)].
Defined.
End Witnesses.
