(* ===== verification/Row.v ===== *)
(** * The row editor [LiftTableRow] and the lifts section of the page
    (App.tsx, lines 51-142, composed with lines 144-225)

    [LiftTableRow] keeps three pieces of local state, [name], [max]
    (initialised from its props) and [isEditing] (initially false).  Its
    inputs are disabled unless the row is being edited or is the
    new-lift row; its buttons are Edit (when neither), Save and Cancel
    (when either) and Delete (when editing).  Save calls
    [onSave({ name, max })] with the local values, Delete calls
    [onDelete({ name })] with the local name, Cancel restores the local
    values from the props.  [row_step] is one user event on a row, with
    the callback it makes.

    [LiftsTable] renders one row per key of the registry, keyed by the
    lift name, plus the new-lift row while [isAddingNewLift].  React
    keeps the local state of a row as long as its key is rendered and
    creates it from the props when a key appears ([reconcile]).
    [ui_step] is one event of the lifts section: the row's own update,
    then the table's handler for the callback.

    Theorems: the rows stay keyed by the registry; Edit, change, Save
    writes the new 1RM; Cancel restores the row and leaves the registry;
    a row that is not being edited accepts no input; and two places
    where the page departs from the specification: Delete after editing
    the name field removes the lift with the edited name, and a row
    whose lift was overwritten keeps showing the old 1RM. *)

From Stdlib Require Import String QArith List.
From S2P Require Import Prelude JsObject Lifts.
Import ListNotations.

(** ** One row *)

Record row_props := mk_props { nameProp : string; maxProp : Q; isAddingNew : bool }.

Record row_state := mk_row_state { r_name : string; r_max : Q; r_isEditing : bool }.

(** [useState(nameProp)], [useState(maxProp)], [useState(false)] *)
Definition row_init (p : row_props) : row_state :=
  mk_row_state (nameProp p) (maxProp p) false.

(** The value of an [<input type="number">] is a valid number or the
    empty string; [Number("")] is 0. *)
Inductive number_input := InputEmpty | InputNumber (q : Q).

Definition Number (i : number_input) : Q :=
  match i with InputEmpty => 0%Q | InputNumber q => q end.

Inductive row_event :=
| ChangeName (v : string)
| ChangeMax (v : number_input)
| ClickEdit
| ClickSave
| ClickCancel
| ClickDelete.

(** The callbacks a row makes. *)
Inductive row_call :=
| CallSave (name : string) (max : Q)
| CallDelete (name : string)
| CallCancel.

(** [disabled={!isAddingNew && !isEditing}] *)
Definition inputs_disabled (p : row_props) (s : row_state) : bool :=
  negb (isAddingNew p) && negb (r_isEditing s).

Definition row_step (p : row_props) (e : row_event) (s : row_state)
  : option (row_state * option row_call) :=
  let editable := r_isEditing s || isAddingNew p in
  match e with
  | ChangeName v =>
      if inputs_disabled p s then None
      else Some (mk_row_state v (r_max s) (r_isEditing s), None)
  | ChangeMax v =>
      if inputs_disabled p s then None
      else Some (mk_row_state (r_name s) (Number v) (r_isEditing s), None)
  | ClickEdit =>
      if editable then None
      else Some (mk_row_state (r_name s) (r_max s) true, None)
  | ClickSave =>
      if editable
      then Some (mk_row_state (r_name s) (r_max s) false, Some (CallSave (r_name s) (r_max s)))
      else None
  | ClickCancel =>
      if editable
      then Some (mk_row_state (nameProp p) (maxProp p) false, Some CallCancel)
      else None
  | ClickDelete =>
      if editable && r_isEditing s then Some (s, Some (CallDelete (r_name s))) else None
  end.

(** ** The lifts section *)

Record ui := mk_ui { ui_table : table; ui_rows : list (string * row_state); ui_add_row : row_state }.

(** The props of the row keyed [k] and of the new-lift row. *)
Definition row_props_of (k : string) (v : Q) : row_props := mk_props k v false.
Definition add_props : row_props := mk_props "" 0 true.

(** Keyed reconciliation: a rendered key keeps its state, a new key
    starts from its props, a key no longer rendered loses its state. *)
Definition reconcile (reg : lifts_obj) (rows : list (string * row_state))
  : list (string * row_state) :=
  map (fun e => (fst e, match JsObject.get (fst e) rows with
                        | Some s => s
                        | None => row_init (row_props_of (fst e) (snd e))
                        end)) reg.

Inductive ui_event :=
| OnRow (key : string) (e : row_event)
| OnAddRow (e : row_event)
| ClickPlus.

(** A table event caused by a row callback, followed by the render. *)
Definition after_table (ev : table_event) (u : ui) (rows : list (string * row_state))
    (add_row : row_state) : option (ui * option add_error) :=
  match table_step ev (ui_table u) with
  | Some (t', a) => Some (mk_ui t' (reconcile (lifts t') rows) add_row, a)
  | None => None
  end.

Definition ui_step (ev : ui_event) (u : ui) : option (ui * option add_error) :=
  match ev with
  | ClickPlus =>
      (* the new-lift row mounts with fresh state *)
      after_table ClickAdd u (ui_rows u) (row_init add_props)
  | OnRow k e =>
      match JsObject.get k (ui_rows u), JsObject.get k (lifts (ui_table u)) with
      | Some s, Some v =>
          match row_step (row_props_of k v) e s with
          | None => None
          | Some (s', call) =>
              let rows1 := JsObject.update k s' (ui_rows u) in
              match call with
              | None | Some CallCancel => Some (mk_ui (ui_table u) rows1 (ui_add_row u), None)
              | Some (CallSave n m) => after_table (RowSave k n m) u rows1 (ui_add_row u)
              | Some (CallDelete n) => after_table (RowDelete k n) u rows1 (ui_add_row u)
              end
          end
      | _, _ => None
      end
  | OnAddRow e =>
      if isAddingNewLift (ui_table u) then
        match row_step add_props e (ui_add_row u) with
        | None => None
        | Some (s', call) =>
            match call with
            | None => Some (mk_ui (ui_table u) (ui_rows u) s', None)
            | Some (CallSave n m) => after_table (AddSave n m) u (ui_rows u) s'
            | Some CallCancel => after_table AddCancel u (ui_rows u) s'
            | Some (CallDelete _) => None
            end
        end
      else None
  end.

(** The page after the registry [o0] is loaded. *)
Definition ui_init (o0 : lifts_obj) : ui :=
  mk_ui (mk_table o0 false) (reconcile o0 []) (row_init add_props).

Inductive ui_reachable (o0 : lifts_obj) : ui -> Prop :=
| ui_reachable_init : ui_reachable o0 (ui_init o0)
| ui_reachable_step u ev u' a :
    ui_reachable o0 u -> ui_step ev u = Some (u', a) -> ui_reachable o0 u'.

Fixpoint ui_run (evs : list ui_event) (u : ui) : option ui :=
  match evs with
  | [] => Some u
  | ev :: evs' =>
      match ui_step ev u with
      | Some (u', _) => ui_run evs' u'
      | None => None
      end
  end.

(** ** Lemmas *)

Definition rows_keyed (u : ui) : Prop :=
  map fst (ui_rows u) = map fst (lifts (ui_table u)).

Lemma map_fst_reconcile (reg : lifts_obj) (rows : list (string * row_state)) :
  map fst (reconcile reg rows) = map fst reg.
Proof. unfold reconcile. rewrite map_map. reflexivity. Qed.

Lemma get_reconcile (k : string) (reg : lifts_obj) (rows : list (string * row_state)) :
  JsObject.get k (reconcile reg rows) =
  option_map (fun v => match JsObject.get k rows with
                       | Some s => s
                       | None => row_init (row_props_of k v)
                       end) (JsObject.get k reg).
Proof.
  induction reg as [|[k' v'] reg IH]; simpl; [reflexivity|].
  destruct (String.eqb_spec k k') as [->|]; [reflexivity|exact IH].
Qed.

Lemma get_update_own {V} (k : string) (x : V) (o : list (string * V)) (y : V) :
  JsObject.get k o = Some y -> JsObject.get k (JsObject.update k x o) = Some x.
Proof.
  intros H. rewrite JsObject.get_update, str_eqb_refl.
  unfold JsObject.has_own. now rewrite H.
Qed.

Lemma get_update_other {V} (k l : string) (x : V) (o : list (string * V)) :
  l <> k -> JsObject.get l (JsObject.update k x o) = JsObject.get l o.
Proof. intros H. rewrite JsObject.get_update, (str_eqb_neq _ _ H). reflexivity. Qed.

Lemma after_table_keyed ev u rows add u' a :
  after_table ev u rows add = Some (u', a) -> rows_keyed u'.
Proof.
  unfold after_table. destruct (table_step ev (ui_table u)) as [[t' a']|]; [|discriminate].
  intros H. injection H as <- _. unfold rows_keyed. simpl. apply map_fst_reconcile.
Qed.

Lemma ui_step_keyed ev u u' a :
  rows_keyed u -> ui_step ev u = Some (u', a) -> rows_keyed u'.
Proof.
  intros Hk. destruct ev as [k e|e|]; simpl.
  - destruct (JsObject.get k (ui_rows u)) as [s|]; [|discriminate].
    destruct (JsObject.get k (lifts (ui_table u))) as [v|]; [|discriminate].
    destruct (row_step _ e s) as [[s' [[n m|n|]|]]|]; try discriminate;
      try apply after_table_keyed;
      intros H; injection H as <- _; unfold rows_keyed in *; simpl;
      now rewrite JsObject.map_fst_update.
  - destruct (isAddingNewLift (ui_table u)); [|discriminate].
    destruct (row_step add_props e (ui_add_row u)) as [[s' [[n m|n|]|]]|];
      try discriminate; try apply after_table_keyed.
    intros H. injection H as <- _. exact Hk.
  - apply after_table_keyed.
Qed.

Lemma ui_step_wf ev u u' a :
  JsObject.wf (lifts (ui_table u)) -> ui_step ev u = Some (u', a) ->
  JsObject.wf (lifts (ui_table u')).
Proof.
  assert (Hat : forall tev rows add u' a, JsObject.wf (lifts (ui_table u)) ->
            after_table tev u rows add = Some (u', a) -> JsObject.wf (lifts (ui_table u'))).
  { intros tev rows add u1 a1 Hwf. unfold after_table.
    destruct (table_step tev (ui_table u)) as [[t' a']|] eqn:E; [|discriminate].
    intros H. injection H as <- _. exact (table_step_wf _ _ _ _ Hwf E). }
  intros Hwf. destruct ev as [k e|e|]; simpl.
  - destruct (JsObject.get k (ui_rows u)) as [s|]; [|discriminate].
    destruct (JsObject.get k (lifts (ui_table u))) as [v|]; [|discriminate].
    destruct (row_step _ e s) as [[s' [[n m|n|]|]]|]; try discriminate;
      try (apply Hat; exact Hwf);
      intros H; injection H as <- _; exact Hwf.
  - destruct (isAddingNewLift (ui_table u)); [|discriminate].
    destruct (row_step add_props e (ui_add_row u)) as [[s' [[n m|n|]|]]|];
      try discriminate; try (apply Hat; exact Hwf).
    intros H. injection H as <- _. exact Hwf.
  - apply Hat, Hwf.
Qed.

(** ** Moves of the lifts section: what the user can always do *)

Lemma ui_run_cons (e : ui_event) (evs : list ui_event) (u u1 : ui) (a : option add_error) :
  ui_step e u = Some (u1, a) -> ui_run (e :: evs) u = ui_run evs u1.
Proof. intros H. cbn [ui_run]. now rewrite H. Qed.

Lemma ui_step_row (u : ui) (n : string) (v : Q) (s : row_state) (e : row_event) :
  JsObject.get n (lifts (ui_table u)) = Some v -> JsObject.get n (ui_rows u) = Some s ->
  ui_step (OnRow n e) u =
    match row_step (row_props_of n v) e s with
    | None => None
    | Some (s', call) =>
        let rows1 := JsObject.update n s' (ui_rows u) in
        match call with
        | None | Some CallCancel => Some (mk_ui (ui_table u) rows1 (ui_add_row u), None)
        | Some (CallSave n' m) => after_table (RowSave n n' m) u rows1 (ui_add_row u)
        | Some (CallDelete n') => after_table (RowDelete n n') u rows1 (ui_add_row u)
        end
    end.
Proof. intros Hv Hs. cbn [ui_step]. now rewrite Hs, Hv. Qed.

Lemma rows_keyed_get (u : ui) (n : string) (v : Q) :
  rows_keyed u -> JsObject.get n (lifts (ui_table u)) = Some v ->
  exists s, JsObject.get n (ui_rows u) = Some s.
Proof.
  intros Hk Hv. destruct (JsObject.get n (ui_rows u)) as [s|] eqn:Hs; [eauto|].
  apply JsObject.get_None_not_in in Hs. rewrite Hk in Hs.
  apply JsObject.get_None_not_in in Hs. congruence.
Qed.

Lemma row_open (u : ui) (n : string) (v : Q) (s : row_state) :
  JsObject.get n (lifts (ui_table u)) = Some v -> JsObject.get n (ui_rows u) = Some s ->
  r_isEditing s = false ->
  ui_step (OnRow n ClickEdit) u =
    Some (mk_ui (ui_table u) (JsObject.update n (mk_row_state (r_name s) (r_max s) true) (ui_rows u))
            (ui_add_row u), None).
Proof. intros Hv Hs He. rewrite (ui_step_row _ _ _ _ _ Hv Hs). cbn. now rewrite He. Qed.

(** The row keyed [n], open for editing, saves what is typed into it. *)
Lemma row_retype (u : ui) (n : string) (v m : Q) (s : row_state) :
  JsObject.get n (lifts (ui_table u)) = Some v -> JsObject.get n (ui_rows u) = Some s ->
  r_isEditing s = true ->
  exists u', ui_run [OnRow n (ChangeName n); OnRow n (ChangeMax (InputNumber m)); OnRow n ClickSave] u = Some u' /\
    ui_table u' = mk_table (save_lift n n m (lifts (ui_table u))) (isAddingNewLift (ui_table u)).
Proof.
  intros Hv Hs He. destruct s as [nm mx ed]; cbn in He; subst ed.
  erewrite ui_run_cons by (rewrite (ui_step_row _ _ _ _ _ Hv Hs); reflexivity).
  erewrite ui_run_cons by
    (rewrite (ui_step_row (mk_ui _ _ _) _ _ _ _ Hv (get_update_own _ _ _ _ Hs)); reflexivity).
  cbn [ui_run]. match goal with |- context [ui_step _ ?u1] =>
    rewrite (ui_step_row u1 _ _ _ _ Hv (get_update_own _ _ _ _ (get_update_own _ _ _ _ Hs))) end.
  cbn. unfold after_table. cbn. unfold JsObject.has_own at 1. rewrite Hv. cbn.
  eexists. split; reflexivity.
Qed.

Lemma add_open (u : ui) :
  isAddingNewLift (ui_table u) = false ->
  ui_step ClickPlus u =
    Some (mk_ui (mk_table (lifts (ui_table u)) true) (reconcile (lifts (ui_table u)) (ui_rows u))
            (row_init add_props), None).
Proof. intros Ha. cbn. unfold after_table. cbn. now rewrite Ha. Qed.

(** The add row, once open, adds what is typed into it. *)
Lemma add_retype (u : ui) (n : string) (m : Q) (o' : lifts_obj) :
  isAddingNewLift (ui_table u) = true -> add_lift (lifts (ui_table u)) n m = Ok o' ->
  exists u', ui_run [OnAddRow (ChangeName n); OnAddRow (ChangeMax (InputNumber m)); OnAddRow ClickSave] u = Some u' /\
    ui_table u' = mk_table o' false.
Proof.
  intros Ha Hadd. destruct u as [[o adding] rows [nm mx ed]]; cbn in Ha; subst adding.
  cbn -[add_lift]. unfold after_table. cbn -[add_lift]. cbn in Hadd. rewrite orb_true_r. cbn -[add_lift]. rewrite Hadd. eexists. split; reflexivity.
Qed.

(** From any lifts section whose rows are keyed by the registry, the
    user can give the lift [n] the 1RM [m], the other lifts untouched. *)
Lemma ui_live (u : ui) (n : string) (m : Q) :
  rows_keyed u -> n <> ""%string -> JsObject.is_proto_member n = false ->
  exists evs u', ui_run evs u = Some u' /\
    JsObject.get n (lifts (ui_table u')) = Some m /\
    (forall k, k <> n -> JsObject.get k (lifts (ui_table u')) = JsObject.get k (lifts (ui_table u))).
Proof.
  intros Hk Hn Hp. pose proof (not_proto n Hp) as Hnp.
  destruct (JsObject.get n (lifts (ui_table u))) as [v|] eqn:Hv.
  - destruct (rows_keyed_get u n v Hk Hv) as [s Hs].
    destruct (r_isEditing s) eqn:He.
    + destruct (row_retype u n v m s Hv Hs He) as (u' & Hr & Ht).
      exists [OnRow n (ChangeName n); OnRow n (ChangeMax (InputNumber m)); OnRow n ClickSave], u'.
      rewrite Ht. cbn [lifts]. split; [exact Hr|exact (save_lift_same n m _ Hnp)].
    + set (u1 := mk_ui (ui_table u) (JsObject.update n (mk_row_state (r_name s) (r_max s) true) (ui_rows u))
                   (ui_add_row u)).
      destruct (row_retype u1 n v m _ Hv (get_update_own _ _ _ _ Hs) eq_refl) as (u' & Hr & Ht).
      exists (OnRow n ClickEdit :: [OnRow n (ChangeName n); OnRow n (ChangeMax (InputNumber m)); OnRow n ClickSave]), u'.
      rewrite (ui_run_cons _ _ _ _ _ (row_open u n v s Hv Hs He)), Ht. cbn [lifts].
      split; [exact Hr|exact (save_lift_same n m _ Hnp)].
  - pose proof (add_lift_fresh _ n m Hn Hp Hv) as Hadd.
    assert (Hset : JsObject.get n (JsObject.set n m (lifts (ui_table u))) = Some m /\
              (forall k, k <> n -> JsObject.get k (JsObject.set n m (lifts (ui_table u))) =
                                   JsObject.get k (lifts (ui_table u))))
      by (split; [apply get_set_same; now right|intros k; apply get_set_other]).
    destruct (isAddingNewLift (ui_table u)) eqn:Ha.
    + destruct (add_retype u n m _ Ha Hadd) as (u' & Hr & Ht).
      exists [OnAddRow (ChangeName n); OnAddRow (ChangeMax (InputNumber m)); OnAddRow ClickSave], u'.
      rewrite Ht. split; [exact Hr|exact Hset].
    + destruct (add_retype (mk_ui (mk_table (lifts (ui_table u)) true) (reconcile (lifts (ui_table u)) (ui_rows u))
                  (row_init add_props)) n m _ eq_refl Hadd) as (u' & Hr & Ht).
      exists (ClickPlus :: [OnAddRow (ChangeName n); OnAddRow (ChangeMax (InputNumber m)); OnAddRow ClickSave]), u'.
      rewrite (ui_run_cons _ _ _ _ _ (add_open u Ha)), Ht. split; [exact Hr|exact Hset].
Qed.

(** ** Properties *)

(** C23. Delete on the row keyed [k] removes the lift named by the
    row's local [name], which is the edited name field, not the key:
    every other lift, [k] included when the name was edited, is kept. *)
Theorem row_delete_removes_local_name (u : ui) (k j : string) (q v : Q) :
  JsObject.get k (ui_rows u) = Some (mk_row_state j q true) ->
  JsObject.get k (lifts (ui_table u)) = Some v ->
  exists u', ui_step (OnRow k ClickDelete) u = Some (u', None) /\
    JsObject.get j (lifts (ui_table u')) = None /\
    (forall l, l <> j -> JsObject.get l (lifts (ui_table u')) = JsObject.get l (lifts (ui_table u))).
Proof.
  intros Hs Hv. simpl. rewrite Hs, Hv. simpl.
  unfold after_table. simpl. unfold JsObject.has_own. rewrite Hv.
  eexists. split; [reflexivity|]. simpl. unfold delete_lift.
  split; [rewrite JsObject.get_delete; now rewrite str_eqb_refl|].
  intros l Hl. rewrite JsObject.get_delete. now rewrite (str_eqb_neq _ _ Hl).
Qed.

(** C24. On a row showing its lift unedited, Edit, entering a 1RM and
    Save write that 1RM under the same name, keep every other lift and
    leave the row closed, showing the new value (for any name but
    ['__proto__']). *)
Theorem row_edit_save (u : ui) (k : string) (v : Q) (i : number_input) :
  k <> "__proto__"%string ->
  JsObject.get k (ui_rows u) = Some (mk_row_state k v false) ->
  JsObject.get k (lifts (ui_table u)) = Some v ->
  exists u', ui_run [OnRow k ClickEdit; OnRow k (ChangeMax i); OnRow k ClickSave] u = Some u' /\
    JsObject.get k (lifts (ui_table u')) = Some (Number i) /\
    (forall l, l <> k -> JsObject.get l (lifts (ui_table u')) = JsObject.get l (lifts (ui_table u))) /\
    JsObject.get k (ui_rows u') = Some (mk_row_state k (Number i) false).
Proof.
  intros Hp Hs Hv. simpl. rewrite Hs, Hv. simpl.
  rewrite (get_update_own _ _ _ _ Hs), Hv. simpl.
  rewrite (get_update_own _ _ _ _ (get_update_own _ _ _ _ Hs)), Hv. simpl.
  unfold after_table. simpl. unfold JsObject.has_own. rewrite Hv.
  eexists. split; [reflexivity|]. simpl. unfold save_lift.
  split; [|split].
  - apply get_set_same. now right.
  - intros l Hl. rewrite get_set_other by exact Hl.
    rewrite JsObject.get_delete. now rewrite (str_eqb_neq _ _ Hl).
  - rewrite get_reconcile, get_set_same by now right. simpl.
    now rewrite !(get_update_own _ _ _ _ (get_update_own _ _ _ _ (get_update_own _ _ _ _ Hs))).
Qed.

(** C25. Cancel on a row being edited leaves the registry alone and
    puts the row back to its props: the key as name, the registry's
    1RM, not editing. *)
Theorem row_cancel_restores (u : ui) (k : string) (s : row_state) (v : Q) :
  r_isEditing s = true ->
  JsObject.get k (ui_rows u) = Some s ->
  JsObject.get k (lifts (ui_table u)) = Some v ->
  exists u', ui_step (OnRow k ClickCancel) u = Some (u', None) /\
    ui_table u' = ui_table u /\
    JsObject.get k (ui_rows u') = Some (mk_row_state k v false).
Proof.
  intros He Hs Hv. simpl. rewrite Hs, Hv. simpl. rewrite He. simpl.
  eexists. split; [reflexivity|]. split; [reflexivity|]. simpl.
  exact (get_update_own _ _ _ _ Hs).
Qed.

(** C26. A row that is not being edited accepts no input: its name and
    1RM fields are disabled and only its Edit button is rendered, so no
    event but Edit changes the page. *)
Theorem row_inputs_disabled (u : ui) (k : string) (s : row_state) (e : row_event) :
  r_isEditing s = false ->
  JsObject.get k (ui_rows u) = Some s ->
  e <> ClickEdit ->
  ui_step (OnRow k e) u = None.
Proof.
  intros He Hs Hne. simpl. rewrite Hs.
  destruct (JsObject.get k (lifts (ui_table u))); [|reflexivity].
  unfold row_step, inputs_disabled. rewrite He. simpl.
  destruct e; try reflexivity. now destruct Hne.
Qed.

(** C27. When the add handler overwrites a lift whose 1RM is 0 (see
    C15), the row keyed by that name keeps its local state, so the lifts
    table goes on showing the old 1RM while the registry, and the
    programme table computed from it, hold the new one. *)
Theorem row_state_stale_after_overwrite (u : ui) (n : string) (m q : Q) (s : row_state) :
  isAddingNewLift (ui_table u) = true ->
  ui_add_row u = mk_row_state n m false ->
  n <> ""%string ->
  JsObject.get n (lifts (ui_table u)) = Some q -> (q == 0)%Q ->
  JsObject.get n (ui_rows u) = Some s ->
  exists u', ui_step (OnAddRow ClickSave) u = Some (u', None) /\
    JsObject.get n (lifts (ui_table u')) = Some m /\
    JsObject.get n (ui_rows u') = Some s.
Proof.
  intros Ha Hrow Hn Hq H0 Hs. simpl. rewrite Ha, Hrow. simpl.
  unfold after_table. simpl. rewrite Ha.
  assert (Ht : truthy (JsObject.read n (lifts (ui_table u))) = false).
  { unfold JsObject.read, truthy. rewrite Hq.
    apply Qeq_bool_iff in H0. now rewrite H0. }
  unfold add_lift. rewrite (str_eqb_neq _ _ Hn), Ht.
  eexists. split; [reflexivity|]. simpl. split.
  - now apply truthy_false_lands.
  - rewrite get_reconcile, (truthy_false_lands _ _ _ Ht). simpl. now rewrite Hs.
Qed.

(** ** Witnesses *)

Section Witnesses.
Open Scope string_scope.
Open Scope Q_scope.

Definition page0 : ui := ui_init defaultLifts.

Definition page_after (evs : list ui_event) : ui :=
  match ui_run evs page0 with Some u => u | None => page0 end.

Definition page_dips_renamed : ui :=
  page_after [OnRow "Dips" ClickEdit; OnRow "Dips" (ChangeName "Squat")].

Lemma row_delete_removes_local_name_witness :
  JsObject.get "Dips" (ui_rows page_dips_renamed) = Some (mk_row_state "Squat" 90 true) /\
  JsObject.get "Dips" (lifts (ui_table page_dips_renamed)) = Some 90 /\
  exists u', ui_step (OnRow "Dips" ClickDelete) page_dips_renamed = Some (u', None) /\
    JsObject.get "Squat" (lifts (ui_table u')) = None /\
    (forall l, l <> "Squat" ->
       JsObject.get l (lifts (ui_table u')) = JsObject.get l (lifts (ui_table page_dips_renamed))).
Proof.
  assert (H1 : JsObject.get "Dips" (ui_rows page_dips_renamed) = Some (mk_row_state "Squat" 90 true))
    by (vm_compute; reflexivity).
  assert (H2 : JsObject.get "Dips" (lifts (ui_table page_dips_renamed)) = Some 90)
    by (vm_compute; reflexivity).
  split; [exact H1|split; [exact H2|]].
  exact (row_delete_removes_local_name page_dips_renamed "Dips" "Squat" 90 90 H1 H2).
Defined.

Lemma row_edit_save_witness :
  "Squat" <> "__proto__" /\
  JsObject.get "Squat" (ui_rows page0) = Some (mk_row_state "Squat" 240 false) /\
  JsObject.get "Squat" (lifts (ui_table page0)) = Some 240 /\
  exists u', ui_run [OnRow "Squat" ClickEdit; OnRow "Squat" (ChangeMax (InputNumber 250));
                     OnRow "Squat" ClickSave] page0 = Some u' /\
    JsObject.get "Squat" (lifts (ui_table u')) = Some (Number (InputNumber 250)) /\
    (forall l, l <> "Squat" ->
       JsObject.get l (lifts (ui_table u')) = JsObject.get l (lifts (ui_table page0))) /\
    JsObject.get "Squat" (ui_rows u') = Some (mk_row_state "Squat" (Number (InputNumber 250)) false).
Proof.
  assert (H0 : "Squat" <> "__proto__") by discriminate.
  assert (H1 : JsObject.get "Squat" (ui_rows page0) = Some (mk_row_state "Squat" 240 false))
    by (vm_compute; reflexivity).
  assert (H2 : JsObject.get "Squat" (lifts (ui_table page0)) = Some 240)
    by (vm_compute; reflexivity).
  split; [exact H0|split; [exact H1|split; [exact H2|]]].
  exact (row_edit_save page0 "Squat" 240 (InputNumber 250) H0 H1 H2).
Defined.

Definition page_squat_editing : ui := page_after [OnRow "Squat" ClickEdit].

Lemma row_cancel_restores_witness :
  r_isEditing (mk_row_state "Squat" 240 true) = true /\
  JsObject.get "Squat" (ui_rows page_squat_editing) = Some (mk_row_state "Squat" 240 true) /\
  JsObject.get "Squat" (lifts (ui_table page_squat_editing)) = Some 240 /\
  exists u', ui_step (OnRow "Squat" ClickCancel) page_squat_editing = Some (u', None) /\
    ui_table u' = ui_table page_squat_editing /\
    JsObject.get "Squat" (ui_rows u') = Some (mk_row_state "Squat" 240 false).
Proof.
  assert (H0 : r_isEditing (mk_row_state "Squat" 240 true) = true) by reflexivity.
  assert (H1 : JsObject.get "Squat" (ui_rows page_squat_editing) = Some (mk_row_state "Squat" 240 true))
    by (vm_compute; reflexivity).
  assert (H2 : JsObject.get "Squat" (lifts (ui_table page_squat_editing)) = Some 240)
    by (vm_compute; reflexivity).
  split; [exact H0|split; [exact H1|split; [exact H2|]]].
  exact (row_cancel_restores page_squat_editing "Squat" _ 240 H0 H1 H2).
Defined.

Lemma row_inputs_disabled_witness :
  r_isEditing (mk_row_state "Squat" 240 false) = false /\
  JsObject.get "Squat" (ui_rows page0) = Some (mk_row_state "Squat" 240 false) /\
  ClickDelete <> ClickEdit /\
  ui_step (OnRow "Squat" ClickDelete) page0 = None.
Proof.
  assert (H0 : r_isEditing (mk_row_state "Squat" 240 false) = false) by reflexivity.
  assert (H1 : JsObject.get "Squat" (ui_rows page0) = Some (mk_row_state "Squat" 240 false))
    by (vm_compute; reflexivity).
  assert (H2 : ClickDelete <> ClickEdit) by discriminate.
  split; [exact H0|split; [exact H1|split; [exact H2|]]].
  exact (row_inputs_disabled page0 "Squat" _ ClickDelete H0 H1 H2).
Defined.

Definition page_zero_then_adding : ui :=
  page_after [OnRow "Squat" ClickEdit; OnRow "Squat" (ChangeMax (InputNumber 0));
              OnRow "Squat" ClickSave; ClickPlus; OnAddRow (ChangeName "Squat");
              OnAddRow (ChangeMax (InputNumber 250))].

Lemma row_state_stale_after_overwrite_witness :
  isAddingNewLift (ui_table page_zero_then_adding) = true /\
  ui_add_row page_zero_then_adding = mk_row_state "Squat" 250 false /\
  "Squat" <> "" /\
  JsObject.get "Squat" (lifts (ui_table page_zero_then_adding)) = Some 0 /\ 0 == 0 /\
  JsObject.get "Squat" (ui_rows page_zero_then_adding) = Some (mk_row_state "Squat" 0 false) /\
  exists u', ui_step (OnAddRow ClickSave) page_zero_then_adding = Some (u', None) /\
    JsObject.get "Squat" (lifts (ui_table u')) = Some 250 /\
    JsObject.get "Squat" (ui_rows u') = Some (mk_row_state "Squat" 0 false).
Proof.
  assert (H1 : isAddingNewLift (ui_table page_zero_then_adding) = true) by (vm_compute; reflexivity).
  assert (H2 : ui_add_row page_zero_then_adding = mk_row_state "Squat" 250 false)
    by (vm_compute; reflexivity).
  assert (H3 : "Squat" <> "") by discriminate.
  assert (H4 : JsObject.get "Squat" (lifts (ui_table page_zero_then_adding)) = Some 0)
    by (vm_compute; reflexivity).
  assert (H5 : 0 == 0) by reflexivity.
  assert (H6 : JsObject.get "Squat" (ui_rows page_zero_then_adding) = Some (mk_row_state "Squat" 0 false))
    by (vm_compute; reflexivity).
  do 6 (split; [assumption|]).
  exact (row_state_stale_after_overwrite page_zero_then_adding "Squat" 250 0 _ H1 H2 H3 H4 H5 H6).
Defined.
End Witnesses.
