(* ===== verification/Storage.v ===== *)
(** * Persistence: [LiftsContextProvider] (App.tsx, lines 30-47)

    The provider keeps the registry in React state, initialised to the
    empty object [{}].  Two effects run after the first render, in the
    order they are declared:
    - the first (lines 33-40) reads [localStorage.getItem('lifts')]; if
      the text is truthy (present and not empty) it sets the registry to
      [JSON.parse] of it, otherwise to [defaultLifts];
    - the second (lines 42-44), keyed on [lifts], writes
      [JSON.stringify(lifts)] under ['lifts'].  On the first render it
      writes the empty registry; the state update of the first effect
      makes [lifts] a new object, so it runs again with the loaded one.
    Afterwards every handler that calls [setLifts] hands React a fresh
    object ([{ ...liftsState }]) and the second effect persists it.

    [storage] is the [localStorage] of the origin as a [gmap] of strings;
    [load] is the first effect, [persist] the second, [mount] the first
    render with both effects and the writes it makes, [session_step] one
    user event of the registry table followed by the effect.  The text
    goes through [JSON.parse] on every JSON value ([JsonValue.parse]):
    a text that is not JSON makes it throw, and [load] fails with
    [SyntaxError]; a JSON value that is not an object of numbers
    ([null], an array, a string, an object with a non-number value) is
    set as the state in the browser, and [load] stops with
    [NotARegistry v]: what the page makes of it is not modelled. *)

From Stdlib Require Import String QArith List.
From stdpp Require Import base gmap strings.
From S2P Require Import Prelude JsObject Json JsNumber JsonValue Lifts.
Import ListNotations.

Module Storage.

Definition storage := gmap string string.

Definition storage_key : string := "lifts".

Definition getItem (k : string) (st : storage) : option string := st !! k.

Definition setItem (k v : string) (st : storage) : storage := <[k := v]> st.

(** [JSON.parse] threw, or returned a value that is not a registry. *)
Inductive load_error :=
| SyntaxError
| NotARegistry (v : JsonValue.json).

(** The first effect: [if (liftsLocalStorage)] is false for a missing
    key and for the empty string. *)
Definition load (st : storage) : result load_error lifts_obj :=
  match getItem storage_key st with
  | Some text =>
      if String.eqb text "" then Ok defaultLifts
      else match JsonValue.parse text with
           | None => Err SyntaxError
           | Some v =>
               match JsonValue.registry_of v with
               | Some o => Ok o
               | None => Err (NotARegistry v)
               end
           end
  | None => Ok defaultLifts
  end.

(** The second effect. *)
Definition persist (lifts : lifts_obj) (st : storage) : storage :=
  setItem storage_key (Json.stringify lifts) st.

Record session := mk_session { s_table : table; s_storage : storage }.

(** [useState({})] *)
Definition initial_lifts : lifts_obj := [].

(** The first render and its effects: the load, the write of the
    initial state, the re-render with the loaded registry and its write.
    The list holds the texts written under ['lifts'], in order. *)
Definition mount (st : storage) : result load_error (session * list string) :=
  let? o := load st in
  let st1 := persist initial_lifts st in
  let st2 := persist o st1 in
  Ok (mk_session (mk_table o false) st2, [Json.stringify initial_lifts; Json.stringify o]).

(** Whether the handler of the event called [setLifts]: [onSave] of the
    add row only past its two alerts (lines 188-200), [onSave] and
    [onDelete] of a row always (lines 165-176); the [+] and Cancel
    buttons only toggle [isAddingNewLift]. *)
Definition calls_setLifts (e : table_event) (alert : option add_error) : bool :=
  match e, alert with
  | AddSave _ _, None => true
  | RowSave _ _ _, _ => true
  | RowDelete _ _, _ => true
  | _, _ => false
  end.

Definition session_step (e : table_event) (s : session) : option (session * option add_error) :=
  match table_step e (s_table s) with
  | None => None
  | Some (t', alert) =>
      let st' := if calls_setLifts e alert then persist (lifts t') (s_storage s) else s_storage s in
      Some (mk_session t' st', alert)
  end.

(** The sessions of a page opened on the storage [st0]. *)
Inductive session_reachable (st0 : storage) : session -> Prop :=
| session_reachable_mount s w :
    mount st0 = Ok (s, w) -> session_reachable st0 s
| session_reachable_step s e s' a :
    session_reachable st0 s -> session_step e s = Some (s', a) -> session_reachable st0 s'.


(** ** Lemmas *)

Lemma getItem_persist (o : lifts_obj) (st : storage) :
  getItem storage_key (persist o st) = Some (Json.stringify o).
Proof. apply lookup_insert_eq. Qed.

Lemma persist_persist (o o' : lifts_obj) (st : storage) :
  persist o (persist o' st) = persist o st.
Proof. apply insert_insert_eq. Qed.

Lemma load_wf (st : storage) (o : lifts_obj) : load st = Ok o -> JsObject.wf o.
Proof.
  unfold load. destruct (getItem storage_key st) as [text|].
  - destruct (String.eqb text ""); [intros [= <-]; apply JsObject.wf_of_literal|].
    destruct (JsonValue.parse text) as [v|] eqn:Hp; [|discriminate].
    destruct (JsonValue.registry_of v) as [o'|] eqn:Hr; [|discriminate].
    intros [= <-]. exact (JsonValue.parse_registry_wf text v o' Hp Hr).
  - intros [= <-]. apply JsObject.wf_of_literal.
Qed.

(** Reading back what the second effect wrote. *)
Lemma load_stored (o : lifts_obj) (st : storage) :
  getItem storage_key st = Some (Json.stringify o) ->
  JsObject.wf o -> Forall (fun p => JsNumber.in_domain (snd p) = true) o ->
  load st = Ok (Json.canon o).
Proof.
  intros Hst Hwf Hdom. unfold load. rewrite Hst.
  change (String.eqb (Json.stringify o) "") with false. cbv iota.
  rewrite (JsonValue.parse_registry _ _ (@Json.parse_stringify_gen js_number_codec o Hwf Hdom)).
  cbn [JsonValue.registry_of]. now rewrite JsonValue.num_members_map.
Qed.

Lemma table_step_keeps_lifts (e : table_event) (t t' : table) (a : option add_error) :
  calls_setLifts e a = false -> table_step e t = Some (t', a) -> lifts t' = lifts t.
Proof.
  destruct e; simpl; intros Hc.
  - destruct (isAddingNewLift t); [discriminate|]. now intros [= <- _].
  - destruct (isAddingNewLift t); [|discriminate].
    destruct (add_lift (lifts t) name max); intros [= <- <-]; [discriminate|reflexivity].
  - destruct (isAddingNewLift t); [|discriminate]. now intros [= <- _].
  - discriminate.
  - discriminate.
Qed.

(** The invariant of the sessions: storage holds the text of the
    registry, and the registry has distinct keys in enumeration order. *)
Lemma session_invariant (st0 : storage) (s : session) :
  session_reachable st0 s ->
  getItem storage_key (s_storage s) = Some (Json.stringify (lifts (s_table s))) /\
  JsObject.wf (lifts (s_table s)).
Proof.
  induction 1 as [s w Hm|s e s' a _ [IHget IHwf] Hstep].
  - unfold mount in Hm. destruct (load st0) as [o|] eqn:Hl; [|discriminate].
    injection Hm as <- _. split; [apply getItem_persist|exact (load_wf st0 o Hl)].
  - unfold session_step in Hstep.
    destruct (table_step e (s_table s)) as [[t' a']|] eqn:Ht; [|discriminate].
    injection Hstep as <- <-. cbn [s_table s_storage].
    split; [|exact (table_step_wf e _ _ _ IHwf Ht)].
    destruct (calls_setLifts e a') eqn:Hc; [apply getItem_persist|].
    now rewrite (table_step_keeps_lifts e _ _ _ Hc Ht).
Qed.


(** ** Properties *)

(** C8. Storage mirrors the registry, and a reload restores it: in
    every session of a page, whatever the events, the text stored under
    ['lifts'] is [JSON.stringify] of the registry, and when the values
    of the registry are decimals [Number::toString] prints exactly,
    the first effect of a new page reads back the same registry (same
    keys, same order, the same values in lowest terms). *)
Theorem reload_restores_registry (st0 : storage) (s : session) :
  session_reachable st0 s ->
  getItem storage_key (s_storage s) = Some (Json.stringify (lifts (s_table s))) /\
  (Forall (fun p => JsNumber.in_domain (snd p) = true) (lifts (s_table s)) ->
   load (s_storage s) = Ok (Json.canon (lifts (s_table s)))).
Proof.
  intros Hr. destruct (session_invariant st0 s Hr) as [Hget Hwf].
  split; [exact Hget|]. intros Hdom. exact (load_stored _ _ Hget Hwf Hdom).
Qed.


(** C9. Adding through the add row, with persistence: an add that
    alerts leaves the session, storage included, as it was; an add that
    goes through is stored at once, and the registry a reload reads maps
    the new name to its 1RM. *)
Theorem add_persists (st0 : storage) (s s' : session) (name : string) (max : Q) (a : option add_error) :
  session_reachable st0 s -> session_step (AddSave name max) s = Some (s', a) ->
  match a with
  | Some _ => s' = s
  | None =>
      Forall (fun p => JsNumber.in_domain (snd p) = true) (lifts (s_table s)) ->
      JsNumber.in_domain max = true ->
      exists o, load (s_storage s') = Ok o /\ JsObject.get name o = Some (Qred max)
  end.
Proof.
  intros Hr Hs. destruct (session_invariant st0 s Hr) as [_ Hwf].
  destruct s as [t st]. unfold session_step in Hs. cbn [s_table s_storage table_step] in *.
  destruct (isAddingNewLift t); [|discriminate].
  destruct (add_lift (lifts t) name max) as [o'|err] eqn:Ha; injection Hs as <- <-; [|reflexivity].
  intros Hdom Hmax. apply add_lift_Ok in Ha as (-> & _ & Hfresh).
  exists (Json.canon (JsObject.set name max (lifts t))). split.
  - apply load_stored; [apply getItem_persist|now apply JsObject.wf_set|].
    now apply (JsObject.Forall_set (fun q => JsNumber.in_domain q = true)).
  - rewrite Json.get_canon, truthy_false_lands by exact Hfresh. reflexivity.
Qed.

(** ** Witnesses *)

Lemma domain_check (o : lifts_obj) :
  forallb (fun p => JsNumber.in_domain (snd p)) o = true ->
  Forall (fun p => JsNumber.in_domain (snd p) = true) o.
Proof. intros H. apply List.Forall_forall. intros p Hp. exact (proj1 (List.forallb_forall _ o) H p Hp). Qed.

Section Witnesses.
Local Open Scope string_scope.
Local Open Scope Q_scope.

Definition fresh_session : session :=
  mk_session (mk_table defaultLifts false) (persist defaultLifts ∅).

Definition adding_session : session :=
  mk_session (mk_table defaultLifts true) (persist defaultLifts ∅).

Definition added_session : session :=
  mk_session (mk_table (JsObject.set "Front Squat" (365 # 2) defaultLifts) false)
    (persist (JsObject.set "Front Squat" (365 # 2) defaultLifts) (persist defaultLifts ∅)).

Lemma fresh_reachable : session_reachable ∅ fresh_session.
Proof. eapply session_reachable_mount. vm_compute. reflexivity. Qed.

Lemma adding_reachable : session_reachable ∅ adding_session.
Proof.
  apply (session_reachable_step ∅ fresh_session ClickAdd adding_session None fresh_reachable).
  vm_compute. reflexivity.
Qed.

Lemma reload_restores_registry_witness :
  load (s_storage fresh_session) = Ok (Json.canon (lifts (s_table fresh_session))).
Proof.
  refine (proj2 (reload_restores_registry ∅ fresh_session fresh_reachable) _).
  apply domain_check. vm_compute. reflexivity.
Defined.

Lemma add_step : session_step (AddSave "Front Squat" (365 # 2)) adding_session = Some (added_session, None).
Proof. vm_compute. reflexivity. Qed.

Lemma add_persists_witness :
  exists o, load (s_storage added_session) = Ok o /\ JsObject.get "Front Squat" o = Some (Qred (365 # 2)).
Proof.
  pose proof (add_persists ∅ adding_session added_session "Front Squat" (365 # 2) None
                adding_reachable add_step) as H.
  cbv beta iota in H. apply H.
  - apply domain_check. vm_compute. reflexivity.
  - vm_compute. reflexivity.
Defined.
End Witnesses.

End Storage.
