(* ===== verification/Effects.v ===== *)
(** * React's effects in [LiftsContextProvider] (App.tsx, lines 30-47)

    The provider declares two effects.  React runs them after a render
    is committed, in declaration order, each only when its dependency
    array changed since the previous commit (every element compared with
    [Object.is]); on the first commit every effect runs.  A [setLifts]
    call inside an effect or a handler queues a new state; when the new
    object is not the current one ([Object.is]) React renders again and
    commits, which may run effects again; an identical object is
    ignored (the bail-out of [useState]).

    Objects have an identity: [ref] pairs the identity [Object.is]
    compares with the registry the object holds.  [defaultLifts] is one
    object allocated when the module is evaluated ([default_ref]); the
    [{}] of [useState({})] is the state of the first render
    ([initial_ref]); [JSON.parse] and the handlers' [{ ...liftsState }]
    allocate fresh objects from the counter [heap] of the [world].

    [settle] is the render/commit loop with fuel; [mount_react] the
    first render of the page; [handle] a user event of the lifts table
    followed by the loop.  The theorems show that the dependency arrays
    [[]] (line 40) and [[lifts]] (line 44) make the loop stop and write
    what [Storage.mount] and [Storage.session_step] say: the mount
    settles after two commits, writing ["{}"] and then the loaded
    registry, and after a handler that called [setLifts] one commit
    runs the persist effect once and not the load effect. *)

From Stdlib Require Import String QArith List NArith Lia.
From stdpp Require Import base gmap strings.
From S2P Require Import Prelude JsObject Json JsNumber Lifts Storage.
Import ListNotations.

Module Effects.
Import Storage.

(** A JS object: the identity [Object.is] compares and its contents. *)
Record ref := mk_ref { ref_id : N; ref_val : lifts_obj }.

(** [defaultLifts] (lines 7-21), one object for the life of the page. *)
Definition default_ref : ref := mk_ref 0 defaultLifts.

(** [useState({})] (line 31): the state of the first render. *)
Definition initial_ref : ref := mk_ref 1 initial_lifts.

(** Storage, the next fresh object identity, and the texts written
    under ['lifts'], in order. *)
Record world := mk_world { store : storage; heap : N; writes : list string }.

Definition alloc (w : world) : world := mk_world (store w) (N.succ (heap w)) (writes w).

(** A dependency array: none (run after every render) or the values
    the array holds in a render of the state [lifts]. *)
Inductive deps :=
| AfterEveryRender
| DepsArray (values : ref -> list N).

(** Whether an effect runs at a commit, given the state of the previous
    commit ([None] on the first). *)
Definition due (d : deps) (prev : option ref) (cur : ref) : bool :=
  match prev, d with
  | None, _ => true
  | Some _, AfterEveryRender => true
  | Some p, DepsArray f => negb (bool_decide (f p = f cur))
  end.

(** An effect of a render of [lifts]: the world after it and the value
    it passed to [setLifts], if any; it may throw. *)
Definition effect := ref -> world -> result load_error (world * option ref).

(** [if (liftsLocalStorage)] (line 35). *)
Definition stored_text (st : storage) : bool :=
  match getItem storage_key st with
  | Some text => negb (String.eqb text "")
  | None => false
  end.

(** Lines 33-40: [setLifts(JSON.parse(text))], a fresh object, or
    [setLifts(defaultLifts)]; a text [JSON.parse] rejects throws. *)
Definition load_effect : effect := fun _ w =>
  let? o := load (store w) in
  if stored_text (store w) then Ok (alloc w, Some (mk_ref (heap w) o))
  else Ok (w, Some default_ref).

(** Lines 42-44: [localStorage.setItem('lifts', JSON.stringify(lifts))]. *)
Definition persist_effect : effect := fun l w =>
  Ok (mk_world (persist (ref_val l) (store w)) (heap w) (writes w ++ [Json.stringify (ref_val l)]), None).

(** The dependency arrays [[]] (line 40) and [[lifts]] (line 44). *)
Definition load_deps : deps := DepsArray (fun _ => []).
Definition persist_deps : deps := DepsArray (fun l => [ref_id l]).

Definition provider_effects : list (deps * effect) :=
  [(load_deps, load_effect); (persist_deps, persist_effect)].

(** One commit: the due effects in order; the last [setLifts] wins. *)
Fixpoint run_effects (es : list (deps * effect)) (prev : option ref) (cur : ref)
    (w : world) (q : option ref) : result load_error (world * option ref) :=
  match es with
  | [] => Ok (w, q)
  | (d, e) :: es' =>
      if due d prev cur then
        match e cur w with
        | Err err => Err err
        | Ok (w', s) => run_effects es' prev cur w' (match s with Some r => Some r | None => q end)
        end
      else run_effects es' prev cur w q
  end.

(** Commit the render of [cur]; render again while an effect set a
    different object.  [None] is an exhausted fuel. *)
Fixpoint settle (fuel : nat) (prev : option ref) (cur : ref) (w : world)
    : option (result load_error (ref * world)) :=
  match fuel with
  | O => None
  | S f =>
      match run_effects provider_effects prev cur w None with
      | Err err => Some (Err err)
      | Ok (w', Some r) =>
          if N.eqb (ref_id r) (ref_id cur) then Some (Ok (cur, w')) else settle f (Some cur) r w'
      | Ok (w', None) => Some (Ok (cur, w'))
      end
  end.

(** The first render of the page on the storage [st]. *)
Definition mount_react (fuel : nat) (st : storage) : option (result load_error (ref * world)) :=
  settle fuel None initial_ref (mk_world st 2 []).

(** A user event of the lifts table in a page whose state is [cur]: the
    handler runs ([Lifts.table_step]); one that called [setLifts] hands
    React the fresh object [{ ...liftsState }] and the page renders and
    commits. *)
Definition handle (fuel : nat) (e : table_event) (t : table) (cur : ref) (w : world)
    : option (table * option add_error * option (result load_error (ref * world))) :=
  match table_step e t with
  | None => None
  | Some (t', a) =>
      Some (t', a,
        if calls_setLifts e a then settle fuel (Some cur) (mk_ref (heap w) (lifts t')) (alloc w)
        else Some (Ok (cur, w)))
  end.

(** ** Lemmas *)

Lemma due_load (p r : ref) : due load_deps (Some p) r = false.
Proof. unfold due, load_deps. now rewrite bool_decide_eq_true_2. Qed.

Lemma due_persist (p r : ref) : due persist_deps (Some p) r = negb (N.eqb (ref_id p) (ref_id r)).
Proof.
  unfold due, persist_deps. f_equal. case_bool_decide as E; symmetry.
  - apply N.eqb_eq. congruence.
  - apply N.eqb_neq. congruence.
Qed.

(** Without a stored text the first effect reads the seed. *)
Lemma load_default (st : storage) : stored_text st = false -> load st = Ok defaultLifts.
Proof.
  unfold stored_text, load. destruct (getItem storage_key st) as [text|]; [|reflexivity].
  destruct (String.eqb text ""); [reflexivity|discriminate].
Qed.

(** The first effect sets the loaded registry as an object other than
    the initial [{}]. *)
Lemma load_effect_ok (l : ref) (w : world) (o : lifts_obj) :
  load (store w) = Ok o -> (1 < heap w)%N ->
  exists w' r, load_effect l w = Ok (w', Some r) /\ ref_val r = o /\ ref_id r <> 1%N /\
    store w' = store w /\ writes w' = writes w.
Proof.
  intros Hl Hh. unfold load_effect. rewrite Hl. cbn [result_bind].
  destruct (stored_text (store w)) eqn:Hst.
  - eexists _, _. split; [reflexivity|]. cbn. split; [reflexivity|split; [lia|split; reflexivity]].
  - rewrite load_default in Hl by exact Hst. injection Hl as <-.
    eexists _, _. split; [reflexivity|]. cbn. split; [reflexivity|split; [lia|split; reflexivity]].
Qed.

(** A commit after the first one, of a state other than the last
    committed one: only the persist effect runs. *)
Lemma run_effects_update (p r : ref) (w : world) :
  ref_id p <> ref_id r ->
  run_effects provider_effects (Some p) r w None =
    Ok (mk_world (persist (ref_val r) (store w)) (heap w) (writes w ++ [Json.stringify (ref_val r)]), None).
Proof.
  intros Hne. cbn [run_effects provider_effects]. rewrite due_load, due_persist.
  apply N.eqb_neq in Hne. rewrite Hne. reflexivity.
Qed.

(** The first commit: both effects run; the load sets an object other
    than the initial one, the persist writes [{}]. *)
Lemma run_effects_first (w : world) (o : lifts_obj) :
  load (store w) = Ok o -> (1 < heap w)%N ->
  exists r h, run_effects provider_effects None initial_ref w None =
    Ok (mk_world (persist initial_lifts (store w)) h (writes w ++ [Json.stringify initial_lifts]), Some r) /\
    ref_val r = o /\ ref_id r <> 1%N.
Proof.
  intros Hl Hh. destruct (load_effect_ok initial_ref w o Hl Hh) as (w1 & r & He & Hr & Hid & Hs & Hw).
  unfold provider_effects. cbn [run_effects due]. rewrite He. cbn.
  rewrite Hs, Hw. eexists _, _. split; [reflexivity|auto].
Qed.

(** ** Properties *)

(** C10. The mount of the page settles: with the dependency arrays of
    lines 40 and 44, React commits the first render (both effects run:
    the load sets the stored or default registry, the persist writes
    the initial [{}]), renders once more with the loaded registry and
    commits it (only the persist effect runs), and stops.  What it
    writes, in order, and the storage and registry it ends with are
    those of [Storage.mount]; a text [JSON.parse] rejects throws at the
    first commit. *)
Theorem mount_settles (st : storage) (fuel : nat) :
  (2 <= fuel)%nat ->
  match mount st with
  | Ok (s, ws) =>
      exists r h, mount_react fuel st = Some (Ok (r, mk_world (s_storage s) h ws)) /\
                  ref_val r = lifts (s_table s)
  | Err err => mount_react fuel st = Some (Err err)
  end.
Proof.
  intros Hf. destruct fuel as [|[|f]]; [lia|lia|]. unfold mount, mount_react.
  destruct (load st) as [o|err] eqn:Hl; cbn [result_bind].
  - destruct (run_effects_first (mk_world st 2 []) o Hl ltac:(cbn; lia)) as (r & h & He & Hr & Hid).
    cbn [settle]. rewrite He. change (ref_id initial_ref) with 1%N. apply N.eqb_neq in Hid. rewrite Hid.
    cbn [settle]. rewrite run_effects_update by (cbn; apply N.eqb_neq; now rewrite N.eqb_sym).
    rewrite Hr. eexists _, _. split; [reflexivity|exact Hr].
  - cbn [settle]. unfold provider_effects. cbn [run_effects due]. unfold load_effect. cbn [store].
    rewrite Hl. reflexivity.
Qed.

(** C11. Persisting after a handler follows from the dependency
    arrays: when the page's state object [cur] holds the registry of the
    table, a handler that called [setLifts] makes React render its fresh
    object and commit once, running the persist effect (the array
    [[lifts]] changed) and not the load effect (the array [[]] did not),
    so one text, the new registry's, is written; a handler that did not
    call it leaves state and storage alone.  Storage and registry are
    those of [Storage.session_step]. *)
Theorem handle_persists (fuel : nat) (e : table_event) (t : table) (cur : ref) (w : world)
    (s' : session) (a : option add_error) :
  (1 <= fuel)%nat -> (ref_id cur < heap w)%N -> ref_val cur = lifts t ->
  session_step e (mk_session t (store w)) = Some (s', a) ->
  exists r w', handle fuel e t cur w = Some (s_table s', a, Some (Ok (r, w'))) /\
    store w' = s_storage s' /\ ref_val r = lifts (s_table s') /\
    writes w' = writes w ++ (if calls_setLifts e a then [Json.stringify (lifts (s_table s'))] else []).
Proof.
  intros Hf Hh Hv Hs. unfold session_step in Hs. cbn [s_table s_storage] in Hs.
  destruct (table_step e t) as [[t' a']|] eqn:Ht; [|discriminate]. injection Hs as <- <-.
  unfold handle. rewrite Ht. cbn [s_table s_storage]. destruct (calls_setLifts e a') eqn:Hc.
  - destruct fuel as [|f]; [lia|]. cbn [settle]. rewrite run_effects_update by (cbn; lia).
    eexists _, _. split; [reflexivity|]. cbn. auto.
  - exists cur, w. rewrite app_nil_r, Hv, (table_step_keeps_lifts e t t' a' Hc Ht). auto.
Qed.

(** ** Witnesses *)

Section Witnesses.
Local Open Scope string_scope.

(** A page opened on a storage holding a registry. *)
Definition stored_page : storage := persist [("Squat", 100%Q)] ∅.

Lemma mount_settles_witness :
  (2 <= 2)%nat /\
  match mount stored_page with
  | Ok (s, ws) =>
      exists r h, mount_react 2 stored_page = Some (Ok (r, mk_world (s_storage s) h ws)) /\
                  ref_val r = lifts (s_table s)
  | Err err => mount_react 2 stored_page = Some (Err err)
  end.
Proof. split; [lia|]. exact (mount_settles stored_page 2 (le_n 2)). Defined.

(** The page after its mount on an empty storage, with the add row open. *)
Definition adding_world : world := mk_world (persist defaultLifts ∅) 3 ["{}"; Json.stringify defaultLifts].

Lemma handle_persists_witness :
  (1 <= 1)%nat /\ (ref_id (mk_ref 2 defaultLifts) < heap adding_world)%N /\
  exists r w', handle 1 (AddSave "Front Squat" (365 # 2)) (s_table adding_session) (mk_ref 2 defaultLifts) adding_world
                 = Some (s_table added_session, None, Some (Ok (r, w'))) /\
    store w' = s_storage added_session /\ ref_val r = lifts (s_table added_session) /\
    writes w' = (writes adding_world ++ [Json.stringify (lifts (s_table added_session))])%list.
Proof.
  assert (Hh : (ref_id (mk_ref 2 defaultLifts) < heap adding_world)%N) by (cbn; lia).
  split; [lia|split; [exact Hh|]].
  exact (handle_persists 1 (AddSave "Front Squat" (365 # 2)) (s_table adding_session) (mk_ref 2 defaultLifts)
           adding_world added_session None (le_n 1) Hh eq_refl add_step).
Defined.
End Witnesses.

End Effects.
