(* ===== verification/App.v ===== *)
(** * The whole page: [App] (App.tsx, lines 302-314)

    [App] renders [LiftsContextProvider] around [LiftsTable] and
    [ProgramTable].  The provider owns the registry and persists it
    ([Storage]); [LiftsTable] renders the rows and the add row and runs
    the registry handlers on their callbacks ([Row], [Lifts]);
    [ProgramTable] owns the week ([Week]).  An event of the page is
    either an event of the lifts section or a click on a week button.

    The props [LiftsTable] passes to each row wire its callbacks to the
    handlers: [onSave] and [onDelete] of the row keyed [k] to the
    edit/rename and delete handlers for [k] (lines 165-176), [onSave]
    and [onCancel] of the add row to the add handler and to closing the
    add row (lines 186-206), the [+] button to opening it (lines
    214-216).  [table_event_of] is that wiring; [app_step] runs the
    lifts section's step and then the persist effect when the handler
    called [setLifts].

    Theorems: every page state reached from a successful load keeps
    storage equal to the text of the registry, rows keyed by the
    registry, a well-formed registry and a week in [0..3]; reloading
    the page in any such state shows the same registry, week 1 and no
    row being edited; and from any such state the user can still give
    any ordinary name any 1RM (through the row of that name, opened
    for editing if it is not, or through the add row, opened if it is
    not), a liveness property proved by exhibiting the events. *)

From Stdlib Require Import String QArith ZArith List.
From stdpp Require Import base gmap strings.
From S2P Require Import Prelude JsObject Json JsNumber Week Lifts Row Storage.
Import ListNotations.

Module App.
Import Storage.

(** The handler a row callback runs, if any. *)
Definition table_event_of (ev : ui_event) (u : ui) : option table_event :=
  match ev with
  | ClickPlus => Some ClickAdd
  | OnRow k e =>
      match JsObject.get k (ui_rows u), JsObject.get k (lifts (ui_table u)) with
      | Some s, Some v =>
          match row_step (row_props_of k v) e s with
          | Some (_, Some (CallSave n m)) => Some (RowSave k n m)
          | Some (_, Some (CallDelete n)) => Some (RowDelete k n)
          | _ => None
          end
      | _, _ => None
      end
  | OnAddRow e =>
      if isAddingNewLift (ui_table u) then
        match row_step add_props e (ui_add_row u) with
        | Some (_, Some (CallSave n m)) => Some (AddSave n m)
        | Some (_, Some CallCancel) => Some AddCancel
        | _ => None
        end
      else None
  end.

Record page := mk_page { p_ui : ui; p_week : Z; p_storage : storage }.

Inductive page_event :=
| OnLifts (e : ui_event)
| OnWeek (e : week_event).

(** The first render of [App] on the storage [st]: the provider's
    mount, then the lifts section on the loaded registry and the week
    at 0. *)
Definition app_mount (st : storage) : result load_error page :=
  match mount st with
  | Ok (sess, _) => Ok (mk_page (ui_init (lifts (s_table sess))) week_init (s_storage sess))
  | Err e => Err e
  end.

Definition app_step (ev : page_event) (p : page) : option (page * option add_error) :=
  match ev with
  | OnLifts e =>
      match ui_step e (p_ui p) with
      | None => None
      | Some (u', a) =>
          let st' :=
            match table_event_of e (p_ui p) with
            | Some tev => if calls_setLifts tev a then persist (lifts (ui_table u')) (p_storage p)
                          else p_storage p
            | None => p_storage p
            end in
          Some (mk_page u' (p_week p) st', a)
      end
  | OnWeek e => Some (mk_page (p_ui p) (week_step e (p_week p)) (p_storage p), None)
  end.

Inductive app_reachable (st0 : storage) : page -> Prop :=
| app_reachable_mount p : app_mount st0 = Ok p -> app_reachable st0 p
| app_reachable_step p ev p' a :
    app_reachable st0 p -> app_step ev p = Some (p', a) -> app_reachable st0 p'.

Fixpoint app_run (evs : list page_event) (p : page) : option page :=
  match evs with
  | [] => Some p
  | ev :: evs' =>
      match app_step ev p with
      | Some (p', _) => app_run evs' p'
      | None => None
      end
  end.

(** ** Lemmas *)

Lemma after_table_table tev u rows add u' a :
  after_table tev u rows add = Some (u', a) -> table_step tev (ui_table u) = Some (ui_table u', a).
Proof.
  unfold after_table. destruct (table_step tev (ui_table u)) as [[t' a']|]; [|discriminate].
  now intros [= <- <-].
Qed.

(** [table_event_of] names the handler [ui_step] runs: the table moves
    by that handler, and stays as it was when there is none. *)
Lemma ui_step_table ev u u' a :
  ui_step ev u = Some (u', a) ->
  match table_event_of ev u with
  | Some tev => table_step tev (ui_table u) = Some (ui_table u', a)
  | None => ui_table u' = ui_table u /\ a = None
  end.
Proof.
  destruct ev as [k e|e|]; simpl.
  - destruct (JsObject.get k (ui_rows u)) as [s|]; [|discriminate].
    destruct (JsObject.get k (lifts (ui_table u))) as [v|]; [|discriminate].
    destruct (row_step _ e s) as [[s' [[n m|n|]|]]|]; try discriminate;
      try apply after_table_table; now intros [= <- <-].
  - destruct (isAddingNewLift (ui_table u)); [|discriminate].
    destruct (row_step add_props e (ui_add_row u)) as [[s' [[n m|n|]|]]|];
      try discriminate; try apply after_table_table; now intros [= <- <-].
  - apply after_table_table.
Qed.

Lemma app_mount_Ok (st : storage) (p : page) :
  app_mount st = Ok p ->
  exists sess w, mount st = Ok (sess, w) /\
    p = mk_page (ui_init (lifts (s_table sess))) week_init (s_storage sess).
Proof.
  unfold app_mount. destruct (mount st) as [[sess w]|e]; [|discriminate].
  intros [= <-]. eauto.
Qed.

(** The invariant of the page. *)
Definition page_ok (p : page) : Prop :=
  getItem storage_key (p_storage p) = Some (Json.stringify (lifts (ui_table (p_ui p)))) /\
  rows_keyed (p_ui p) /\ JsObject.wf (lifts (ui_table (p_ui p))) /\ (0 <= p_week p <= 3)%Z.

Lemma app_mount_ok (st : storage) (p : page) : app_mount st = Ok p -> page_ok p.
Proof.
  intros (sess & w & Hm & ->)%app_mount_Ok.
  destruct (session_invariant st sess (session_reachable_mount st sess w Hm)) as [Hget Hwf].
  split; [exact Hget|split; [apply map_fst_reconcile|split; [exact Hwf|]]].
  unfold week_init. cbn. lia.
Qed.

Lemma app_step_ok (ev : page_event) (p p' : page) (a : option add_error) :
  page_ok p -> app_step ev p = Some (p', a) -> page_ok p'.
Proof.
  intros (Hget & Hk & Hwf & Hw). destruct ev as [e|e]; simpl.
  - destruct (ui_step e (p_ui p)) as [[u' a']|] eqn:Hs; [|discriminate].
    intros [= <- _]. cbn [p_storage p_ui p_week].
    split; [|split; [exact (ui_step_keyed _ _ _ _ Hk Hs)|
                     split; [exact (ui_step_wf _ _ _ _ Hwf Hs)|exact Hw]]].
    pose proof (ui_step_table _ _ _ _ Hs) as Ht.
    destruct (table_event_of e (p_ui p)) as [tev|].
    + destruct (calls_setLifts tev a') eqn:Hc; [apply getItem_persist|].
      cbn [p_ui p_storage]. now rewrite (table_step_keeps_lifts tev _ _ _ Hc Ht).
    + destruct Ht as [Ht _]. cbn [p_ui p_storage]. now rewrite Ht.
  - intros [= <- _]. split; [exact Hget|split; [exact Hk|split; [exact Hwf|apply week_step_range, Hw]]].
Qed.

Lemma app_reachable_ok (st0 : storage) (p : page) : app_reachable st0 p -> page_ok p.
Proof.
  induction 1 as [p Hm|p ev p' a _ IH Hstep];
    [exact (app_mount_ok _ _ Hm)|exact (app_step_ok _ _ _ _ IH Hstep)].
Qed.

Lemma app_run_reachable (st0 : storage) (evs : list page_event) (p p' : page) :
  app_reachable st0 p -> app_run evs p = Some p' -> app_reachable st0 p'.
Proof.
  revert p. induction evs as [|ev evs IH]; simpl; intros p Hp; [now intros [= <-]|].
  destruct (app_step ev p) as [[p1 a]|] eqn:E; [|discriminate].
  apply IH. exact (app_reachable_step st0 p ev p1 a Hp E).
Qed.

(** A run of the lifts section is a run of the page: the week stays,
    storage follows the persist effects. *)
Lemma app_run_lifts (evs : list ui_event) (p : page) (u' : ui) :
  ui_run evs (p_ui p) = Some u' ->
  exists st', app_run (map OnLifts evs) p = Some (mk_page u' (p_week p) st').
Proof.
  revert p. induction evs as [|e evs IH]; intros p; cbn [ui_run map app_run].
  - intros [= <-]. destruct p. eauto.
  - unfold app_step at 1. destruct (ui_step e (p_ui p)) as [[u1 a]|]; [|discriminate].
    intros H. exact (IH (mk_page u1 (p_week p) _) H).
Qed.

(** ** Properties *)

(** C7. The page as a whole: in every state reached from a successful
    load, by any sequence of row edits, adds, deletes and week clicks,
    the text stored under ['lifts'] is [JSON.stringify] of the registry,
    the rows are keyed by the registry, the registry is well formed and
    the week is in [0..3]; and when the registry's values are decimals
    [Number::toString] prints exactly, reloading the page shows the same
    registry (values in lowest terms), week 1, the add row closed and no
    row being edited. *)
Theorem app_reload (st0 : storage) (p : page) :
  app_reachable st0 p ->
  getItem storage_key (p_storage p) = Some (Json.stringify (lifts (ui_table (p_ui p)))) /\
  rows_keyed (p_ui p) /\ JsObject.wf (lifts (ui_table (p_ui p))) /\ (0 <= p_week p <= 3)%Z /\
  (Forall (fun e => JsNumber.in_domain (snd e) = true) (lifts (ui_table (p_ui p))) ->
   exists p', app_mount (p_storage p) = Ok p' /\
     lifts (ui_table (p_ui p')) = Json.canon (lifts (ui_table (p_ui p))) /\
     p_week p' = 0%Z /\ isAddingNewLift (ui_table (p_ui p')) = false /\
     (forall k s, JsObject.get k (ui_rows (p_ui p')) = Some s -> r_isEditing s = false)).
Proof.
  intros Hr. destruct (app_reachable_ok st0 p Hr) as (Hget & Hk & Hwf & Hw).
  do 4 (split; [assumption|]). intros Hdom.
  unfold app_mount, mount. rewrite (load_stored _ _ Hget Hwf Hdom).
  eexists. split; [reflexivity|]. cbn [p_ui p_week ui_table ui_init lifts isAddingNewLift ui_rows].
  do 3 (split; [reflexivity|]). intros k s.
  rewrite get_reconcile. change (JsObject.get k []) with (@None row_state). cbv beta iota.
  unfold option_map. intros H. destruct (JsObject.get k _) as [v|] in H; [|discriminate H].
  injection H as <-. reflexivity.
Qed.

(** C31. Liveness of the page: from every state reached from a
    successful load, whatever rows are open or being edited, for every
    name that is not empty and not a member of [Object.prototype] and
    every 1RM, some sequence of clicks and inputs leads to a page whose
    registry gives that name that 1RM, leaves every other lift as it
    was, has persisted the result, and shows the same week.  (A lift
    named after a member of [Object.prototype] that is not yet a key
    cannot be added at all: the duplicate test finds the inherited
    member, see [add_lift_rejects_proto_member].) *)
Theorem app_live (st0 : storage) (p : page) (n : string) (m : Q) :
  app_reachable st0 p -> n <> ""%string -> JsObject.is_proto_member n = false ->
  exists evs p', app_run evs p = Some p' /\
    JsObject.get n (lifts (ui_table (p_ui p'))) = Some m /\
    (forall k, k <> n -> JsObject.get k (lifts (ui_table (p_ui p'))) = JsObject.get k (lifts (ui_table (p_ui p)))) /\
    getItem storage_key (p_storage p') = Some (Json.stringify (lifts (ui_table (p_ui p')))) /\
    p_week p' = p_week p.
Proof.
  intros Hr Hn Hp. destruct (app_reachable_ok st0 p Hr) as (_ & Hk & _).
  destruct (ui_live (p_ui p) n m Hk Hn Hp) as (evs & u' & Hrun & Hget & Hother).
  destruct (app_run_lifts evs p u' Hrun) as [st' Happ].
  exists (map OnLifts evs), (mk_page u' (p_week p) st').
  destruct (app_reachable_ok st0 _ (app_run_reachable st0 _ p _ Hr Happ)) as (Hst & _).
  auto.
Qed.

(** ** A session *)

Section Session.
Local Open Scope string_scope.
Local Open Scope Q_scope.

(** The page opened on an empty storage. *)
Definition fresh_page : page :=
  match app_mount ∅ with
  | Ok p => p
  | Err _ => mk_page (ui_init []) week_init ∅
  end.

(** Add Front Squat at 182.5, rename Dips to Weighted Dips, and move to
    week 3. *)
Definition session_events : list page_event :=
  [OnLifts ClickPlus; OnLifts (OnAddRow (ChangeName "Front Squat"));
   OnLifts (OnAddRow (ChangeMax (InputNumber (365 # 2)))); OnLifts (OnAddRow ClickSave);
   OnLifts (OnRow "Dips" ClickEdit); OnLifts (OnRow "Dips" (ChangeName "Weighted Dips"));
   OnLifts (OnRow "Dips" ClickSave); OnWeek Next; OnWeek Next].

Definition session_page : page :=
  match app_run session_events fresh_page with Some p => p | None => fresh_page end.

Lemma fresh_page_reachable : app_reachable ∅ fresh_page.
Proof. apply app_reachable_mount. vm_compute. reflexivity. Qed.

Lemma session_page_reachable : app_reachable ∅ session_page.
Proof.
  apply (app_run_reachable ∅ session_events fresh_page); [exact fresh_page_reachable|].
  vm_compute. reflexivity.
Qed.

(** A session on a fresh page: after adding Front Squat at 182.5,
    renaming Dips to Weighted Dips and moving to week 3, storage holds
    the edited registry, and a reload shows Front Squat at 182.5,
    Weighted Dips at 90, no Dips, and week 1. *)
Example session_reload :
  exists p', app_mount (p_storage session_page) = Ok p' /\
    JsObject.get "Front Squat" (lifts (ui_table (p_ui p'))) = Some (365 # 2) /\
    JsObject.get "Weighted Dips" (lifts (ui_table (p_ui p'))) = Some 90 /\
    JsObject.get "Dips" (lifts (ui_table (p_ui p'))) = None /\
    p_week session_page = 2%Z /\ p_week p' = 0%Z.
Proof. eexists. split; [vm_compute; reflexivity|]. vm_compute. repeat split. Qed.

Lemma domain_ok (o : lifts_obj) :
  forallb (fun e => JsNumber.in_domain (snd e)) o = true ->
  Forall (fun e => JsNumber.in_domain (snd e) = true) o.
Proof. intros H. apply List.Forall_forall. intros e He. exact (proj1 (List.forallb_forall _ o) H e He). Qed.

Lemma app_reload_witness :
  exists p', app_mount (p_storage session_page) = Ok p' /\
    lifts (ui_table (p_ui p')) = Json.canon (lifts (ui_table (p_ui session_page))) /\
    p_week p' = 0%Z /\ isAddingNewLift (ui_table (p_ui p')) = false /\
    (forall k s, JsObject.get k (ui_rows (p_ui p')) = Some s -> r_isEditing s = false).
Proof.
  refine (proj2 (proj2 (proj2 (proj2 (app_reload ∅ session_page session_page_reachable)))) _).
  apply domain_ok. vm_compute. reflexivity.
Defined.
Lemma app_live_witness :
  "Front Squat" <> "" /\ JsObject.is_proto_member "Front Squat" = false /\
  exists evs p', app_run evs fresh_page = Some p' /\
    JsObject.get "Front Squat" (lifts (ui_table (p_ui p'))) = Some (365 # 2) /\
    (forall k, k <> "Front Squat" ->
       JsObject.get k (lifts (ui_table (p_ui p'))) = JsObject.get k (lifts (ui_table (p_ui fresh_page)))) /\
    getItem storage_key (p_storage p') = Some (Json.stringify (lifts (ui_table (p_ui p')))) /\
    p_week p' = p_week fresh_page.
Proof.
  assert (Hn : "Front Squat" <> "") by discriminate.
  assert (Hp : JsObject.is_proto_member "Front Squat" = false) by reflexivity.
  split; [exact Hn|split; [exact Hp|]].
  exact (app_live ∅ fresh_page "Front Squat" (365 # 2) fresh_page_reachable Hn Hp).
Defined.
End Session.

End App.
